(** * Order Intelligence Platform: dispatch scoring, batching, pack workflow

    A shallow embedding of the three algorithmic classes of the platform,

      - [DispatchPriorityQueue]  (priority score and ranked queue),
      - [BatchOptimizer]         (js/dispatch/batchOptimizer.js),
      - [PackWorkflow]           (pack session state machine and metrics),

    followed by the properties established about them.

    Conventions of the embedding.
      - JavaScript numbers are idealised as exact rationals ([Q]); the
        non-finite values that the code itself manufactures ([NaN] from a
        failed [parseFloat], [Infinity] as the initial [bestTime]) are
        represented explicitly where they occur.
      - A [Date] is its time value in milliseconds ([Z]); an invalid date
        is [None].
      - Every [new Date()] whose value is used or stored consumes the
        next reading of the host clock; the number of readings taken so
        far is part of each object's state.  Readings made only for log
        lines, notifications and result metadata are not counted; every
        property below holds for every clock.
      - [Map] and [Set] are [gmap] and [gset].
      - The pack workflow's item of localStorage is part of its state,
        with what [JSON.stringify] and [JSON.parse] make of the values
        saved in it.
      - Console output, toasts and DOM events have no effect on the
        values studied here and are not represented. *)

From Stdlib Require Import ZArith QArith Qabs Qround Qminmax Lqa Lia Ascii String.
From stdpp Require Import gmap strings list fin_maps pretty sorting.

Open Scope Q_scope.

(* ===================================================================== *)
(** * Part I. Definitions                                                 *)
(* ===================================================================== *)

(** ** The JavaScript host *)

Module JS.

(** Built-ins whose behaviour is fixed by the host rather than by the
    repository: the string parser behind [new Date(string)], [parseFloat]
    on strings ([None] is [NaN]), [Number.prototype.toString], and the
    successive readings of the wall clock. *)
Class Host := {
  Date_parse : string → option Z;
  parseFloat_string : string → option Q;
  Number_toString : Q → string;
  clock : nat → Z
}.

(** The values an order field can hold. *)
Inductive Value :=
| Undefined
| Null
| Number (x : Q)
| NaN
| Str (s : string)
| DateObj (t : option Z).

(** Reading a property: an absent property reads as [undefined]. *)
Definition get (f : option Value) : Value := default Undefined f.

(** [Math.round]: nearest integer, halves towards plus infinity. *)
Definition Math_round (x : Q) : Q := inject_Z (Qfloor (x + 1 / 2)).

Definition Math_ceil (x : Q) : Q := inject_Z (Qceiling x).

(** [x || 0] for the result of [parseFloat]. *)
Definition orZero (x : option Q) : Q := default 0 x.

(** [<=] and [>] on numbers. *)
Definition le (x y : Q) : bool := Qle_bool x y.
Definition gt (x y : Q) : bool := negb (Qle_bool x y).
Definition ge (x y : Q) : bool := Qle_bool y x.
Definition lt (x y : Q) : bool := negb (Qle_bool y x).
Definition strict_ne (x y : Q) : bool := negb (Qeq_bool x y).

(** White space and line terminators among the code units up to 255:
    tab to carriage return, space and no-break space. *)
Definition is_space (c : ascii) : bool :=
  let n := nat_of_ascii c in
  ((9 <=? n)%nat && (n <=? 13)%nat) || (n =? 32)%nat || (n =? 160)%nat.

Definition is_digit (c : ascii) : bool :=
  let n := nat_of_ascii c in (48 <=? n)%nat && (n <=? 57)%nat.

Fixpoint drop_space (l : list ascii) : list ascii :=
  match l with
  | c :: l' => if is_space c then drop_space l' else l
  | [] => []
  end.

(** [String.prototype.trim]. *)
Definition trim (s : string) : string :=
  string_of_list_ascii
    (rev (drop_space (rev (drop_space (list_ascii_of_string s))))).

(** At most [n] leading digits, and the rest. *)
Fixpoint take_digits (n : nat) (l : list ascii) : list ascii * list ascii :=
  match n, l with
  | S n', c :: l' =>
      if is_digit c
      then let '(ds, r) := take_digits n' l' in (c :: ds, r)
      else ([], l)
  | _, _ => ([], l)
  end.

Definition slash : ascii := "/"%char.

(** The test [/^\d{1,2}\/\d{1,2}\/\d{4}/]. *)
Definition match_uk_date (s : string) : bool :=
  let '(d1, r1) := take_digits 2 (list_ascii_of_string s) in
  match d1, r1 with
  | _ :: _, c1 :: r2 =>
      Ascii.eqb c1 slash &&
      let '(d2, r3) := take_digits 2 r2 in
      match d2, r3 with
      | _ :: _, c2 :: r4 =>
          Ascii.eqb c2 slash &&
          (length (fst (take_digits 4 r4)) =? 4)%nat
      | _, _ => false
      end
  | _, _ => false
  end.

(** [s.split('/')]. *)
Fixpoint split_slash (cur : list ascii) (l : list ascii) : list string :=
  match l with
  | [] => [string_of_list_ascii (rev cur)]
  | c :: l' =>
      if Ascii.eqb c slash
      then string_of_list_ascii (rev cur) :: split_slash [] l'
      else split_slash (c :: cur) l'
  end.

Definition split (s : string) : list string :=
  split_slash [] (list_ascii_of_string s).

(** [s.padStart(2, '0')]. *)
Definition padStart2 (s : string) : string :=
  match String.length s with
  | O => "00" +:+ s
  | S O => "0" +:+ s
  | _ => s
  end.

(** [parseFloat(v)]: the argument is first converted to a string; a
    finite number survives the round trip, [undefined], [null], [NaN] and
    a [Date] do not start with a numeral. *)
Definition parseFloat `{Host} (v : Value) : option Q :=
  match v with
  | Number x => Some x
  | Str s => parseFloat_string s
  | Undefined | Null | NaN | DateObj _ => None
  end.

(** One reading of the clock: the instant, and the new reading count. *)
Definition newDate `{Host} (ticks : nat) : Z * nat := (clock ticks, S ticks).

(** [Array.prototype.sort(cmp)].  The sort is stable: elements between
    which the comparator does not decide keep the order they had, so
    with a consistent comparator the result is determined.  Insertion of
    the elements, the last one first, is taken as the implementation.
    [cmp a b <= 0] lets [a] stay in front of [b]. *)
Definition keepsOrder {A} (cmp : A → A → Q) (a b : A) : Prop :=
  Is_true (le (cmp a b) 0).

Fixpoint Array_insert {A} (cmp : A → A → Q) (x : A) (l : list A) : list A :=
  match l with
  | [] => [x]
  | y :: l' =>
      if le (cmp x y) 0 then x :: l else y :: Array_insert cmp x l'
  end.

Definition Array_sort {A} (cmp : A → A → Q) (l : list A) : list A :=
  foldr (Array_insert cmp) [] l.

(** Names every object inherits from [Object.prototype]: looking one of
    them up in an object literal used as a table finds a function. *)
Definition objectPrototypeKeys : list string :=
  ["constructor"; "toString"; "toLocaleString"; "valueOf"; "hasOwnProperty";
   "isPrototypeOf"; "propertyIsEnumerable"; "__proto__"; "__defineGetter__";
   "__defineSetter__"; "__lookupGetter__"; "__lookupSetter__"]%string.

(** [Array.prototype.sort()] on strings: by code units, ascending. *)
Definition sortStrings (l : list string) : list string :=
  merge_sort (λ a b, Is_true (String.leb a b)) l.

(** [btoa]: base64 of a string of bytes. *)
Definition base64Alphabet : string :=
  "ABCDEFGHIJKLMNOPQRSTUVWXYZabcdefghijklmnopqrstuvwxyz0123456789+/".

Definition base64Char (n : N) : ascii :=
  default "="%char (String.get (N.to_nat n) base64Alphabet).

Fixpoint base64 (l : list N) : list ascii :=
  match l with
  | [] => []
  | [a] =>
      let n := (a * 65536)%N in
      [base64Char (n / 262144); base64Char ((n / 4096) mod 64);
       "="%char; "="%char]
  | [a; b] =>
      let n := (a * 65536 + b * 256)%N in
      [base64Char (n / 262144); base64Char ((n / 4096) mod 64);
       base64Char ((n / 64) mod 64); "="%char]
  | a :: b :: c :: l' =>
      let n := (a * 65536 + b * 256 + c)%N in
      base64Char (n / 262144) :: base64Char ((n / 4096) mod 64) ::
      base64Char ((n / 64) mod 64) :: base64Char (n mod 64) :: base64 l'
  end.

Definition btoa (s : string) : string :=
  string_of_list_ascii (base64 (map N_of_ascii (list_ascii_of_string s))).

(** [Math.max(...l)] for a list with at least one element. *)
Definition Math_max_list (l : list Q) : Q :=
  match l with
  | [] => 0
  | x :: l' => foldr Qmax x l'
  end.

Definition sum (l : list Q) : Q := foldr Qplus 0 l.

(** A string in a boolean position: empty and missing strings are falsy. *)
Definition truthy (s : option string) : bool :=
  match s with
  | Some s => negb (String.eqb s "")
  | None => false
  end.

(** A boolean as a number. *)
Definition bool_num (b : bool) : Q := if b then 1 else 0.

(** A [Date] or [null] as a number: its time value, or 0. *)
Definition date_num (d : option Z) : Z := default 0%Z d.

End JS.

Import JS.

(** ** DispatchPriorityQueue *)

Module DPS.

(** An order as supplied by the loader.  [orderNumber] is the order's
    string identity; [None] stands for an absent, [null] or [undefined]
    number.  For the other fields [None] is an absent property. *)
Record Order := {
  orderNumber : option string;
  orderDate : option Value;
  expectedDispatch : option Value;
  deliveryBy : option Value;
  orderTotal : option Value
}.

(** The fields written by [updateQueue]. *)
Record Derived := {
  dpsScore : Q;
  isOverdueFlag : bool;
  lastDPSCalculation : Z
}.

(** An element of [this.orders]: it has the derived fields when it was
    an earlier output of the queue. *)
Record StoredOrder := {
  supplied : Order;
  derived : option Derived
}.

(** An element of [this.priorityQueue]. *)
Record RankedOrder := {
  order : Order;
  scored : Derived
}.

Record CacheEntry := {
  score : Q;
  timestamp : Z
}.

Record Queue := {
  orders : list StoredOrder;
  priorityQueue : list RankedOrder;
  dirtyOrders : gset (option string);
  lastCalculation : option Z;
  isCalculating : bool;
  totalCalculations : nat;
  calculationCache : gmap string CacheEntry;
  ticks : nat;     (* readings of the clock taken so far *)
  dpsCalls : nat   (* instrumentation: invocations of calculateDPS *)
}.

Definition cacheExpiry : Z := 5 * 60 * 1000.

(** The constructor. *)
Definition newQueue : Queue :=
  {| orders := []; priorityQueue := []; dirtyOrders := ∅;
     lastCalculation := None; isCalculating := false;
     totalCalculations := 0; calculationCache := ∅;
     ticks := 0; dpsCalls := 0 |}.

Definition set_cache (c : gmap string CacheEntry) (q : Queue) : Queue :=
  {| orders := orders q; priorityQueue := priorityQueue q;
     dirtyOrders := dirtyOrders q; lastCalculation := lastCalculation q;
     isCalculating := isCalculating q;
     totalCalculations := totalCalculations q; calculationCache := c;
     ticks := ticks q; dpsCalls := dpsCalls q |}.

Definition set_ticks (n : nat) (q : Queue) : Queue :=
  {| orders := orders q; priorityQueue := priorityQueue q;
     dirtyOrders := dirtyOrders q; lastCalculation := lastCalculation q;
     isCalculating := isCalculating q;
     totalCalculations := totalCalculations q;
     calculationCache := calculationCache q;
     ticks := n; dpsCalls := dpsCalls q |}.

Definition set_dpsCalls (n : nat) (q : Queue) : Queue :=
  {| orders := orders q; priorityQueue := priorityQueue q;
     dirtyOrders := dirtyOrders q; lastCalculation := lastCalculation q;
     isCalculating := isCalculating q;
     totalCalculations := totalCalculations q;
     calculationCache := calculationCache q;
     ticks := ticks q; dpsCalls := n |}.

Definition set_dirtyOrders (d : gset (option string)) (q : Queue) : Queue :=
  {| orders := orders q; priorityQueue := priorityQueue q;
     dirtyOrders := d; lastCalculation := lastCalculation q;
     isCalculating := isCalculating q;
     totalCalculations := totalCalculations q;
     calculationCache := calculationCache q;
     ticks := ticks q; dpsCalls := dpsCalls q |}.

Definition set_orders (l : list StoredOrder) (q : Queue) : Queue :=
  {| orders := l; priorityQueue := priorityQueue q;
     dirtyOrders := dirtyOrders q; lastCalculation := lastCalculation q;
     isCalculating := isCalculating q;
     totalCalculations := totalCalculations q;
     calculationCache := calculationCache q;
     ticks := ticks q; dpsCalls := dpsCalls q |}.

Definition set_isCalculating (b : bool) (q : Queue) : Queue :=
  {| orders := orders q; priorityQueue := priorityQueue q;
     dirtyOrders := dirtyOrders q; lastCalculation := lastCalculation q;
     isCalculating := b;
     totalCalculations := totalCalculations q;
     calculationCache := calculationCache q;
     ticks := ticks q; dpsCalls := dpsCalls q |}.

Definition set_priorityQueue (l : list RankedOrder) (q : Queue) : Queue :=
  {| orders := orders q; priorityQueue := l;
     dirtyOrders := dirtyOrders q; lastCalculation := lastCalculation q;
     isCalculating := isCalculating q;
     totalCalculations := totalCalculations q;
     calculationCache := calculationCache q;
     ticks := ticks q; dpsCalls := dpsCalls q |}.

Definition set_lastCalculation (t : option Z) (q : Queue) : Queue :=
  {| orders := orders q; priorityQueue := priorityQueue q;
     dirtyOrders := dirtyOrders q; lastCalculation := t;
     isCalculating := isCalculating q;
     totalCalculations := totalCalculations q;
     calculationCache := calculationCache q;
     ticks := ticks q; dpsCalls := dpsCalls q |}.

Definition set_totalCalculations (n : nat) (q : Queue) : Queue :=
  {| orders := orders q; priorityQueue := priorityQueue q;
     dirtyOrders := dirtyOrders q; lastCalculation := lastCalculation q;
     isCalculating := isCalculating q;
     totalCalculations := n;
     calculationCache := calculationCache q;
     ticks := ticks q; dpsCalls := dpsCalls q |}.

(** [validateOrderForDPS]: each required field is an own property and is
    neither [null] nor [undefined]. *)
Definition present (f : option Value) : bool :=
  match f with
  | None | Some Null | Some Undefined => false
  | Some _ => true
  end.

Definition validateOrderForDPS (o : Order) : bool :=
  bool_decide (is_Some (orderNumber o)) &&
  present (orderDate o) && present (expectedDispatch o) &&
  present (orderTotal o).

Section WithHost.
Context `{Host}.

(** The string branch of [parseDate]: trim, rewrite a leading
    DD/MM/YYYY to YYYY-MM-DD, hand over to the host parser. *)
Definition parseDateString (s : string) : option Z :=
  let dateStr := trim s in
  let dateStr :=
    if match_uk_date dateStr then
      match split dateStr with
      | p0 :: p1 :: p2 :: _ =>
          p2 +:+ "-" +:+ padStart2 p1 +:+ "-" +:+ padStart2 p0
      | _ => dateStr
      end
    else dateStr in
  Date_parse dateStr.

(** [parseDate]: falsy inputs give [null]; a [Date] is returned when
    valid; anything else goes through its string form. *)
Definition parseDate (dateInput : Value) : option Z :=
  match dateInput with
  | Undefined | Null | NaN => None
  | Number x => if Qeq_bool x 0 then None else parseDateString (Number_toString x)
  | Str s => if String.eqb s "" then None else parseDateString s
  | DateObj t => t
  end.

Definition msPerHour : Q := 1000 * 60 * 60.

Definition calculateDispatchDeadlineScore (now expectedDispatch : Z) : Q :=
  let hoursUntilDispatch := inject_Z (expectedDispatch - now) / msPerHour in
  if le hoursUntilDispatch 0 then 100
  else if le hoursUntilDispatch 2 then 100
  else if le hoursUntilDispatch 4 then 90
  else if le hoursUntilDispatch 8 then 80
  else if le hoursUntilDispatch 12 then 70
  else if le hoursUntilDispatch 24 then 50
  else if le hoursUntilDispatch 48 then 25
  else Qmax 0 (25 - (hoursUntilDispatch - 48) / 10).

Definition calculateDeliveryPromiseScore (orderDate : Z) (deliveryBy : option Z) : Q :=
  match deliveryBy with
  | None => 50
  | Some deliveryBy =>
      let deliveryWindowHours := inject_Z (deliveryBy - orderDate) / msPerHour in
      if le deliveryWindowHours 24 then 100
      else if le deliveryWindowHours 48 then 80
      else if le deliveryWindowHours 72 then 60
      else if le deliveryWindowHours 120 then 40
      else if le deliveryWindowHours 168 then 20
      else 10
  end.

Definition calculateOrderAgeScore (now orderDate : Z) : Q :=
  let ageHours := inject_Z (now - orderDate) / msPerHour in
  if le ageHours 2 then 10
  else if le ageHours 6 then 20
  else if le ageHours 12 then 30
  else if le ageHours 24 then 50
  else if le ageHours 48 then 70
  else if le ageHours 72 then 85
  else 100.

Definition calculateOrderValueScore (orderValue : Q) : Q :=
  if le orderValue 0 then 0
  else if le orderValue 25 then 10
  else if le orderValue 50 then 20
  else if le orderValue 100 then 30
  else if le orderValue 250 then 50
  else if le orderValue 500 then 70
  else if le orderValue 1000 then 85
  else 100.

(** [DPS_WEIGHTS] applied to the four components. *)
Definition weightedScore (dispatch delivery age value : Q) : Q :=
  dispatch * 0.60 + delivery * 0.20 + age * 0.10 + value * 0.10.

(** [Math.max(0, Math.min(100, Math.round(dpsScore * 100) / 100))]. *)
Definition clampScore (dpsScore : Q) : Q :=
  Qmax 0 (Qmin 100 (Math_round (dpsScore * 100) / 100)).

(** [getCacheKey]: order number and hour bucket.  It is only called on
    validated orders, which have a number. *)
Definition getCacheKey (o : Order) (now : Z) : string :=
  let hour := (now / (1000 * 60 * 60))%Z in
  default "undefined" (orderNumber o) +:+ "_" +:+ pretty hour.

(** The cache test of [calculateDPS]: an entry for the key that is
    younger than [cacheExpiry]. *)
Definition cacheHit (cache : gmap string CacheEntry) (key : string) (now : Z)
  : option Q :=
  match cache !! key with
  | Some cached =>
      if (now - timestamp cached <? cacheExpiry)%Z then Some (score cached)
      else None
  | None => None
  end.

(** The part of [calculateDPS] below the cache test: parse, score, store. *)
Definition computeDPS (o : Order) (now : Z) (cache : gmap string CacheEntry)
  : Q * gmap string CacheEntry :=
  let orderDate := parseDate (get (orderDate o)) in
  let expectedDispatch := parseDate (get (expectedDispatch o)) in
  let deliveryBy := parseDate (get (deliveryBy o)) in
  let orderValue := orZero (parseFloat (get (orderTotal o))) in
  match orderDate, expectedDispatch with
  | Some orderDate, Some expectedDispatch =>
      let dispatchDeadlineScore := calculateDispatchDeadlineScore now expectedDispatch in
      let deliveryPromiseScore := calculateDeliveryPromiseScore orderDate deliveryBy in
      let orderAgeScore := calculateOrderAgeScore now orderDate in
      let orderValueScore := calculateOrderValueScore orderValue in
      let dpsScore :=
        weightedScore dispatchDeadlineScore deliveryPromiseScore
                      orderAgeScore orderValueScore in
      let finalScore := clampScore dpsScore in
      (finalScore,
       <[getCacheKey o now := {| score := finalScore; timestamp := now |}]> cache)
  | _, _ => (0, cache)
  end.

(** [calculateDPS]: validation, then the clock is read, then the cache,
    then the computation.  Nothing in the body can throw for the field
    types above, so the [catch] branch is never taken. *)
Definition calculateDPS (o : Order) (q : Queue) : Q * Queue :=
  let q := set_dpsCalls (S (dpsCalls q)) q in
  if negb (validateOrderForDPS o) then (0, q)
  else
    let '(now, t) := newDate (ticks q) in
    let q := set_ticks t q in
    match cacheHit (calculationCache q) (getCacheKey o now) now with
    | Some cached => (cached, q)
    | None =>
        let '(s, c) := computeDPS o now (calculationCache q) in
        (s, set_cache c q)
    end.

(** [isOverdue]. *)
Definition isOverdue (o : Order) (q : Queue) : bool * Queue :=
  let '(now, t) := newDate (ticks q) in
  let q := set_ticks t q in
  match parseDate (get (expectedDispatch o)) with
  | None => (false, q)
  | Some expectedDispatch => (bool_decide (expectedDispatch < now)%Z, q)
  end.

(** The object built for a rescored order: the supplied fields, the
    score, the overdue flag, the instant of the computation. *)
Definition rescore (o : Order) (q : Queue) : RankedOrder * Queue :=
  let '(dps, q) := calculateDPS o q in
  let '(overdue, q) := isOverdue o q in
  let '(stamp, t) := newDate (ticks q) in
  ({| order := o;
      scored := {| dpsScore := dps; isOverdueFlag := overdue;
                   lastDPSCalculation := stamp |} |},
   set_ticks t q).

(** The callback of [this.orders.map] in [updateQueue]: an order is
    rescored when it is dirty or has no [dpsScore] yet, kept otherwise. *)
Definition scoreOrder (o : StoredOrder) (q : Queue) : RankedOrder * Queue :=
  match derived o with
  | Some d =>
      if bool_decide (orderNumber (supplied o) ∈ dirtyOrders q)
      then rescore (supplied o) q
      else ({| order := supplied o; scored := d |}, q)
  | None => rescore (supplied o) q
  end.

Fixpoint mapOrders (l : list StoredOrder) (q : Queue)
  : list RankedOrder * Queue :=
  match l with
  | [] => ([], q)
  | o :: l' =>
      let '(r, q) := scoreOrder o q in
      let '(rs, q) := mapOrders l' q in
      (r :: rs, q)
  end.

(** The comparator of [updateQueue]. *)
Definition compareOrders (a b : RankedOrder) : Q :=
  if strict_ne (dpsScore (scored b)) (dpsScore (scored a)) then
    dpsScore (scored b) - dpsScore (scored a)
  else if negb (eqb (isOverdueFlag (scored a)) (isOverdueFlag (scored b))) then
    bool_num (isOverdueFlag (scored b)) - bool_num (isOverdueFlag (scored a))
  else
    let aValue := orZero (parseFloat (get (orderTotal (order a)))) in
    let bValue := orZero (parseFloat (get (orderTotal (order b)))) in
    if strict_ne bValue aValue then bValue - aValue
    else
      let aDate := parseDate (get (orderDate (order a))) in
      let bDate := parseDate (get (orderDate (order b))) in
      inject_Z (date_num aDate - date_num bDate).

(** The order numbers of a list of orders, as a [Set]. *)
Definition orderNumbers (l : list StoredOrder) : gset (option string) :=
  list_to_set (map (λ o, orderNumber (supplied o)) l).

(** [updatePerformanceMetrics]: the run counter; the two timing figures
    derived from [performance.now()] are not represented. *)
Definition updatePerformanceMetrics (q : Queue) : Queue :=
  set_totalCalculations (S (totalCalculations q)) q.

(** [updateQueue(orders)].  [None] is a call without argument.  The
    [finally] block resets [isCalculating] on both exits of the [try]. *)
Definition updateQueue (ords : option (list StoredOrder)) (q : Queue)
  : list RankedOrder * Queue :=
  if isCalculating q then (priorityQueue q, q)
  else
    let q := set_isCalculating true q in
    let q :=
      match ords with
      | Some l => set_dirtyOrders (orderNumbers l) (set_orders l q)
      | None => q
      end in
    if bool_decide (size (dirtyOrders q) = 0%nat) &&
       bool_decide (0 < length (priorityQueue q))%nat
    then (priorityQueue q, set_isCalculating false q)
    else
      let '(updatedOrders, q) := mapOrders (orders q) q in
      let sorted := Array_sort compareOrders updatedOrders in
      let q := set_priorityQueue sorted q in
      let q := set_dirtyOrders ∅ q in
      let '(now, t) := newDate (ticks q) in
      let q := set_lastCalculation (Some now) (set_ticks t q) in
      let q := updatePerformanceMetrics q in
      (sorted, set_isCalculating false q).

Definition markOrderDirty (n : option string) (q : Queue) : Queue :=
  set_dirtyOrders (dirtyOrders q ∪ {[ n ]}) q.

Definition markAllOrdersDirty (q : Queue) : Queue :=
  set_dirtyOrders (orderNumbers (orders q)) q.

Definition clearCache (q : Queue) : Queue := set_cache ∅ q.

(** The periodic sweep installed with [setInterval]: entries older than
    [cacheExpiry] are deleted. *)
Definition sweepCache (q : Queue) : Queue :=
  let '(now, t) := newDate (ticks q) in
  set_cache
    (filter (λ kv, ¬ (cacheExpiry < now - timestamp kv.2)%Z)
            (calculationCache q))
    (set_ticks t q).

(** The states a queue object can be in: the constructor, followed by
    any sequence of calls of its methods and runs of the sweep. *)
Inductive reachable : Queue → Prop :=
| reach_new : reachable newQueue
| reach_calculateDPS o q : reachable q → reachable (calculateDPS o q).2
| reach_isOverdue o q : reachable q → reachable (isOverdue o q).2
| reach_updateQueue ords q : reachable q → reachable (updateQueue ords q).2
| reach_markOrderDirty n q : reachable q → reachable (markOrderDirty n q)
| reach_markAllOrdersDirty q : reachable q → reachable (markAllOrdersDirty q)
| reach_clearCache q : reachable q → reachable (clearCache q)
| reach_sweepCache q : reachable q → reachable (sweepCache q).

(** The instant the next [new Date()] of the queue will observe. *)
Definition currentTime (q : Queue) : Z := clock (ticks q).

(** An order fit for scoring: the required fields are there and both
    required dates parse. *)
Definition validOrder (o : Order) : Prop :=
  validateOrderForDPS o = true ∧
  is_Some (parseDate (get (orderDate o))) ∧
  is_Some (parseDate (get (expectedDispatch o))).

(** The numeric keys the ranking is stated on. *)
Definition totalOf (r : RankedOrder) : Q :=
  orZero (parseFloat (get (orderTotal (order r)))).

Definition dateOf (r : RankedOrder) : Z :=
  date_num (parseDate (get (orderDate (order r)))).

(** The tie-break in the words of the specification: an overdue order
    comes before one that is not; then the higher total; then the older
    order date. *)
Definition tieBreak (a b : RankedOrder) : Prop :=
  (isOverdueFlag (scored a) = true ∧ isOverdueFlag (scored b) = false) ∨
  (isOverdueFlag (scored a) = isOverdueFlag (scored b) ∧
   (totalOf b < totalOf a ∨
    (totalOf a == totalOf b ∧ (dateOf a ≤ dateOf b)%Z))).

(** Every adjacent pair of a ranking: scores do not increase, and equal
    scores obey the tie-break. *)
Definition rankingSorted (l : list RankedOrder) : Prop :=
  ∀ i a b, l !! i = Some a → l !! S i = Some b →
    dpsScore (scored b) <= dpsScore (scored a) ∧
    (dpsScore (scored a) == dpsScore (scored b) → tieBreak a b).

(** What scoring leaves alone: the order list, the ranking, the dirty
    set and the re-entrancy flag. *)
Definition sameQueueData (q q' : Queue) : Prop :=
  orders q' = orders q ∧ priorityQueue q' = priorityQueue q ∧
  dirtyOrders q' = dirtyOrders q ∧ isCalculating q' = isCalculating q.

(** Every cached score lies between 0 and 100. *)
Definition cacheInRange (c : gmap string CacheEntry) : Prop :=
  ∀ k e, c !! k = Some e → 0 <= score e ∧ score e <= 100.

(** The facts that hold of a queue between two calls. *)
Definition queueInvariant (q : Queue) : Prop :=
  cacheInRange (calculationCache q) ∧ isCalculating q = false ∧
  rankingSorted (priorityQueue q).

(** A queue that has nothing left to rescore. *)
Definition settled (q : Queue) : Prop :=
  isCalculating q = false ∧ size (dirtyOrders q) = 0%nat ∧
  ((0 < length (priorityQueue q))%nat ∨ orders q = []).

(** [getUrgencyLevel]. *)
Definition getUrgencyLevel (dpsScore : Q) : string :=
  if ge dpsScore 80 then "critical"
  else if ge dpsScore 60 then "high"
  else if ge dpsScore 40 then "medium"
  else if ge dpsScore 20 then "low"
  else "normal".

(** [getTimeToDispatch]. *)
Definition getTimeToDispatch (o : Order) (q : Queue) : string * Queue :=
  let '(now, t) := newDate (ticks q) in
  let q := set_ticks t q in
  match parseDate (get (expectedDispatch o)) with
  | None => ("Unknown"%string, q)
  | Some expectedDispatch =>
      let diffMs := (expectedDispatch - now)%Z in
      if (diffMs <=? 0)%Z then ("OVERDUE"%string, q)
      else
        let diffHours := (diffMs / (1000 * 60 * 60))%Z in
        let diffMinutes := ((diffMs mod (1000 * 60 * 60)) / (1000 * 60))%Z in
        if (diffHours <=? 0)%Z then (pretty diffMinutes +:+ "m", q)
        else if (diffHours <? 24)%Z then
          (pretty diffHours +:+ "h " +:+ pretty diffMinutes +:+ "m", q)
        else
          let diffDays := (diffHours / 24)%Z in
          let remainingHours := (diffHours mod 24)%Z in
          (pretty diffDays +:+ "d " +:+ pretty remainingHours +:+ "h", q)
  end.

(** [getDispatchCountdown]: milliseconds left, never negative. *)
Definition getDispatchCountdown (o : Order) (q : Queue) : Z * Queue :=
  let '(now, t) := newDate (ticks q) in
  let q := set_ticks t q in
  match parseDate (get (expectedDispatch o)) with
  | None => (0%Z, q)
  | Some expectedDispatch => (Z.max 0 (expectedDispatch - now), q)
  end.

(** An element of the result of [getTopPriorityOrders]. *)
Record TopOrder := {
  top_order : RankedOrder;
  priorityRank : nat;
  urgencyLevel : string;
  timeToDispatch : string;
  dispatchCountdown : Z
}.

(** [l.slice(0, count)]: a negative [count] counts from the end. *)
Definition slice0 {A} (count : Z) (l : list A) : list A :=
  let len := Z.of_nat (length l) in
  let final := if (count <? 0)%Z then Z.max (len + count) 0 else Z.min count len in
  take (Z.to_nat final) l.

(** The callback of the [map] in [getTopPriorityOrders], from position
    [i] on.  The entries of a ranking are distinct objects, so [indexOf]
    finds each one at its own position. *)
Fixpoint annotateFrom (i : nat) (l : list RankedOrder) (q : Queue)
  : list TopOrder * Queue :=
  match l with
  | [] => ([], q)
  | r :: l' =>
      let '(time, q) := getTimeToDispatch (order r) q in
      let '(countdown, q) := getDispatchCountdown (order r) q in
      let '(rest, q) := annotateFrom (S i) l' q in
      ({| top_order := r; priorityRank := i + 1;
          urgencyLevel := getUrgencyLevel (dpsScore (scored r));
          timeToDispatch := time; dispatchCountdown := countdown |} :: rest, q)
  end.

(** [getTopPriorityOrders]. *)
Definition getTopPriorityOrders (count : Z) (q : Queue)
  : list TopOrder * Queue :=
  match priorityQueue q with
  | [] => ([], q)
  | _ => annotateFrom 0 (slice0 count (priorityQueue q)) q
  end.

(** The result of [getQueueStats]; the two extreme scores are absent
    from the result for an empty queue. *)
Record QueueStats := {
  totalOrders : nat;
  avgDPSScore : Q;
  overdueCount : nat;
  urgencyDistribution : gmap string nat;
  topDPSScore : option Q;
  lowestDPSScore : option Q
}.

(** The reducer that counts the orders of each urgency level. *)
Definition countLevel (dist : gmap string nat) (r : RankedOrder)
  : gmap string nat :=
  let level := getUrgencyLevel (dpsScore (scored r)) in
  <[level := (default 0%nat (dist !! level) + 1)%nat]> dist.

(** [getQueueStats]. *)
Definition getQueueStats (q : Queue) : QueueStats :=
  match priorityQueue q with
  | [] =>
      {| totalOrders := 0; avgDPSScore := 0; overdueCount := 0;
         urgencyDistribution := ∅; topDPSScore := None;
         lowestDPSScore := None |}
  | first :: _ =>
      let totalOrders := length (priorityQueue q) in
      let avgDPSScore :=
        foldl (λ sum r, sum + dpsScore (scored r)) 0 (priorityQueue q)
        / inject_Z (Z.of_nat totalOrders) in
      {| totalOrders := totalOrders;
         avgDPSScore := Math_round (avgDPSScore * 100) / 100;
         overdueCount :=
           length (List.filter (λ r, isOverdueFlag (scored r)) (priorityQueue q));
         urgencyDistribution := foldl countLevel ∅ (priorityQueue q);
         topDPSScore := Some (dpsScore (scored first));
         lowestDPSScore :=
           (λ r, dpsScore (scored r)) <$> last (priorityQueue q) |}
  end.

(** The total of the counts in a distribution. *)
Definition distributionTotal (dist : gmap string nat) : nat :=
  map_fold (λ _ n acc, (n + acc)%nat) 0%nat dist.

End WithHost.

End DPS.

(** ** BatchOptimizer *)

Module Batch.

(** An order as the optimizer reads it.  [value] and [urgencyScore] are
    numbers; [deliveryEndDate] is the time value of
    [new Date(order.deliveryEndDate)], [None] for an invalid date. *)
Record Order := {
  orderNumber : string;
  customer : option string;
  product : option string;
  sku : option string;
  value : Q;
  urgencyScore : Q;
  county : option string;
  deliveryEndDate : option Z
}.

(** [this.config]. *)
Definition basePicking : Q := 3.5.
Definition batchSetup : Q := 1.2.
Definition itemPickingReduction : Q := 0.6.
Definition packingEfficiency : Q := 0.75.
Definition criticalUrgencyScore : Q := 85.
Definition riskUrgencyScore : Q := 60.
Definition maxBatchDelayHours : Q := 2.
Definition minTimeSavings : Q := 1.5.
Definition maxBatchSize : nat := 8.
Definition sameCountyBonus : Q := 0.3.
Definition adjacentCountyBonus : Q := 0.15.

(** [this.countyAdjacency]. *)
Definition countyAdjacency : list (string * list string) :=
  [("Greater London", ["Surrey"; "Kent"; "Essex"; "Hertfordshire"]);
   ("Surrey", ["Greater London"; "Kent"; "West Sussex"; "Hampshire"; "Berkshire"]);
   ("Kent", ["Greater London"; "Surrey"; "East Sussex"]);
   ("Essex", ["Greater London"; "Hertfordshire"; "Suffolk"; "Cambridgeshire"]);
   ("Birmingham", ["Warwickshire"; "Staffordshire"; "Worcestershire"]);
   ("Manchester", ["Lancashire"; "Cheshire"; "Derbyshire"]);
   ("Liverpool", ["Merseyside"; "Lancashire"; "Cheshire"]);
   ("Leeds", ["West Yorkshire"; "North Yorkshire"; "Lancashire"]);
   ("Sheffield", ["South Yorkshire"; "Derbyshire"; "Nottinghamshire"]);
   ("Bristol", ["Somerset"; "Gloucestershire"; "South Gloucestershire"]);
   ("Newcastle", ["Northumberland"; "Durham"; "Cumbria"]);
   ("Cardiff", ["Vale of Glamorgan"; "Rhondda Cynon Taf"; "Caerphilly"]);
   ("Edinburgh", ["Midlothian"; "East Lothian"; "West Lothian"]);
   ("Glasgow", ["East Dunbartonshire"; "North Lanarkshire"; "South Lanarkshire"]);
   ("Belfast", ["County Antrim"; "County Down"])]%string.

Record Efficiency := {
  baseTime : Q;
  batchTime : Q;
  timeSavings : Q;
  efficiencyGain : Q;
  costSavings : Q;
  riskScore : Q
}.

(** A candidate batch; the free-text [description] is not kept. *)
Record CandidateBatch := {
  type : string;
  orders : list Order;
  efficiency : Efficiency;
  priority : string
}.

(** The order fields copied into a recommendation. *)
Record OrderSummary := {
  summary_orderNumber : string;
  summary_customer : option string;
  summary_product : option string;
  summary_sku : option string;
  summary_value : Q;
  summary_urgencyScore : Q;
  summary_county : option string
}.

Record RoundedEfficiency := {
  timeSavingsMinutes : Q;
  efficiencyGainPercent : Q;
  costSavingsPounds : Q;
  roundedRiskScore : Q
}.

Record Feasibility := {
  feasibility_score : Q;
  overallRating : string
}.

(** A recommendation; the random [batchId] and the lists of suggested
    actions and warning texts are not kept. *)
Record Recommendation := {
  rank : nat;
  rec_type : string;
  rec_priority : string;
  rec_orders : list OrderSummary;
  rec_efficiency : RoundedEfficiency;
  feasibility : Feasibility
}.

(** What [findBatchOpportunities] resolves to; the timing and metadata
    fields are not kept. *)
Record Result := {
  success : bool;
  reason : option string;
  failed : bool;   (* the result built by [createErrorResult] *)
  targetOrder : option string;
  totalEligibleOrders : nat;
  batchOpportunities : list Recommendation
}.

(** A [BatchOptimizer] object: the result cache, its two counters and
    the clock readings taken.  The timer that drops a cache entry five
    minutes after it was stored is not represented. *)
Record Optimizer := {
  analysisCache : gmap string Result;
  cacheHits : nat;
  cacheMisses : nat;
  ticks : nat
}.

Definition newOptimizer : Optimizer :=
  {| analysisCache := ∅; cacheHits := 0; cacheMisses := 0; ticks := 0 |}.

Definition createEmptyResult (why : string) : Result :=
  {| success := false; reason := Some why; failed := false;
     targetOrder := None; totalEligibleOrders := 0; batchOpportunities := [] |}.

Definition createErrorResult : Result :=
  {| success := false; reason := None; failed := true;
     targetOrder := None; totalEligibleOrders := 0; batchOpportunities := [] |}.

(** [validateInputs]. *)
Definition validateInputs (target : Order) (availableOrders : list Order) : bool :=
  negb (String.eqb (orderNumber target) "") &&
  negb (bool_decide (availableOrders = [])).

(** [generateCacheKey]. *)
Definition generateCacheKey (target : Order) (availableOrders : list Order)
  : string :=
  let orderIds := sortStrings (orderNumber target :: map orderNumber availableOrders) in
  "batch_" +:+ String.substring 0 16 (btoa (String.concat "_" orderIds)).

(** [calculateBatchRiskScore]. *)
Definition calculateBatchRiskScore (batchOrders : list Order) : Q :=
  let urgencyRisk := Math_max_list (map urgencyScore batchOrders) / 100 in
  let sizeRisk := if bool_decide (5 < length batchOrders)%nat then 0.2 else 0 in
  let valueRisk := if existsb (λ o, gt (value o) 1000) batchOrders then 0.1 else 0 in
  Qmin (urgencyRisk + sizeRisk + valueRisk) 1.0.

Definition size_num (l : list Order) : Q := inject_Z (Z.of_nat (length l)).

(** [calculateSKUBatchEfficiency]. *)
Definition calculateSKUBatchEfficiency (batchOrders : list Order)
  (efficiencyMultiplier : Q) : Efficiency :=
  let baseTime := size_num batchOrders * basePicking in
  let batchSetupTime := batchSetup in
  let pickingReduction :=
    (size_num batchOrders - 1) * itemPickingReduction * efficiencyMultiplier in
  let packingEfficiency :=
    size_num batchOrders * packingEfficiency * efficiencyMultiplier in
  let batchTime := batchSetupTime + baseTime - pickingReduction - packingEfficiency in
  let timeSavings := baseTime - batchTime in
  let efficiencyGain := (timeSavings / baseTime) * 100 in
  {| baseTime := baseTime;
     batchTime := Qmax batchTime (baseTime * 0.3);
     timeSavings := Qmax timeSavings 0;
     efficiencyGain := Qmax efficiencyGain 0;
     costSavings := timeSavings * 0.5;
     riskScore := calculateBatchRiskScore batchOrders |}.

(** The shape shared by the other four efficiency functions. *)
Definition efficiencyOf (batchOrders : list Order) (baseTime batchTime : Q)
  : Efficiency :=
  let timeSavings := baseTime - batchTime in
  let efficiencyGain := (timeSavings / baseTime) * 100 in
  {| baseTime := baseTime;
     batchTime := batchTime;
     timeSavings := Qmax timeSavings 0;
     efficiencyGain := Qmax efficiencyGain 0;
     costSavings := timeSavings * 0.5;
     riskScore := calculateBatchRiskScore batchOrders |}.

(** [calculateGeographicBatchEfficiency]. *)
Definition calculateGeographicBatchEfficiency (batchOrders : list Order)
  (sameCounty : bool) : Efficiency :=
  let baseTime := size_num batchOrders * basePicking in
  let travelReduction := if sameCounty then sameCountyBonus else adjacentCountyBonus in
  efficiencyOf batchOrders baseTime (baseTime * (1 - travelReduction) + batchSetup).

(** [calculateUrgencyBatchEfficiency]. *)
Definition calculateUrgencyBatchEfficiency (batchOrders : list Order) : Efficiency :=
  let baseTime := size_num batchOrders * basePicking in
  let avgUrgency := sum (map urgencyScore batchOrders) / size_num batchOrders in
  let urgencyPenalty := avgUrgency / 100 * 0.2 in
  efficiencyOf batchOrders baseTime
    (baseTime * (1 - 0.15 + urgencyPenalty) + batchSetup).

(** [calculateValueBatchEfficiency]. *)
Definition calculateValueBatchEfficiency (batchOrders : list Order) : Efficiency :=
  let baseTime := size_num batchOrders * basePicking in
  let avgValue := sum (map value batchOrders) / size_num batchOrders in
  let premiumHandling := if gt avgValue 1000 then 0.5 else 0.2 in
  efficiencyOf batchOrders baseTime
    (baseTime * (1 - 0.1) + batchSetup + premiumHandling).

(** [calculateHybridBatchEfficiency]. *)
Definition calculateHybridBatchEfficiency (batchOrders : list Order)
  (factors : list string) : Efficiency :=
  let baseTime := size_num batchOrders * basePicking in
  let includes f := existsb (String.eqb f) factors in
  let efficiencyBonus :=
    (if includes "sku"%string then 0.25 else 0) +
    (if includes "geographic"%string then 0.15 else 0) +
    (if includes "urgency"%string then 0.10 else 0) +
    (if includes "value"%string then 0.05 else 0) in
  efficiencyOf batchOrders baseTime
    (baseTime * (1 - efficiencyBonus) + batchSetup).

(** [[targetOrder, ...matches].slice(0, maxBatchSize)]. *)
Definition batchOf (target : Order) (matches : list Order) : list Order :=
  take maxBatchSize (target :: matches).

(** The frame shared by the single-factor analyses: a non-empty group
    of matches gives a batch, kept when it saves enough time. *)
Definition proposeBatch (kind prio : string) (target : Order)
  (matches : list Order) (eff : list Order → Efficiency) (threshold : Q)
  : list CandidateBatch :=
  match matches with
  | [] => []
  | _ =>
      let batchOrders := batchOf target matches in
      let efficiency := eff batchOrders in
      if ge (timeSavings efficiency) threshold then
        [{| type := kind; orders := batchOrders; efficiency := efficiency;
            priority := prio |}]
      else []
  end.

(** [findSimilarSKUs]. *)
Definition findSimilarSKUs (targetSKU : string) (l : list Order) : list Order :=
  let n := Z.to_nat (Z.min (Z.of_nat (String.length targetSKU) - 2) 6) in
  let basePattern := String.substring 0 n targetSKU in
  List.filter
    (λ o, match sku o with
          | Some s => String.prefix basePattern s && negb (String.eqb s targetSKU)
          | None => false
          end) l.

(** [analyzeSKUBatches]; [None] when [targetOrder.sku] is not a string
    and the call of [substring] throws. *)
Definition analyzeSKUBatches (target : Order) (eligibleOrders : list Order)
  : option (list CandidateBatch) :=
  let exactMatches :=
    List.filter (λ o, bool_decide (sku o = sku target)) eligibleOrders in
  let exact :=
    proposeBatch "sku_exact" "high" target exactMatches
      (λ b, calculateSKUBatchEfficiency b 1.0) minTimeSavings in
  match sku target with
  | None => None
  | Some targetSKU =>
      let similarSKUs := findSimilarSKUs targetSKU eligibleOrders in
      Some (exact ++
            proposeBatch "sku_similar" "medium" target similarSKUs
              (λ b, calculateSKUBatchEfficiency b 0.7) minTimeSavings)
  end.

(** [this.countyAdjacency[targetCounty] || []]; [None] when the name is
    inherited from [Object.prototype] and [includes] is not a function. *)
Definition adjacentCountiesOf (targetCounty : option string)
  : option (list string) :=
  let name := default "undefined"%string targetCounty in
  match List.find (λ e, String.eqb e.1 name) countyAdjacency with
  | Some e => Some e.2
  | None =>
      if existsb (String.eqb name) objectPrototypeKeys then None else Some []
  end.

(** [analyzeGeographicBatches]. *)
Definition analyzeGeographicBatches (target : Order) (eligibleOrders : list Order)
  : option (list CandidateBatch) :=
  let sameCountyOrders :=
    List.filter (λ o, bool_decide (county o = county target)) eligibleOrders in
  let same :=
    proposeBatch "geographic_same" "medium" target sameCountyOrders
      (λ b, calculateGeographicBatchEfficiency b true) minTimeSavings in
  match adjacentCountiesOf (county target) with
  | None =>
      match eligibleOrders with [] => Some same | _ => None end
  | Some adjacentCounties =>
      let adjacentOrders :=
        List.filter
          (λ o, match county o with
                | Some c => existsb (String.eqb c) adjacentCounties
                | None => false
                end) eligibleOrders in
      Some (same ++
            proposeBatch "geographic_adjacent" "low" target adjacentOrders
              (λ b, calculateGeographicBatchEfficiency b false)
              (minTimeSavings * 0.8))
  end.

Definition Qabs_le (x bound : Q) : bool := le (Qabs x) bound.

(** [getUrgencyPriority]. *)
Definition getUrgencyPriority (urgency : Q) : string :=
  if ge urgency 70 then "high" else if ge urgency 40 then "medium" else "low".

(** [analyzeUrgencyBatches]. *)
Definition analyzeUrgencyBatches (target : Order) (eligibleOrders : list Order)
  : list CandidateBatch :=
  let targetUrgency := urgencyScore target in
  let urgencyTolerance := 15 in
  let similarUrgencyOrders :=
    List.filter
      (λ o, Qabs_le (urgencyScore o - targetUrgency) urgencyTolerance &&
            lt (urgencyScore o) riskUrgencyScore) eligibleOrders in
  proposeBatch "urgency_similar" (getUrgencyPriority targetUrgency) target
    similarUrgencyOrders calculateUrgencyBatchEfficiency minTimeSavings.

(** [analyzeValueBatches]. *)
Definition analyzeValueBatches (target : Order) (eligibleOrders : list Order)
  : list CandidateBatch :=
  if ge (value target) 500 then
    let highValueOrders :=
      List.filter
        (λ o, ge (value o) 500 && lt (urgencyScore o) riskUrgencyScore)
        eligibleOrders in
    proposeBatch "value_high" "high" target highValueOrders
      calculateValueBatchEfficiency minTimeSavings
  else [].

(** [findOrderIntersection]. *)
Definition findOrderIntersection (orders1 orders2 : list Order) : list Order :=
  List.filter
    (λ o, existsb (String.eqb (orderNumber o)) (map orderNumber orders1))
    orders2.

(** [createHybridBatches]: every SKU batch against every geographic
    batch. *)
Definition createHybridBatches (skuBatches geoBatches : list CandidateBatch)
  : list CandidateBatch :=
  flat_map
    (λ skuBatch,
       flat_map
         (λ geoBatch,
            let intersectionOrders :=
              findOrderIntersection (orders skuBatch) (orders geoBatch) in
            if bool_decide (3 ≤ length intersectionOrders)%nat then
              let efficiency :=
                calculateHybridBatchEfficiency intersectionOrders
                  ["sku"; "geographic"]%string in
              if ge (timeSavings efficiency) (minTimeSavings * 1.2) then
                [{| type := "hybrid_sku_geo"; orders := intersectionOrders;
                    efficiency := efficiency; priority := "high" |}]
              else []
            else [])
         geoBatches)
    skuBatches.

(** The comparator of [rankBatchesByEfficiency]. *)
Definition compareBatches (a b : CandidateBatch) : Q :=
  let efficiencyDiff :=
    efficiencyGain (efficiency b) - efficiencyGain (efficiency a) in
  if gt (Qabs efficiencyDiff) 5 then efficiencyDiff
  else
    let timeDiff := timeSavings (efficiency b) - timeSavings (efficiency a) in
    if gt (Qabs timeDiff) 1 then timeDiff
    else riskScore (efficiency a) - riskScore (efficiency b).

(** [rankBatchesByEfficiency].  The comparator treats near values as
    ties and is not transitive, so the order among the batches kept is
    the one of the sort taken as model; which batches are kept does not
    depend on it. *)
Definition rankBatchesByEfficiency (allBatches : list CandidateBatch)
  : list CandidateBatch :=
  take 10
    (Array_sort compareBatches
       (List.filter (λ b, ge (timeSavings (efficiency b)) minTimeSavings)
                    allBatches)).

(** [performComprehensiveBatchAnalysis], down to [rankedBatches]. *)
Definition performComprehensiveBatchAnalysis (target : Order)
  (eligibleOrders : list Order) : option (list CandidateBatch) :=
  match analyzeSKUBatches target eligibleOrders with
  | None => None
  | Some skuBatches =>
      match analyzeGeographicBatches target eligibleOrders with
      | None => None
      | Some geographicBatches =>
          let urgencyBatches := analyzeUrgencyBatches target eligibleOrders in
          let valueBatches := analyzeValueBatches target eligibleOrders in
          let hybridBatches := createHybridBatches skuBatches geographicBatches in
          Some (rankBatchesByEfficiency
                  (skuBatches ++ geographicBatches ++ urgencyBatches ++
                   valueBatches ++ hybridBatches))
      end
  end.

Definition summary (o : Order) : OrderSummary :=
  {| summary_orderNumber := orderNumber o; summary_customer := customer o;
     summary_product := product o; summary_sku := sku o;
     summary_value := value o; summary_urgencyScore := urgencyScore o;
     summary_county := county o |}.

(** The distinct counties of a batch, as [new Set(...)] counts them. *)
Definition uniqueCounties (l : list Order) : nat :=
  size (list_to_set (map county l) : gset (option string)).

(** [assessBatchFeasibility]. *)
Definition assessBatchFeasibility (batch : CandidateBatch) : Feasibility :=
  let maxUrgency := Math_max_list (map urgencyScore (orders batch)) in
  let score := 100 in
  let score := if gt maxUrgency riskUrgencyScore then score - 30 else score in
  let score := if bool_decide (6 < length (orders batch))%nat then score - 15 else score in
  let score := if bool_decide (3 < uniqueCounties (orders batch))%nat then score - 20 else score in
  {| feasibility_score := score;
     overallRating :=
       if ge score 80 then "excellent"
       else if ge score 60 then "good"
       else if ge score 40 then "fair"
       else "poor" |}.

Definition recommend (index : nat) (batch : CandidateBatch) : Recommendation :=
  {| rank := index + 1;
     rec_type := type batch;
     rec_priority := priority batch;
     rec_orders := map summary (orders batch);
     rec_efficiency :=
       {| timeSavingsMinutes :=
            Math_round (timeSavings (efficiency batch) * 10) / 10;
          efficiencyGainPercent :=
            Math_round (efficiencyGain (efficiency batch) * 10) / 10;
          costSavingsPounds :=
            Math_round (costSavings (efficiency batch) * 100) / 100;
          roundedRiskScore :=
            Math_round (riskScore (efficiency batch) * 100) / 100 |};
     feasibility := assessBatchFeasibility batch |}.

(** [generateBatchRecommendations]. *)
Definition generateBatchRecommendations (rankedBatches : list CandidateBatch)
  : list Recommendation :=
  imap recommend rankedBatches.

Section WithHost.
Context `{Host}.

(** [calculateDeliveryDelay]: minutes past the delivery date, [None]
    for [NaN]. *)
Definition calculateDeliveryDelay (o : Order) (t : nat) : option Q * nat :=
  let '(now, t) := newDate t in
  match deliveryEndDate o with
  | None => (None, t)
  | Some deliveryDate =>
      (Some (Qmax 0 (inject_Z (now - deliveryDate) / (1000 * 60))), t)
  end.

(** The callback of the filter in [filterEligibleOrders]. *)
Definition eligible (target o : Order) (t : nat) : bool * nat :=
  if String.eqb (orderNumber o) (orderNumber target) then (false, t)
  else if gt (urgencyScore o) criticalUrgencyScore then (false, t)
  else
    let '(deliveryDelay, t) := calculateDeliveryDelay o t in
    if match deliveryDelay with
       | Some d => gt d (maxBatchDelayHours * 60)
       | None => false
       end
    then (false, t)
    else if negb (truthy (product o)) || negb (truthy (sku o)) then (false, t)
    else (true, t).

Fixpoint filterFrom (target : Order) (l : list Order) (t : nat)
  : list Order * nat :=
  match l with
  | [] => ([], t)
  | o :: l' =>
      let '(keep, t) := eligible target o t in
      let '(rest, t) := filterFrom target l' t in
      (if keep then o :: rest else rest, t)
  end.

(** [filterEligibleOrders]. *)
Definition filterEligibleOrders (target : Order) (availableOrders : list Order)
  (t : nat) : list Order * nat :=
  let '(_, t) := newDate t in
  filterFrom target availableOrders t.

(** [findBatchOpportunities].  An exception anywhere in the body ends
    in [createErrorResult]. *)
Definition findBatchOpportunities (target : Order) (availableOrders : list Order)
  (opt : Optimizer) : Result * Optimizer :=
  if negb (validateInputs target availableOrders) then
    (createEmptyResult "Invalid input parameters", opt)
  else
    let cacheKey := generateCacheKey target availableOrders in
    match analysisCache opt !! cacheKey with
    | Some cached =>
        (cached,
         {| analysisCache := analysisCache opt; cacheHits := S (cacheHits opt);
            cacheMisses := cacheMisses opt; ticks := ticks opt |})
    | None =>
        let '(eligibleOrders, t) :=
          filterEligibleOrders target availableOrders (ticks opt) in
        let opt :=
          {| analysisCache := analysisCache opt; cacheHits := cacheHits opt;
             cacheMisses := S (cacheMisses opt); ticks := t |} in
        match eligibleOrders with
        | [] => (createEmptyResult "No eligible orders found for batching", opt)
        | _ =>
            match performComprehensiveBatchAnalysis target eligibleOrders with
            | None => (createErrorResult, opt)
            | Some rankedBatches =>
                let result :=
                  {| success := true; reason := None; failed := false;
                     targetOrder := Some (orderNumber target);
                     totalEligibleOrders := length eligibleOrders;
                     batchOpportunities :=
                       generateBatchRecommendations rankedBatches |} in
                (result,
                 {| analysisCache := <[cacheKey := result]> (analysisCache opt);
                    cacheHits := cacheHits opt; cacheMisses := cacheMisses opt;
                    ticks := ticks opt |})
            end
        end
    end.

End WithHost.

(** [validateBatchForExecution], the check [executeBatch] starts with:
    [None] when the batch is valid, the reason otherwise. *)
Definition validateBatchForExecution (batchOrders : list Order) : option string :=
  if bool_decide (length batchOrders < 2)%nat then
    Some "Batch must contain at least 2 orders"%string
  else if bool_decide (maxBatchSize < length batchOrders)%nat then
    Some "Batch size exceeds maximum of 8"%string
  else if existsb (λ o, gt (urgencyScore o) criticalUrgencyScore) batchOrders then
    Some "Batch contains critical urgency orders"%string
  else None.

(** What the specification asks of a recommendation made for a target:
    the target and at least one other order, no more than
    [maxBatchSize] orders, none above the critical urgency. *)
Definition wellFormedFor (target : Order) (r : Recommendation) : Prop :=
  (∃ o, o ∈ rec_orders r ∧ summary_orderNumber o = orderNumber target) ∧
  (∃ o, o ∈ rec_orders r ∧ summary_orderNumber o ≠ orderNumber target) ∧
  (length (rec_orders r) ≤ maxBatchSize)%nat ∧
  (∀ o, o ∈ rec_orders r → summary_urgencyScore o <= criticalUrgencyScore).

(** What the eligibility filter establishes of a candidate: it is not
    the target and does not exceed the critical urgency. *)
Definition admissible (target o : Order) : Prop :=
  orderNumber o ≠ orderNumber target ∧ urgencyScore o <= criticalUrgencyScore.

(** The shape of every batch the analyses build: the target first, then
    at least one admissible candidate, at most [maxBatchSize] orders in
    all. *)
Definition builtAround (target : Order) (l : list Order) : Prop :=
  ∃ rest, l = target :: rest ∧ rest ≠ [] ∧
          (length l ≤ maxBatchSize)%nat ∧ Forall (admissible target) rest.

(** What the code ensures of a recommendation it computes for a target:
    as [wellFormedFor], except that the urgency bound covers the orders
    other than the target. *)
Definition guaranteedFor (target : Order) (r : Recommendation) : Prop :=
  (∃ o, o ∈ rec_orders r ∧ summary_orderNumber o = orderNumber target) ∧
  (∃ o, o ∈ rec_orders r ∧ summary_orderNumber o ≠ orderNumber target) ∧
  (length (rec_orders r) ≤ maxBatchSize)%nat ∧
  (∀ o, o ∈ rec_orders r → summary_orderNumber o ≠ orderNumber target →
        summary_urgencyScore o <= criticalUrgencyScore).

(** [this.performanceMetrics], the part [executeBatch] writes. *)
Record Performance := {
  batchesCreated : nat;
  totalTimeSaved : Q;
  efficiencyGains : list Q
}.

(** The [batchExecution] object; the random [batchId], the constant
    fields and [estimatedCompletion] are not kept. *)
Record BatchExecution := {
  exec_orders : list string;
  exec_totalOrders : nat;
  exec_startTime : Z;
  exec_efficiency : Efficiency
}.

(** What [executeBatch] resolves to: the execution started, or the
    message of the error caught. *)
Inductive ExecutionResult :=
| Executed (execution : BatchExecution)
| Refused (error : string).

Section Execution.
Context `{Host}.

(** [executeBatch]. *)
Definition executeBatch (batchOrders : list Order) (perf : Performance)
  (t : nat) : ExecutionResult * Performance * nat :=
  let '(startTime, t) := newDate t in
  match validateBatchForExecution batchOrders with
  | Some reason => (Refused ("Batch validation failed: " +:+ reason), perf, t)
  | None =>
      let efficiency := calculateSKUBatchEfficiency batchOrders 1.0 in
      (Executed {| exec_orders := map orderNumber batchOrders;
                   exec_totalOrders := length batchOrders;
                   exec_startTime := startTime;
                   exec_efficiency := efficiency |},
       {| batchesCreated := S (batchesCreated perf);
          totalTimeSaved := totalTimeSaved perf + timeSavings efficiency;
          efficiencyGains :=
            efficiencyGains perf ++ [efficiencyGain efficiency] |},
       t)
  end.

End Execution.
Section Reach.
Context `{Host}.

(** The states an optimizer can be in: the constructor, followed by
    requests and by runs of the timers that drop a cached result. *)
Inductive reachable : Optimizer → Prop :=
| reach_new : reachable newOptimizer
| reach_find target pool opt :
    reachable opt → reachable (findBatchOpportunities target pool opt).2
| reach_expire key opt :
    reachable opt →
    reachable {| analysisCache := delete key (analysisCache opt);
                 cacheHits := cacheHits opt; cacheMisses := cacheMisses opt;
                 ticks := ticks opt |}.

End Reach.

(** The shape of an answer: at most ten recommendations, ranked from 1
    in the order of the list, each of two to [maxBatchSize] orders and
    with a saving, as displayed, of at least [minTimeSavings]. *)
Definition wellShaped (r : Result) : Prop :=
  (length (batchOpportunities r) ≤ 10)%nat ∧
  ∀ k rec, batchOpportunities r !! k = Some rec →
    rank rec = (k + 1)%nat ∧
    (2 ≤ length (rec_orders rec))%nat ∧
    (length (rec_orders rec) ≤ maxBatchSize)%nat ∧
    minTimeSavings <= timeSavingsMinutes (rec_efficiency rec).

(** The string [generateCacheKey] encodes: the order numbers of target
    and pool, sorted and joined with underscores. *)
Definition joinedOrderNumbers (target : Order) (availableOrders : list Order)
  : string :=
  String.concat "_"
    (sortStrings (orderNumber target :: map orderNumber availableOrders)).

(** A batch of at most two orders saves less than the minimum. *)
Definition pairSavesLittle (b : CandidateBatch) : Prop :=
  (length (orders b) ≤ 2)%nat → timeSavings (efficiency b) < minTimeSavings.

Definition nonNegativeUrgency (o : Order) : Prop := 0 <= urgencyScore o.

End Batch.

(** ** PackWorkflow *)

Module Pack.

(** [PackStates]. *)
Inductive PackState := PENDING | PICKING | PACKING | PACKED | DISPATCHED.

#[global] Instance PackState_eq_dec : EqDecision PackState.
Proof. solve_decision. Defined.

(** The string each state is in the source. *)
Definition stateName (s : PackState) : string :=
  match s with
  | PENDING => "pending"
  | PICKING => "picking"
  | PACKING => "packing"
  | PACKED => "packed"
  | DISPATCHED => "dispatched"
  end.

Definition allStates : list PackState :=
  [PENDING; PICKING; PACKING; PACKED; DISPATCHED].

(** The state a status string names, if any. *)
Definition stateOfName (n : string) : option PackState :=
  List.find (λ s, String.eqb (stateName s) n) allStates.

(** [PackPriority]. *)
Inductive PackPriority := CRITICAL | HIGH | MEDIUM | LOW.

(** The result of a call that can throw: the value returned, or the
    message of the [Error] thrown. *)
Inductive Outcome (A : Type) :=
| Returned (a : A)
| Thrown (message : string).
Arguments Returned {A} a.
Arguments Thrown {A} message.

(** A time value as a session holds it: a [Date] object or, once the
    session has been through [JSON.stringify] and [JSON.parse], the ISO
    string of the instant. *)
Inductive Stamp := DateStamp (t : Z) | IsoString (t : Z).

(** A number as the metrics hold it: a finite number, [Infinity] (the
    initial [bestTime]), [NaN], or [null], which is what [JSON.parse]
    gives back where [NaN] or [Infinity] was saved. *)
Inductive Num := Finite (x : Q) | Infinity | NotANumber | NullNum.

(** [ToNumber] on such a value: [null] converts to 0. *)
Definition toNumber (a : Num) : Num :=
  match a with
  | NullNum => Finite 0
  | _ => a
  end.

(** [a + b]. *)
Definition num_add (a b : Num) : Num :=
  match toNumber a, toNumber b with
  | NotANumber, _ | _, NotANumber => NotANumber
  | Finite x, Finite y => Finite (x + y)
  | _, _ => Infinity
  end.

(** [Math.min(a, b)] and [Math.max(a, b)]. *)
Definition Math_min (a b : Num) : Num :=
  match toNumber a, toNumber b with
  | NotANumber, _ | _, NotANumber => NotANumber
  | Finite x, Finite y => Finite (Qmin x y)
  | Finite x, _ => Finite x
  | _, Finite y => Finite y
  | _, _ => Infinity
  end.

Definition Math_max (a b : Num) : Num :=
  match toNumber a, toNumber b with
  | NotANumber, _ | _, NotANumber => NotANumber
  | Finite x, Finite y => Finite (Qmax x y)
  | _, _ => Infinity
  end.

(** [ToNumber] on a time value in a subtraction: the time value of a
    [Date], 0 for [null], [NaN] ([None]) for a string. *)
Definition stamp_num (s : option Stamp) : option Z :=
  match s with
  | None => Some 0%Z
  | Some (DateStamp t) => Some t
  | Some (IsoString _) => None
  end.

(** An element of [window.ordersData], with the fields the workflow
    reads: [order_expectedDispatch] is the time value of
    [new Date(order.expectedDispatch)] ([None] for an invalid date) and
    [order_quantity] the number [order.quantity] converts to ([None] for
    [NaN]). *)
Record PackOrder := {
  order_orderNumber : string;
  order_status : string;
  order_lastUpdated : option Z;
  order_expectedDispatch : option Z;
  order_quantity : option Q;
  order_category : string
}.

Record Timestamps := {
  started : option Stamp;
  pending : option Stamp;
  picking : option Stamp;
  packing : option Stamp;
  packed : option Stamp;
  dispatched : option Stamp
}.

Record Note := {
  note_timestamp : Stamp;
  note : string;
  worker : string
}.

(** A pack session.  [estimatedDuration] is [None] when the estimate is
    not a number; [actualDuration] is [None] for [null]. *)
Record PackSession := {
  orderNumber : string;
  workerName : string;
  status : PackState;
  startTime : Stamp;
  timestamps : Timestamps;
  priority : PackPriority;
  estimatedDuration : option Q;
  actualDuration : option Num;
  notes : list Note;
  completed : option Stamp
}.

Record PackedOrder := {
  packed_orderNumber : string;
  packed_duration : Num;
  packed_timestamp : Stamp
}.

(** A worker's accumulator; [currentShift] is kept as the instant whose
    date string the source stores. *)
Record WorkerMetric := {
  totalPackTime : Num;
  packCount : nat;
  averagePackTime : Num;
  bestTime : Num;
  worstTime : Num;
  currentShift : Z;
  packedOrders : list PackedOrder
}.

(** The module-level [WorkerMetrics] object. *)
Record GlobalMetrics := {
  global_totalPackTime : Num;
  global_packCount : nat;
  global_averagePackTime : Num
}.

(** The item ["packWorkflowState"] of localStorage: sessions, history
    and worker metrics as [JSON.parse] reads them back. *)
Record Snapshot := {
  snap_packSessions : gmap string PackSession;
  snap_packHistory : list PackSession;
  snap_workerMetrics : gmap string WorkerMetric
}.

(** A [PackWorkflow] object together with the globals it works on:
    the module-level metrics, [window.ordersData] and the localStorage
    item.  Readings of the clock taken only for logging, notifications
    or the time stamp of the snapshot are not counted in [ticks]. *)
Record Workflow := {
  packSessions : gmap string PackSession;
  packHistory : list PackSession;
  workerMetrics : gmap string WorkerMetric;
  globalMetrics : GlobalMetrics;
  ordersData : option (list PackOrder);
  storage : option Snapshot;
  ticks : nat
}.

Definition set_packSessions (m : gmap string PackSession) (w : Workflow) : Workflow :=
  {| packSessions := m; packHistory := packHistory w;
     workerMetrics := workerMetrics w; globalMetrics := globalMetrics w;
     ordersData := ordersData w; storage := storage w; ticks := ticks w |}.

Definition set_packHistory (h : list PackSession) (w : Workflow) : Workflow :=
  {| packSessions := packSessions w; packHistory := h;
     workerMetrics := workerMetrics w; globalMetrics := globalMetrics w;
     ordersData := ordersData w; storage := storage w; ticks := ticks w |}.

Definition set_workerMetrics (m : gmap string WorkerMetric) (w : Workflow) : Workflow :=
  {| packSessions := packSessions w; packHistory := packHistory w;
     workerMetrics := m; globalMetrics := globalMetrics w;
     ordersData := ordersData w; storage := storage w; ticks := ticks w |}.

Definition set_globalMetrics (g : GlobalMetrics) (w : Workflow) : Workflow :=
  {| packSessions := packSessions w; packHistory := packHistory w;
     workerMetrics := workerMetrics w; globalMetrics := g;
     ordersData := ordersData w; storage := storage w; ticks := ticks w |}.

Definition set_ordersData (d : option (list PackOrder)) (w : Workflow) : Workflow :=
  {| packSessions := packSessions w; packHistory := packHistory w;
     workerMetrics := workerMetrics w; globalMetrics := globalMetrics w;
     ordersData := d; storage := storage w; ticks := ticks w |}.

Definition set_ticks (n : nat) (w : Workflow) : Workflow :=
  {| packSessions := packSessions w; packHistory := packHistory w;
     workerMetrics := workerMetrics w; globalMetrics := globalMetrics w;
     ordersData := ordersData w; storage := storage w; ticks := n |}.

Definition set_storage (st : option Snapshot) (w : Workflow) : Workflow :=
  {| packSessions := packSessions w; packHistory := packHistory w;
     workerMetrics := workerMetrics w; globalMetrics := globalMetrics w;
     ordersData := ordersData w; storage := st; ticks := ticks w |}.

Definition set_status (s : PackState) (p : PackSession) : PackSession :=
  {| orderNumber := orderNumber p; workerName := workerName p; status := s;
     startTime := startTime p; timestamps := timestamps p;
     priority := priority p; estimatedDuration := estimatedDuration p;
     actualDuration := actualDuration p; notes := notes p;
     completed := completed p |}.

Definition set_timestamps (t : Timestamps) (p : PackSession) : PackSession :=
  {| orderNumber := orderNumber p; workerName := workerName p;
     status := status p; startTime := startTime p; timestamps := t;
     priority := priority p; estimatedDuration := estimatedDuration p;
     actualDuration := actualDuration p; notes := notes p;
     completed := completed p |}.

Definition set_notes (n : list Note) (p : PackSession) : PackSession :=
  {| orderNumber := orderNumber p; workerName := workerName p;
     status := status p; startTime := startTime p;
     timestamps := timestamps p; priority := priority p;
     estimatedDuration := estimatedDuration p;
     actualDuration := actualDuration p; notes := n;
     completed := completed p |}.

Definition set_actualDuration (d : option Num) (p : PackSession) : PackSession :=
  {| orderNumber := orderNumber p; workerName := workerName p;
     status := status p; startTime := startTime p;
     timestamps := timestamps p; priority := priority p;
     estimatedDuration := estimatedDuration p;
     actualDuration := d; notes := notes p; completed := completed p |}.

Definition set_completed (c : option Stamp) (p : PackSession) : PackSession :=
  {| orderNumber := orderNumber p; workerName := workerName p;
     status := status p; startTime := startTime p;
     timestamps := timestamps p; priority := priority p;
     estimatedDuration := estimatedDuration p;
     actualDuration := actualDuration p; notes := notes p; completed := c |}.

(** [session.timestamps[newStatus] = now]. *)
Definition stamp (s : PackState) (now : Stamp) (t : Timestamps) : Timestamps :=
  match s with
  | PENDING =>
      {| started := started t; pending := Some now; picking := picking t;
         packing := packing t; packed := packed t; dispatched := dispatched t |}
  | PICKING =>
      {| started := started t; pending := pending t; picking := Some now;
         packing := packing t; packed := packed t; dispatched := dispatched t |}
  | PACKING =>
      {| started := started t; pending := pending t; picking := picking t;
         packing := Some now; packed := packed t; dispatched := dispatched t |}
  | PACKED =>
      {| started := started t; pending := pending t; picking := picking t;
         packing := packing t; packed := Some now; dispatched := dispatched t |}
  | DISPATCHED =>
      {| started := started t; pending := pending t; picking := picking t;
         packing := packing t; packed := packed t; dispatched := Some now |}
  end.

(** The table inside [isValidStateTransition]. *)
Definition validTransitions (s : PackState) : list PackState :=
  match s with
  | PENDING => [PICKING]
  | PICKING => [PACKING; PENDING]
  | PACKING => [PACKED; PICKING]
  | PACKED => [DISPATCHED]
  | DISPATCHED => []
  end.

(** [isValidStateTransition]: the requested status, any string, is
    looked up among the entries for the current state. *)
Definition isValidStateTransition (currentState : PackState) (newState : string)
  : bool :=
  existsb (λ s, String.eqb (stateName s) newState) (validTransitions currentState).

(** [calculatePackDuration]: whole minutes from picking to packed;
    [NaN] when one of the two is a string. *)
Definition calculatePackDuration (session : PackSession) : Num :=
  match stamp_num (picking (timestamps session)),
        stamp_num (packed (timestamps session)) with
  | Some startTime, Some endTime =>
      Finite (Math_round (inject_Z (endTime - startTime) / (1000 * 60)))
  | _, _ => NotANumber
  end.

(** [categoryMultipliers[order.category] || 1.0]; a name inherited from
    [Object.prototype] yields a function, hence [NaN] in the product. *)
Definition categoryMultiplier (category : string) : option Q :=
  if String.eqb category "electronics" then Some 1.5
  else if String.eqb category "fragile" then Some 2.0
  else if String.eqb category "heavy" then Some 1.3
  else if String.eqb category "standard" then Some 1.0
  else if existsb (String.eqb category) objectPrototypeKeys then None
  else Some 1.0.

(** [estimatePackTime]. *)
Definition estimatePackTime (o : PackOrder) : option Q :=
  match order_quantity o, categoryMultiplier (order_category o) with
  | Some quantity, Some multiplier =>
      let baseTime := 5 + Qmax 0 ((quantity - 1) * 2) in
      Some (Math_ceil (baseTime * multiplier))
  | _, _ => None
  end.

Definition initialMetric (shift : Z) : WorkerMetric :=
  {| totalPackTime := Finite 0; packCount := 0; averagePackTime := Finite 0;
     bestTime := Infinity; worstTime := Finite 0; currentShift := shift;
     packedOrders := [] |}.

Definition count_num (n : nat) : Q := inject_Z (Z.of_nat n).

(** [total / count] for a count that is at least 1. *)
Definition average (total : Num) (count : nat) : Num :=
  match toNumber total with
  | Finite x => Finite (x / count_num count)
  | other => other
  end.

(** What a value is after [JSON.stringify] and [JSON.parse]: a [Date]
    comes back as its ISO string, a number that is not finite as
    [null]. *)
Definition json_stamp (s : Stamp) : Stamp :=
  match s with
  | DateStamp t | IsoString t => IsoString t
  end.

Definition json_num (a : Num) : Num :=
  match a with
  | Finite x => Finite x
  | _ => NullNum
  end.

Definition json_timestamps (t : Timestamps) : Timestamps :=
  {| started := json_stamp <$> started t; pending := json_stamp <$> pending t;
     picking := json_stamp <$> picking t; packing := json_stamp <$> packing t;
     packed := json_stamp <$> packed t;
     dispatched := json_stamp <$> dispatched t |}.

Definition json_note (x : Note) : Note :=
  {| note_timestamp := json_stamp (note_timestamp x); note := note x;
     worker := worker x |}.

Definition json_session (p : PackSession) : PackSession :=
  {| orderNumber := orderNumber p; workerName := workerName p;
     status := status p; startTime := json_stamp (startTime p);
     timestamps := json_timestamps (timestamps p); priority := priority p;
     estimatedDuration := estimatedDuration p;
     actualDuration :=
       match actualDuration p with
       | Some (Finite x) => Some (Finite x)
       | _ => None
       end;
     notes := map json_note (notes p);
     completed := json_stamp <$> completed p |}.

Definition json_packedOrder (x : PackedOrder) : PackedOrder :=
  {| packed_orderNumber := packed_orderNumber x;
     packed_duration := json_num (packed_duration x);
     packed_timestamp := json_stamp (packed_timestamp x) |}.

Definition json_metric (m : WorkerMetric) : WorkerMetric :=
  {| totalPackTime := json_num (totalPackTime m); packCount := packCount m;
     averagePackTime := json_num (averagePackTime m);
     bestTime := json_num (bestTime m); worstTime := json_num (worstTime m);
     currentShift := currentShift m;
     packedOrders := map json_packedOrder (packedOrders m) |}.

(** [savePackWorkflowState]: all sessions and metrics and the last 100
    entries of the history go to localStorage as JSON. *)
Definition snapshot (w : Workflow) : Snapshot :=
  {| snap_packSessions := json_session <$> packSessions w;
     snap_packHistory :=
       map json_session
           (drop (length (packHistory w) - 100) (packHistory w));
     snap_workerMetrics := json_metric <$> workerMetrics w |}.

Definition savePackWorkflowState (w : Workflow) : Workflow :=
  set_storage (Some (snapshot w)) w.

(** [restorePackWorkflowState]: when localStorage holds a saved state,
    sessions, history and worker metrics are replaced by it. *)
Definition restorePackWorkflowState (w : Workflow) : Workflow :=
  match storage w with
  | None => w
  | Some state =>
      set_workerMetrics (snap_workerMetrics state)
        (set_packHistory (snap_packHistory state)
           (set_packSessions (snap_packSessions state) w))
  end.

Section WithHost.
Context `{Host}.

(** [calculatePackPriority]. *)
Definition calculatePackPriority (o : PackOrder) (w : Workflow)
  : PackPriority * Workflow :=
  let '(now, t) := newDate (ticks w) in
  let w := set_ticks t w in
  match order_expectedDispatch o with
  | None => (LOW, w)
  | Some dispatchDate =>
      let daysUntilDispatch :=
        Math_ceil (inject_Z (dispatchDate - now) / (1000 * 60 * 60 * 24)) in
      if le daysUntilDispatch 0 then (CRITICAL, w)
      else if Qeq_bool daysUntilDispatch 1 then (HIGH, w)
      else if le daysUntilDispatch 3 then (MEDIUM, w)
      else (LOW, w)
  end.

(** [findOrderByNumber]. *)
Definition findOrderByNumber (n : string) (w : Workflow) : option PackOrder :=
  match ordersData w with
  | Some l => List.find (λ o, String.eqb (order_orderNumber o) n) l
  | None => None
  end.

Fixpoint setFirstStatus (n status : string) (now : Z) (l : list PackOrder)
  : list PackOrder :=
  match l with
  | [] => []
  | o :: l' =>
      if String.eqb (order_orderNumber o) n then
        {| order_orderNumber := order_orderNumber o; order_status := status;
           order_lastUpdated := Some now;
           order_expectedDispatch := order_expectedDispatch o;
           order_quantity := order_quantity o;
           order_category := order_category o |} :: l'
      else o :: setFirstStatus n status now l'
  end.

(** [updateOrderStatus]: the first order with that number, if there is
    one, gets the status and the instant of the update. *)
Definition updateOrderStatus (n status : string) (w : Workflow) : Workflow :=
  match ordersData w with
  | None => w
  | Some l =>
      match List.find (λ o, String.eqb (order_orderNumber o) n) l with
      | None => w
      | Some _ =>
          let '(now, t) := newDate (ticks w) in
          set_ordersData (Some (setFirstStatus n status now l)) (set_ticks t w)
      end
  end.

(** [recordPackingMetrics]. *)
Definition recordPackingMetrics (n : string) (duration : Num) (name : string)
  (w : Workflow) : Workflow :=
  let '(metrics, w) :=
    match workerMetrics w !! name with
    | Some m => (m, w)
    | None =>
        let '(now, t) := newDate (ticks w) in
        (initialMetric now, set_ticks t w)
    end in
  let total := num_add (totalPackTime metrics) duration in
  let count := S (packCount metrics) in
  let '(now, t) := newDate (ticks w) in
  let metrics :=
    {| totalPackTime := total;
       packCount := count;
       averagePackTime := average total count;
       bestTime := Math_min (bestTime metrics) duration;
       worstTime := Math_max (worstTime metrics) duration;
       currentShift := currentShift metrics;
       packedOrders :=
         packedOrders metrics ++
         [{| packed_orderNumber := n; packed_duration := duration;
             packed_timestamp := DateStamp now |}] |} in
  let g := globalMetrics w in
  let gtotal := num_add (global_totalPackTime g) duration in
  let gcount := S (global_packCount g) in
  set_globalMetrics
    {| global_totalPackTime := gtotal; global_packCount := gcount;
       global_averagePackTime := average gtotal gcount |}
    (set_workerMetrics (<[name := metrics]> (workerMetrics w)) (set_ticks t w)).

(** [completePackWorkflow]. *)
Definition completePackWorkflow (n : string) (w : Workflow) : Workflow :=
  match packSessions w !! n with
  | None => w
  | Some session =>
      let '(now, t) := newDate (ticks w) in
      let session :=
        set_status DISPATCHED (set_completed (Some (DateStamp now)) session) in
      let w := set_ticks t w in
      let w := set_packHistory (packHistory w ++ [session]) w in
      let w := set_packSessions (delete n (packSessions w)) w in
      savePackWorkflowState (updateOrderStatus n "dispatched" w)
  end.

(** [startPackWorkflow]. *)
Definition startPackWorkflow (n : string) (name : string) (w : Workflow)
  : Outcome PackSession * Workflow :=
  match findOrderByNumber n w with
  | None => (Thrown ("Order " +:+ n +:+ " not found"), w)
  | Some o =>
      match packSessions w !! n with
      | Some _ => (Thrown ("Order " +:+ n +:+ " already in pack workflow"), w)
      | None =>
          let '(t1, k) := newDate (ticks w) in
          let '(t2, k) := newDate k in
          let '(t3, k) := newDate k in
          let '(prio, w) := calculatePackPriority o (set_ticks k w) in
          let session :=
            {| orderNumber := n; workerName := name; status := PICKING;
               startTime := DateStamp t1;
               timestamps :=
                 {| started := Some (DateStamp t2); pending := None;
                    picking := Some (DateStamp t3);
                    packing := None; packed := None; dispatched := None |};
               priority := prio; estimatedDuration := estimatePackTime o;
               actualDuration := None; notes := []; completed := None |} in
          let w := set_packSessions (<[n := session]> (packSessions w)) w in
          let w := updateOrderStatus n "picking" w in
          (Returned session, savePackWorkflowState w)
      end
  end.

(** [updatePackStatus].  The session object lives in [packSessions] and
    is mutated in place; the map is rewritten after each mutation. *)
Definition updatePackStatus (n : string) (newStatus : string) (text : string)
  (w : Workflow) : Outcome PackSession * Workflow :=
  match packSessions w !! n with
  | None => (Thrown ("No active pack session for order " +:+ n), w)
  | Some session =>
      if negb (isValidStateTransition (status session) newStatus) then
        (Thrown ("Invalid state transition from " +:+
                 stateName (status session) +:+ " to " +:+ newStatus), w)
      else
        let target := default (status session) (stateOfName newStatus) in
        let '(now, t) := newDate (ticks w) in
        let session :=
          set_timestamps (stamp target (DateStamp now) (timestamps session))
                         (set_status target session) in
        let '(session, t) :=
          if String.eqb text "" then (session, t)
          else
            let '(now, t) := newDate t in
            (set_notes (notes session ++
                        [{| note_timestamp := DateStamp now; note := text;
                            worker := workerName session |}]) session, t) in
        let w := set_ticks t w in
        let '(session, w) :=
          match target with
          | PACKED =>
              let d := calculatePackDuration session in
              let session := set_actualDuration (Some d) session in
              (session, recordPackingMetrics n d (workerName session) w)
          | _ => (session, w)
          end in
        let w := set_packSessions (<[n := session]> (packSessions w)) w in
        let w := updateOrderStatus n (stateName target) w in
        match target with
        | DISPATCHED =>
            let w' := completePackWorkflow n w in
            (Returned (default session (last (packHistory w'))),
             savePackWorkflowState w')
        | _ => (Returned session, savePackWorkflowState w)
        end
  end.

(** The constructor on a page whose [window.ordersData] is [d], whose
    localStorage holds [saved] and whose clock has been read [t] times:
    the collections start empty and the module-level metrics at zero,
    then [restorePackWorkflowState] runs. *)
Definition constructPackWorkflow (d : option (list PackOrder))
  (saved : option Snapshot) (t : nat) : Workflow :=
  restorePackWorkflowState
    {| packSessions := ∅; packHistory := []; workerMetrics := ∅;
       globalMetrics :=
         {| global_totalPackTime := Finite 0; global_packCount := 0;
            global_averagePackTime := Finite 0 |};
       ordersData := d; storage := saved; ticks := t |}.

(** The constructor on a first visit: localStorage holds no saved
    workflow. *)
Definition newWorkflow (d : option (list PackOrder)) : Workflow :=
  {| packSessions := ∅; packHistory := []; workerMetrics := ∅;
     globalMetrics :=
       {| global_totalPackTime := Finite 0; global_packCount := 0;
          global_averagePackTime := Finite 0 |};
     ordersData := d; storage := None; ticks := 0 |}.

(** The states a workflow object can be in: built on a first visit or,
    after a reload of the page, over what the workflow before it left in
    localStorage; then any sequence of calls of its methods, of changes
    of [window.ordersData] and of [dataImported] events, each of which
    runs [restorePackWorkflowState]. *)
Inductive reachable : Workflow → Prop :=
| reach_new d : reachable (newWorkflow d)
| reach_reload d w :
    reachable w → reachable (constructPackWorkflow d (storage w) (ticks w))
| reach_dataImported w : reachable w → reachable (restorePackWorkflowState w)
| reach_ordersData d w : reachable w → reachable (set_ordersData d w)
| reach_start n name w :
    reachable w → reachable (startPackWorkflow n name w).2
| reach_update n s text w :
    reachable w → reachable (updatePackStatus n s text w).2
| reach_record n d name w :
    reachable w → reachable (recordPackingMetrics n d name w)
| reach_complete n w :
    reachable w → reachable (completePackWorkflow n w).

End WithHost.

(** The transition table in the words of the specification. *)
Inductive allowed : PackState → PackState → Prop :=
| allowed_pending_picking : allowed PENDING PICKING
| allowed_picking_packing : allowed PICKING PACKING
| allowed_picking_pending : allowed PICKING PENDING
| allowed_packing_packed : allowed PACKING PACKED
| allowed_packing_picking : allowed PACKING PICKING
| allowed_packed_dispatched : allowed PACKED DISPATCHED.

(** A requested status is allowed from a state when it names a state
    the table allows. *)
Definition allowedRequest (s : PackState) (newStatus : string) : Prop :=
  ∃ t, stateName t = newStatus ∧ allowed s t.

(** [a <= b] and [a === b] as JavaScript evaluates them on these
    values: a comparison with [NaN] is false, and [null] compares as 0. *)
Definition num_le (a b : Num) : Prop :=
  match toNumber a, toNumber b with
  | Finite x, Finite y => x <= y
  | Finite _, Infinity | Infinity, Infinity => True
  | _, _ => False
  end.

Definition num_eq (a b : Num) : Prop :=
  match a, b with
  | Finite x, Finite y => x == y
  | Infinity, Infinity | NullNum, NullNum => True
  | _, _ => False
  end.

(** What is claimed of an accumulator: the average is the total over
    the count, and from the first pack on it lies between the best and
    the worst time. *)
Definition metricsConsistent (m : WorkerMetric) : Prop :=
  num_eq (averagePackTime m) (average (totalPackTime m) (packCount m)) ∧
  ((1 ≤ packCount m)%nat →
   num_le (bestTime m) (averagePackTime m) ∧
   num_le (averagePackTime m) (worstTime m)).

(** [getNextStatus], the label and the request of the button of the
    order-details modal: [nextStatus[currentStatus] || currentStatus].  A
    name inherited from [Object.prototype] yields a function, not a
    status: [None]. *)
Definition getNextStatus (currentStatus : string) : option string :=
  if String.eqb currentStatus "picking" then Some "packing"%string
  else if String.eqb currentStatus "packing" then Some "packed"%string
  else if String.eqb currentStatus "packed" then Some "dispatched"%string
  else if existsb (String.eqb currentStatus) objectPrototypeKeys then None
  else Some currentStatus.

(** What the two collections of sessions keep from one call to the
    next: an active session is filed under its own order number and is
    not dispatched; a session of the history is dispatched and carries the
    instant of its completion. *)
Definition sessionsInvariant (w : Workflow) : Prop :=
  (∀ n session, packSessions w !! n = Some session →
     orderNumber session = n ∧ status session ≠ DISPATCHED ∧
     completed session = None) ∧
  (∀ session, session ∈ packHistory w →
     status session = DISPATCHED ∧ is_Some (completed session)).

(** The durations of the packs a worker's accumulator has on record. *)
Definition recordedDurations (m : WorkerMetric) : list Num :=
  map packed_duration (packedOrders m).



(** What [restorePackWorkflowState] installs of a saved state. *)
Definition install (state : Snapshot) (w : Workflow) : Workflow :=
  set_workerMetrics (snap_workerMetrics state)
    (set_packHistory (snap_packHistory state)
       (set_packSessions (snap_packSessions state) w)).

End Pack.

(** ** Sample inputs *)

Module Samples.
Import DPS.

(** An instant, 2023-11-14T22:13:20Z, and the length of an hour. *)
Definition t0 : Z := 1700000000000.
Definition hour : Z := 3600000.

(** A host whose clock advances one millisecond per reading.  The
    sample orders carry [Date] objects and numbers, so the string
    parsers of the host are never consulted; this host's parsers
    recognise no string. *)
Definition sampleHost : Host :=
  {| Date_parse := λ _, None;
     parseFloat_string := λ _, None;
     Number_toString := λ _, ""%string;
     clock := λ n, (t0 + Z.of_nat n)%Z |}.

Definition dateAt (t : Z) : option Value := Some (DateObj (Some t)).

(** The scenario order of the specification: dispatch due an hour ago,
    ordered 26 hours ago, delivery promised in 24 hours, total 1500. *)
Definition scenarioA : Order :=
  {| orderNumber := Some "A"%string;
     orderDate := dateAt (t0 - 26 * hour);
     expectedDispatch := dateAt (t0 - hour);
     deliveryBy := dateAt (t0 + 24 * hour);
     orderTotal := Some (Number 1500) |}.

(** An overdue order inside the ranges of the test-suite generator:
    ordered two hours ago, dispatch due an hour ago, delivery promised in
    six days, total 20. *)
Definition overdueOrder : Order :=
  {| orderNumber := Some "TEST-1"%string;
     orderDate := dateAt (t0 - 2 * hour);
     expectedDispatch := dateAt (t0 - hour);
     deliveryBy := dateAt (t0 + 144 * hour);
     orderTotal := Some (Number 20) |}.

(** Order "A" again after an edit that left an invalid [Date] in
    [orderDate]. *)
Definition editedA : Order :=
  {| orderNumber := Some "A"%string;
     orderDate := Some (DateObj None);
     expectedDispatch := dateAt (t0 - hour);
     deliveryBy := dateAt (t0 + 24 * hour);
     orderTotal := Some (Number 1500) |}.

(** Order "A" with a total of 10 and a dispatch date two days ahead. *)
Definition cheapA : Order :=
  {| orderNumber := Some "A"%string;
     orderDate := dateAt (t0 - 26 * hour);
     expectedDispatch := dateAt (t0 + 47 * hour);
     deliveryBy := dateAt (t0 + 24 * hour);
     orderTotal := Some (Number 10) |}.

Definition orderB : Order :=
  {| orderNumber := Some "B"%string;
     orderDate := dateAt (t0 - 3 * hour);
     expectedDispatch := dateAt (t0 + 5 * hour);
     deliveryBy := None;
     orderTotal := Some (Number 80) |}.

Definition fresh (o : Order) : StoredOrder :=
  {| supplied := o; derived := None |}.

Definition sampleOrders : list StoredOrder :=
  [fresh orderB; fresh scenarioA; fresh overdueOrder].

(** The queue after order "A" has been scored once. *)
Definition afterScenarioA : Queue :=
  (@calculateDPS sampleHost scenarioA newQueue).2.

(** The queue after the cheap variant of "A" has been scored once, and
    a queue that has only read the clock once. *)
Definition afterCheapA : Queue :=
  (@calculateDPS sampleHost cheapA newQueue).2.

Definition afterClockRead : Queue :=
  (@isOverdue sampleHost cheapA newQueue).2.

(** The queue after order "B" has been scored once. *)
Definition afterOrderB : Queue :=
  (@calculateDPS sampleHost orderB newQueue).2.

(** A target above the critical urgency with two calm candidates of
    the same SKU, bound for counties that are neither its own nor
    adjacent to it. *)
Definition widget (n : string) (u : Q) (c : string) : Batch.Order :=
  {| Batch.orderNumber := n; Batch.customer := Some "Acme"%string;
     Batch.product := Some "Widget"%string;
     Batch.sku := Some "WIDGET-01"%string;
     Batch.value := 100; Batch.urgencyScore := u;
     Batch.county := Some c;
     Batch.deliveryEndDate := Some (t0 + 48 * hour)%Z |}.

Definition urgentTarget : Batch.Order := widget "T-1" 95 "Kent".

Definition calmPool : list Batch.Order :=
  [widget "C-1" 10 "Devon"; widget "C-2" 20 "Cornwall"].

(** Four orders of one page: "A", "C" and "D" share a SKU, "B" has its
    own.  The page asks for "A" against the other three, then for "B"
    against the other three. *)
Definition gadget (n sku c : string) : Batch.Order :=
  {| Batch.orderNumber := n; Batch.customer := None;
     Batch.product := Some "Gadget"%string; Batch.sku := Some sku;
     Batch.value := 40; Batch.urgencyScore := 30;
     Batch.county := Some c;
     Batch.deliveryEndDate := Some (t0 + 48 * hour)%Z |}.

Definition orderA : Batch.Order := gadget "A" "GADGET-7" "Kent".
Definition orderBb : Batch.Order := gadget "B" "OTHER-1" "Devon".
Definition orderC : Batch.Order := gadget "C" "GADGET-7" "Cornwall".
Definition orderD : Batch.Order := gadget "D" "GADGET-7" "Norfolk".

Definition afterAskingForA : Batch.Optimizer :=
  (@Batch.findBatchOpportunities sampleHost orderA [orderBb; orderC; orderD]
     Batch.newOptimizer).2.

(** Orders with ten-character numbers, all of one SKU. *)
Definition order1 : Batch.Order := gadget "ORDER-0001" "GADGET-7" "Kent".
Definition order2 : Batch.Order := gadget "ORDER-0002" "GADGET-7" "Devon".
Definition order3 : Batch.Order := gadget "ORDER-0003" "GADGET-7" "Cornwall".
Definition order7 : Batch.Order := gadget "ORDER-0007" "GADGET-7" "Norfolk".
Definition order8 : Batch.Order := gadget "ORDER-0008" "GADGET-7" "Suffolk".

(** A one-order page, a session taken back to "pending", and a worker
    who has packed one order. *)
Definition orderZ1 : Pack.PackOrder :=
  {| Pack.order_orderNumber := "Z1"; Pack.order_status := "pending";
     Pack.order_lastUpdated := None;
     Pack.order_expectedDispatch := Some (t0 + 30 * hour)%Z;
     Pack.order_quantity := Some 3; Pack.order_category := "fragile" |}.

(** The same order for five items. *)
Definition orderZ1x5 : Pack.PackOrder :=
  {| Pack.order_orderNumber := "Z1"; Pack.order_status := "pending";
     Pack.order_lastUpdated := None;
     Pack.order_expectedDispatch := Some (t0 + 30 * hour)%Z;
     Pack.order_quantity := Some 5; Pack.order_category := "fragile" |}.

Definition startedZ1 : Pack.Workflow :=
  (@Pack.startPackWorkflow sampleHost "Z1" "Ann"
     (Pack.newWorkflow (Some [orderZ1]))).2.

Definition pendingZ1 : Pack.Workflow :=
  (@Pack.updatePackStatus sampleHost "Z1" "pending" "" startedZ1).2.

Definition packedZ1 : Pack.Workflow :=
  (@Pack.updatePackStatus sampleHost "Z1" "packed" "done"
     (@Pack.updatePackStatus sampleHost "Z1" "packing" "" startedZ1).2).2.

(** Order "Z1" started by Ann and being packed when the page is
    reloaded, and moved to "packed" on the reloaded page. *)
Definition packingZ1 : Pack.Workflow :=
  (@Pack.updatePackStatus sampleHost "Z1" "packing" "" startedZ1).2.

Definition reloadedZ1 : Pack.Workflow :=
  Pack.constructPackWorkflow (Some [orderZ1]) (Pack.storage packingZ1)
    (Pack.ticks packingZ1).

Definition packedAfterReloadZ1 : Pack.Workflow :=
  (@Pack.updatePackStatus sampleHost "Z1" "packed" "" reloadedZ1).2.


(** Order "A2": the scenario order under another number and with a
    total of 10. *)
Definition scenarioLow : Order :=
  {| orderNumber := Some "A2"%string;
     orderDate := dateAt (t0 - 26 * hour);
     expectedDispatch := dateAt (t0 - hour);
     deliveryBy := dateAt (t0 + 24 * hour);
     orderTotal := Some (Number 10) |}.

(** The queue after the three sample orders have been loaded, and the
    entry its ranking ends with. *)
Definition loadedQueue : Queue :=
  (@updateQueue sampleHost (Some sampleOrders) newQueue).2.

Definition rankedB : RankedOrder :=
  {| order := orderB;
     scored := {| dpsScore := 63.00; isOverdueFlag := false;
                  lastDPSCalculation := (t0 + 2)%Z |} |}.

End Samples.

(* ===================================================================== *)
(** * Part II. Properties                                                 *)
(* ===================================================================== *)

(** ** The host *)

Module JSFacts.

Lemma Array_insert_Permutation {A} (cmp : A → A → Q) x l :
  Array_insert cmp x l ≡ₚ x :: l.
Proof.
  induction l as [|y l IH]; simpl; [done|].
  destruct (le (cmp x y) 0); [done|]. rewrite IH. apply Permutation_swap.
Qed.

Lemma Array_sort_Permutation {A} (cmp : A → A → Q) l : Array_sort cmp l ≡ₚ l.
Proof.
  unfold Array_sort. induction l as [|x l IH]; simpl; [done|].
  by rewrite Array_insert_Permutation, IH.
Qed.

Lemma Array_insert_Sorted {A} (cmp : A → A → Q) x l :
  Total (keepsOrder cmp) → Sorted (keepsOrder cmp) l →
  Sorted (keepsOrder cmp) (Array_insert cmp x l).
Proof.
  intros Htotal. induction 1 as [|y l Hs IH Hd]; simpl.
  { by repeat constructor. }
  destruct (le (cmp x y) 0) eqn:Hxy.
  - constructor; [by constructor|]. constructor. unfold keepsOrder.
    by rewrite Hxy.
  - assert (keepsOrder cmp y x) as Hyx.
    { destruct (Htotal x y) as [Hk|Hk]; [|done].
      unfold keepsOrder in Hk. by rewrite Hxy in Hk. }
    constructor; [exact IH|].
    destruct Hd as [|z l Hyz]; simpl; [by constructor|].
    by destruct (le (cmp x z) 0); constructor.
Qed.

Lemma Array_sort_Sorted {A} (cmp : A → A → Q) l :
  Total (keepsOrder cmp) → Sorted (keepsOrder cmp) (Array_sort cmp l).
Proof.
  intros Htotal. unfold Array_sort.
  induction l as [|x l IH]; simpl; [constructor|].
  by apply Array_insert_Sorted.
Qed.

End JSFacts.

Module DPSFacts.
Import DPS.

Section WithHost.
Context `{Host}.

Lemma clampScore_range x : 0 <= clampScore x ∧ clampScore x <= 100.
Proof.
  unfold clampScore. split.
  - apply Q.le_max_l.
  - apply Q.max_lub; [lra | apply Q.le_min_l].
Qed.

Lemma computeDPS_range o now c :
  0 <= (computeDPS o now c).1 ∧ (computeDPS o now c).1 <= 100.
Proof.
  unfold computeDPS.
  destruct (parseDate (get (orderDate o))); [|simpl; lra].
  destruct (parseDate (get (expectedDispatch o))); [|simpl; lra].
  apply clampScore_range.
Qed.

Lemma computeDPS_cacheInRange o now c :
  cacheInRange c → cacheInRange (computeDPS o now c).2.
Proof.
  intros Hc. unfold computeDPS.
  destruct (parseDate (get (orderDate o))); [|exact Hc].
  destruct (parseDate (get (expectedDispatch o))); [|exact Hc].
  simpl. intros k e. rewrite lookup_insert.
  case_decide; [|apply Hc].
  intros [= <-]. apply clampScore_range.
Qed.

Lemma cacheHit_range c k now s :
  cacheInRange c → cacheHit c k now = Some s → 0 <= s ∧ s <= 100.
Proof.
  intros Hc. unfold cacheHit.
  destruct (c !! k) as [e|] eqn:He; [|done].
  destruct (_ <? _)%Z; [|done].
  intros [= <-]. eauto.
Qed.

Lemma calculateDPS_cacheInRange o q :
  cacheInRange (calculationCache q) →
  cacheInRange (calculationCache (calculateDPS o q).2).
Proof.
  intros Hc. unfold calculateDPS.
  destruct (validateOrderForDPS o); simpl; [|exact Hc].
  destruct (cacheHit _ _ _); simpl; [exact Hc|].
  pose proof (computeDPS_cacheInRange o (clock (ticks q)) _ Hc) as Hc'.
  simpl in *. destruct (computeDPS _ _ _). exact Hc'.
Qed.

Lemma calculateDPS_result_range o q :
  cacheInRange (calculationCache q) →
  0 <= (calculateDPS o q).1 ∧ (calculateDPS o q).1 <= 100.
Proof.
  intros Hc. unfold calculateDPS.
  destruct (validateOrderForDPS o); simpl; [|lra].
  destruct (cacheHit _ _ _) eqn:Hhit; simpl.
  - eapply cacheHit_range; [exact Hc | exact Hhit].
  - pose proof (computeDPS_range o (clock (ticks q)) (calculationCache q)).
    simpl in *. destruct (computeDPS _ _ _). assumption.
Qed.

(** *** Scoring touches only the cache, the clock and the call counter *)

Lemma sameQueueData_refl q : sameQueueData q q.
Proof. by repeat split. Qed.

Lemma sameQueueData_trans q1 q2 q3 :
  sameQueueData q1 q2 → sameQueueData q2 q3 → sameQueueData q1 q3.
Proof.
  intros (?&?&?&?) (?&?&?&?). repeat split; congruence.
Qed.

Lemma calculateDPS_frame o q : sameQueueData q (calculateDPS o q).2.
Proof.
  unfold calculateDPS.
  destruct (validateOrderForDPS o); simpl; [|by repeat split].
  destruct (cacheHit _ _ _); simpl; [by repeat split|].
  destruct (computeDPS _ _ _); by repeat split.
Qed.

Lemma isOverdue_frame o q : sameQueueData q (isOverdue o q).2.
Proof.
  unfold isOverdue; simpl. destruct (parseDate _); by repeat split.
Qed.

Lemma isOverdue_cache o q :
  calculationCache (isOverdue o q).2 = calculationCache q.
Proof. unfold isOverdue; simpl. by destruct (parseDate _). Qed.

Lemma isOverdue_dpsCalls o q : dpsCalls (isOverdue o q).2 = dpsCalls q.
Proof. unfold isOverdue; simpl. by destruct (parseDate _). Qed.

Lemma rescore_frame o q : sameQueueData q (rescore o q).2.
Proof.
  unfold rescore.
  pose proof (calculateDPS_frame o q) as H1.
  destruct (calculateDPS o q) as [dps q1].
  pose proof (isOverdue_frame o q1) as H2.
  destruct (isOverdue o q1) as [ov q2]. simpl in *.
  eapply sameQueueData_trans; [exact H1|].
  eapply sameQueueData_trans; [exact H2|]. by repeat split.
Qed.

Lemma rescore_cacheInRange o q :
  cacheInRange (calculationCache q) →
  cacheInRange (calculationCache (rescore o q).2).
Proof.
  intros Hc. unfold rescore.
  pose proof (calculateDPS_cacheInRange o q Hc) as H1.
  destruct (calculateDPS o q) as [dps q1].
  pose proof (isOverdue_cache o q1) as H2.
  destruct (isOverdue o q1) as [ov q2]. simpl in *. by rewrite H2.
Qed.

Lemma scoreOrder_frame o q : sameQueueData q (scoreOrder o q).2.
Proof.
  unfold scoreOrder. destruct (derived o); [|apply rescore_frame].
  case_bool_decide; [apply rescore_frame|apply sameQueueData_refl].
Qed.

Lemma scoreOrder_cacheInRange o q :
  cacheInRange (calculationCache q) →
  cacheInRange (calculationCache (scoreOrder o q).2).
Proof.
  intros Hc. unfold scoreOrder.
  destruct (derived o); [|by apply rescore_cacheInRange].
  case_bool_decide; [by apply rescore_cacheInRange|done].
Qed.

Lemma mapOrders_frame l q : sameQueueData q (mapOrders l q).2.
Proof.
  revert q. induction l as [|o l IH]; intros q; simpl.
  - apply sameQueueData_refl.
  - pose proof (scoreOrder_frame o q) as H1.
    destruct (scoreOrder o q) as [r q1].
    pose proof (IH q1) as H2.
    destruct (mapOrders l q1) as [rs q2]. simpl in *.
    eapply sameQueueData_trans; eassumption.
Qed.

Lemma mapOrders_cacheInRange l q :
  cacheInRange (calculationCache q) →
  cacheInRange (calculationCache (mapOrders l q).2).
Proof.
  revert q. induction l as [|o l IH]; intros q Hc; simpl; [done|].
  pose proof (scoreOrder_cacheInRange o q Hc) as H1.
  destruct (scoreOrder o q) as [r q1].
  pose proof (IH q1 H1) as H2.
  by destruct (mapOrders l q1) as [rs q2].
Qed.

Lemma mapOrders_length l q : length (mapOrders l q).1 = length l.
Proof.
  revert q. induction l as [|o l IH]; intros q; simpl; [done|].
  destruct (scoreOrder o q) as [r q1].
  pose proof (IH q1). destruct (mapOrders l q1). simpl in *. lia.
Qed.

Lemma mapOrders_nil q : mapOrders [] q = ([], q).
Proof. reflexivity. Qed.

(** *** The comparator and the sort *)

Lemma le_spec x y : le x y = true ↔ x <= y.
Proof. apply Qle_bool_iff. Qed.

Lemma le_false x y : le x y = false ↔ y < x.
Proof.
  unfold le. split; intros Hf.
  - apply Qnot_le_lt. intros Hle. apply Qle_bool_iff in Hle. congruence.
  - destruct (Qle_bool x y) eqn:E; [|done].
    apply Qle_bool_iff in E. lra.
Qed.

Lemma strict_ne_true x y : strict_ne x y = true ↔ ¬ x == y.
Proof.
  unfold strict_ne. rewrite negb_true_iff. split.
  - intros Hf Heq. apply Qeq_bool_iff in Heq. congruence.
  - intros Hne. destruct (Qeq_bool x y) eqn:E; [|done].
    apply Qeq_bool_iff in E. contradiction.
Qed.

Lemma strict_ne_false x y : strict_ne x y = false ↔ x == y.
Proof.
  unfold strict_ne. rewrite negb_false_iff. apply Qeq_bool_iff.
Qed.

Lemma inject_Z_nonpos z : inject_Z z <= 0 → (z ≤ 0)%Z.
Proof. intros Hz. by rewrite Zle_Qle. Qed.

Lemma nonpos_inject_Z z : (z ≤ 0)%Z → inject_Z z <= 0.
Proof. intros Hz. by rewrite Zle_Qle in Hz. Qed.

Lemma compareOrders_keeps a b :
  keepsOrder compareOrders a b →
  dpsScore (scored b) <= dpsScore (scored a) ∧
  (dpsScore (scored a) == dpsScore (scored b) → tieBreak a b).
Proof.
  unfold keepsOrder, compareOrders. intros Hk. apply Is_true_true in Hk.
  destruct (strict_ne (dpsScore (scored b)) (dpsScore (scored a))) eqn:E1.
  { apply strict_ne_true in E1. apply le_spec in Hk.
    split; [lra|]. intros Heq. exfalso. apply E1. lra. }
  apply strict_ne_false in E1. split; [lra|]. intros _.
  unfold tieBreak, totalOf, dateOf.
  destruct (isOverdueFlag (scored a)) eqn:Oa,
           (isOverdueFlag (scored b)) eqn:Ob; simpl in Hk.
  2: { left. done. }
  2: { apply le_spec in Hk. unfold bool_num in Hk. lra. }
  all: right; split; [done|].
  all: destruct (strict_ne _ _) eqn:E2;
    [ apply strict_ne_true in E2; apply le_spec in Hk; left; lra
    | apply strict_ne_false in E2; apply le_spec in Hk;
      apply inject_Z_nonpos in Hk; right; split; [lra | lia] ].
Qed.

Lemma compareOrders_total : Total (keepsOrder compareOrders).
Proof.
  intros a b. unfold keepsOrder, compareOrders.
  destruct (strict_ne (dpsScore (scored b)) (dpsScore (scored a))) eqn:E1.
  - apply strict_ne_true in E1.
    assert (strict_ne (dpsScore (scored a)) (dpsScore (scored b)) = true) as ->.
    { apply strict_ne_true. intros Heq. apply E1. lra. }
    destruct (Qlt_le_dec (dpsScore (scored a)) (dpsScore (scored b))).
    + right. apply Is_true_true, le_spec. lra.
    + left. apply Is_true_true, le_spec. lra.
  - apply strict_ne_false in E1.
    assert (strict_ne (dpsScore (scored a)) (dpsScore (scored b)) = false) as ->.
    { apply strict_ne_false. lra. }
    destruct (isOverdueFlag (scored a)), (isOverdueFlag (scored b)); simpl.
    2: { left. done. }
    2: { right. done. }
    all: set (x := orZero (parseFloat (get (orderTotal (order a)))));
         set (y := orZero (parseFloat (get (orderTotal (order b)))));
         set (da := date_num (parseDate (get (orderDate (order a)))));
         set (db := date_num (parseDate (get (orderDate (order b)))));
         destruct (strict_ne y x) eqn:E2;
         [ apply strict_ne_true in E2;
           assert (strict_ne x y = true) as ->
             by (apply strict_ne_true; intros Heq; apply E2; lra);
           destruct (Qlt_le_dec x y);
           [ right | left ]; apply Is_true_true, le_spec; lra
         | apply strict_ne_false in E2;
           assert (strict_ne x y = false) as ->
             by (apply strict_ne_false; lra);
           destruct (Z_le_gt_dec da db);
           [ left | right ]; apply Is_true_true, le_spec, nonpos_inject_Z; lia ].
Qed.

Lemma Sorted_adjacent {A} (R : relation A) (l : list A) i a b :
  Sorted R l → l !! i = Some a → l !! S i = Some b → R a b.
Proof.
  intros Hs. revert i. induction Hs as [|x l Hs IH Hd]; intros i; [done|].
  destruct i as [|i]; simpl.
  - intros [= ->] Hb. destruct Hd as [|y l' Hxy]; [done|].
    simpl in Hb. by injection Hb as ->.
  - apply IH.
Qed.

Lemma Array_sort_rankingSorted l : rankingSorted (Array_sort compareOrders l).
Proof.
  intros i a b Ha Hb. apply compareOrders_keeps.
  eapply Sorted_adjacent; [|exact Ha|exact Hb].
  apply JSFacts.Array_sort_Sorted, compareOrders_total.
Qed.

Lemma Array_sort_length {A} (cmp : A → A → Q) l :
  length (Array_sort cmp l) = length l.
Proof. by rewrite JSFacts.Array_sort_Permutation. Qed.

(** *** One recompute *)

Lemma rankingSorted_nil : rankingSorted [].
Proof. intros i a b Ha. done. Qed.

Lemma updateQueue_result ords q :
  (updateQueue ords q).1 = priorityQueue (updateQueue ords q).2.
Proof.
  unfold updateQueue. destruct (isCalculating q); [done|].
  match goal with |- context [if ?c then _ else _] => destruct c end; [done|].
  destruct (mapOrders _ _) as [u q1]. done.
Qed.

Lemma updateQueue_invariant ords q :
  queueInvariant q → queueInvariant (updateQueue ords q).2.
Proof.
  intros (Hc & Hi & Hs). unfold updateQueue. rewrite Hi.
  match goal with |- context [if ?c then _ else _] => destruct c end.
  - unfold queueInvariant. destruct ords; simpl; auto.
  - match goal with |- context [mapOrders ?l ?q0] =>
      pose proof (mapOrders_cacheInRange l q0) as Hc';
      destruct (mapOrders l q0) as [u q1] end.
    unfold queueInvariant. simpl. split; [|split; [done|]].
    + apply Hc'. by destruct ords.
    + apply Array_sort_rankingSorted.
Qed.

Lemma updateQueue_settled ords q :
  isCalculating q = false → settled (updateQueue ords q).2.
Proof.
  intros Hi. unfold updateQueue. rewrite Hi.
  match goal with |- context [if ?c then _ else _] => destruct c eqn:Hcond end.
  - apply andb_true_iff in Hcond as [Hd Hp].
    apply bool_decide_eq_true in Hd, Hp.
    unfold settled; simpl. split; [done|]. split; [exact Hd | left; exact Hp].
  - match goal with |- context [mapOrders ?l ?q0] =>
      pose proof (mapOrders_frame l q0) as (Ho & _);
      pose proof (mapOrders_length l q0) as Hl;
      destruct (mapOrders l q0) as [u q1] end.
    unfold settled; simpl in *. split; [done|].
    split; [exact (size_empty (C:=gset (option string)))|].
    rewrite Array_sort_length, Hl, Ho.
    match goal with |- context [length ?l] => destruct l end;
      [by right | left; simpl; lia].
Qed.

Lemma updateQueue_idle q :
  settled q →
  (updateQueue None q).1 = priorityQueue q ∧
  dpsCalls (updateQueue None q).2 = dpsCalls q ∧
  calculationCache (updateQueue None q).2 = calculationCache q.
Proof.
  intros (Hi & Hd & Hp). unfold updateQueue. rewrite Hi. simpl.
  rewrite (bool_decide_eq_true_2 _ Hd). simpl.
  case_bool_decide as Hl; [done|].
  destruct Hp as [Hp|Ho]; [lia|]. rewrite Ho. simpl.
  destruct (priorityQueue q); [done | simpl in Hl; lia].
Qed.

(** *** Invariants of every reachable queue *)

Lemma sweepCache_cacheInRange q :
  cacheInRange (calculationCache q) →
  cacheInRange (calculationCache (sweepCache q)).
Proof.
  intros Hc k e. unfold sweepCache; simpl.
  rewrite map_lookup_filter_Some. intros [He _]. eauto.
Qed.

Lemma reachable_invariant q : reachable q → queueInvariant q.
Proof.
  induction 1 as [|o q _ IH|o q _ IH|ords q _ IH|n q _ IH|q _ IH|q _ IH|q _ IH].
  - split; [|split; [done|apply rankingSorted_nil]].
    intros k e. simpl. by rewrite lookup_empty.
  - destruct IH as (Hc & Hi & Hs).
    destruct (calculateDPS_frame o q) as (_ & Hp & _ & Hi').
    split; [by apply calculateDPS_cacheInRange|].
    split; [congruence | by rewrite Hp].
  - destruct IH as (Hc & Hi & Hs).
    destruct (isOverdue_frame o q) as (_ & Hp & _ & Hi').
    split; [by rewrite isOverdue_cache|].
    split; [congruence | by rewrite Hp].
  - by apply updateQueue_invariant.
  - exact IH.
  - exact IH.
  - destruct IH as (Hc & Hi & Hs). split; [|by split].
    intros k e. simpl. by rewrite lookup_empty.
  - destruct IH as (Hc & Hi & Hs).
    split; [by apply sweepCache_cacheInRange|by split].
Qed.

(** *** Date strings *)

(** A day-first date is rewritten to year-month-day before the host
    parses it; other strings reach the host trimmed but otherwise as
    they are; whatever follows the year travels with it. *)
Lemma parseDate_day_first : parseDate (Str " 5/3/2024 ") = Date_parse "2024-03-05".
Proof. reflexivity. Qed.

Lemma parseDate_day_first_impossible :
  parseDate (Str "32/13/2025") = Date_parse "2025-13-32".
Proof. reflexivity. Qed.

Lemma parseDate_day_first_with_time :
  parseDate (Str "15/12/2024 10:30") = Date_parse "2024 10:30-12-15".
Proof. reflexivity. Qed.

Lemma parseDate_other_string :
  parseDate (Str " 2024-12-15T10:30:00Z") = Date_parse "2024-12-15T10:30:00Z".
Proof. reflexivity. Qed.

Lemma parseDate_falsy :
  parseDate Undefined = None ∧ parseDate Null = None ∧
  parseDate (Str "") = None ∧ parseDate (Number 0) = None ∧
  parseDate NaN = None ∧ parseDate (DateObj None) = None.
Proof. by repeat split. Qed.

(** *** The score *)

Lemma computeDPS_score_cache_independent o now c1 c2 :
  (computeDPS o now c1).1 = (computeDPS o now c2).1.
Proof.
  unfold computeDPS.
  destruct (parseDate (get (orderDate o))); [|done].
  by destruct (parseDate (get (expectedDispatch o))).
Qed.

Lemma calculateDPS_miss o q :
  validateOrderForDPS o = true →
  cacheHit (calculationCache q) (getCacheKey o (currentTime q)) (currentTime q)
    = None →
  (calculateDPS o q).1 = (computeDPS o (currentTime q) ∅).1.
Proof.
  intros Hv Hm. unfold calculateDPS, currentTime in *. rewrite Hv. simpl.
  rewrite Hm.
  rewrite (computeDPS_score_cache_independent o _ ∅ (calculationCache q)).
  by destruct (computeDPS _ _ _).
Qed.

Lemma calculateDPS_hit o q s :
  validateOrderForDPS o = true →
  cacheHit (calculationCache q) (getCacheKey o (currentTime q)) (currentTime q)
    = Some s →
  (calculateDPS o q).1 = s.
Proof.
  intros Hv Hm. unfold calculateDPS, currentTime in *. rewrite Hv. simpl.
  by rewrite Hm.
Qed.

Lemma calculateDPS_not_validated o q :
  validateOrderForDPS o = false → (calculateDPS o q).1 = 0.
Proof. intros Hv. unfold calculateDPS. by rewrite Hv. Qed.

(** C1: for every order that passes the required-field validation and
    whose [orderDate] and [expectedDispatch] parse, [calculateDPS] returns
    a score between 0 and 100, in every state a queue can reach. *)
Theorem calculateDPS_range o q :
  reachable q → validOrder o →
  0 <= (calculateDPS o q).1 ∧ (calculateDPS o q).1 <= 100.
Proof.
  intros Hr _. apply calculateDPS_result_range.
  by destruct (reachable_invariant q Hr).
Qed.

(** C2 (amended): an order that fails the required-field validation
    scores exactly 0; so does an order whose [orderDate] or
    [expectedDispatch] does not parse, provided the cache holds no
    unexpired score under the order's number and hour.  The result is a
    value in both cases: nothing is thrown. *)
Theorem calculateDPS_invalid_zero o q :
  validateOrderForDPS o = false ∨
  ((parseDate (get (orderDate o)) = None ∨
    parseDate (get (expectedDispatch o)) = None) ∧
   cacheHit (calculationCache q) (getCacheKey o (currentTime q))
            (currentTime q) = None) →
  (calculateDPS o q).1 = 0.
Proof.
  intros [Hv|[Hd Hm]]; [by apply calculateDPS_not_validated|].
  destruct (validateOrderForDPS o) eqn:Hv;
    [|by apply calculateDPS_not_validated].
  rewrite (calculateDPS_miss o q Hv Hm). unfold computeDPS.
  destruct Hd as [-> | ->]; [done|].
  by destruct (parseDate (get (orderDate o))).
Qed.

(** *** The scenario of the specification, and overdue orders *)

Lemma hours_nonpos d : (d ≤ 0)%Z → inject_Z d / msPerHour <= 0.
Proof.
  intros Hd. apply nonpos_inject_Z in Hd. unfold msPerHour.
  apply Qle_shift_div_r; lra.
Qed.

Lemma dispatch_overdue now e :
  (e ≤ now)%Z → calculateDispatchDeadlineScore now e = 100.
Proof.
  intros He. unfold calculateDispatchDeadlineScore.
  assert (le (inject_Z (e - now) / msPerHour) 0 = true) as ->; [|done].
  apply le_spec, hours_nonpos. lia.
Qed.

Lemma delivery_at_least_10 d b : 10 <= calculateDeliveryPromiseScore d b.
Proof.
  unfold calculateDeliveryPromiseScore. destruct b; [|lra].
  repeat (match goal with |- context [if ?c then _ else _] => destruct c end;
          [lra|]); lra.
Qed.

Lemma age_at_least_10 now d : 10 <= calculateOrderAgeScore now d.
Proof.
  unfold calculateOrderAgeScore.
  repeat (match goal with |- context [if ?c then _ else _] => destruct c end;
          [lra|]); lra.
Qed.

Lemma value_at_least_0 v : 0 <= calculateOrderValueScore v.
Proof.
  unfold calculateOrderValueScore.
  repeat (match goal with |- context [if ?c then _ else _] => destruct c end;
          [lra|]); lra.
Qed.

Lemma value_above_1000 v : 1000 < v → calculateOrderValueScore v = 100.
Proof.
  intros Hv. unfold calculateOrderValueScore.
  repeat (match goal with |- context [le v ?c] =>
            assert (le v c = false) as -> by (apply le_false; lra) end).
  done.
Qed.

Lemma Math_round_lower (n : Z) x :
  inject_Z n <= x → inject_Z n <= Math_round x.
Proof.
  intros Hx. unfold Math_round. rewrite <- Zle_Qle.
  pose proof (Qfloor_resp_le (inject_Z n) (x + 1 / 2)) as Hf.
  rewrite Qfloor_Z in Hf. apply Hf.
  assert (0 <= 1 / 2) by done. lra.
Qed.

Lemma clampScore_lower (n : Z) x :
  (0 ≤ n ≤ 100)%Z → inject_Z n <= x → inject_Z n <= clampScore x.
Proof.
  intros [Hn0 Hn100] Hx. unfold clampScore.
  rewrite Zle_Qle in Hn0, Hn100.
  change (inject_Z 100) with 100 in Hn100. change (inject_Z 0) with 0 in Hn0.
  assert (inject_Z (n * 100) <= Math_round (x * 100)) as Hr.
  { apply Math_round_lower. rewrite inject_Z_mult.
    change (inject_Z 100) with 100. nra. }
  rewrite inject_Z_mult in Hr. change (inject_Z 100) with 100 in Hr.
  assert (inject_Z n <= Math_round (x * 100) / 100) as Hq.
  { apply Qle_shift_div_l; lra. }
  apply Qle_trans with (Qmin 100 (Math_round (x * 100) / 100));
    [|apply Q.le_max_r].
  apply Q.min_glb; lra.
Qed.

(** Where the code puts overdue orders: never below 63 when the score
    is computed afresh. *)
Lemma calculateDPS_overdue_floor o q e :
  validateOrderForDPS o = true →
  is_Some (parseDate (get (orderDate o))) →
  parseDate (get (expectedDispatch o)) = Some e →
  (e < currentTime q)%Z →
  cacheHit (calculationCache q) (getCacheKey o (currentTime q)) (currentTime q)
    = None →
  63 <= (calculateDPS o q).1.
Proof.
  intros Hv [d Hd] He Hlt Hm. rewrite (calculateDPS_miss o q Hv Hm).
  unfold computeDPS. rewrite Hd, He. cbn [fst].
  rewrite dispatch_overdue by lia.
  apply (clampScore_lower 63); [lia|].
  pose proof (delivery_at_least_10 d (parseDate (get (deliveryBy o)))).
  pose proof (age_at_least_10 (currentTime q) d).
  pose proof (value_at_least_0 (orZero (parseFloat (get (orderTotal o))))).
  unfold weightedScore. change (inject_Z 63) with 63. lra.
Qed.

(** C4 (amended): for an order with [expectedDispatch] one hour in the
    past, [orderDate] 26 hours in the past, [deliveryBy] 24 hours in the
    future and [orderTotal] 1500, the dispatch and value sub-scores are
    100, the delivery sub-score is 60 (a 50-hour window), the age
    sub-score is 70 (26 hours), and a freshly computed score is 89. *)
Theorem scenario_scores o q :
  validateOrderForDPS o = true →
  parseDate (get (expectedDispatch o)) = Some (currentTime q - 3600000)%Z →
  parseDate (get (orderDate o)) = Some (currentTime q - 26 * 3600000)%Z →
  parseDate (get (deliveryBy o)) = Some (currentTime q + 24 * 3600000)%Z →
  orZero (parseFloat (get (orderTotal o))) == 1500 →
  cacheHit (calculationCache q) (getCacheKey o (currentTime q)) (currentTime q)
    = None →
  calculateDispatchDeadlineScore (currentTime q) (currentTime q - 3600000) = 100 ∧
  calculateDeliveryPromiseScore (currentTime q - 26 * 3600000)
    (Some (currentTime q + 24 * 3600000)%Z) = 60 ∧
  calculateOrderAgeScore (currentTime q) (currentTime q - 26 * 3600000) = 70 ∧
  calculateOrderValueScore (orZero (parseFloat (get (orderTotal o)))) = 100 ∧
  (calculateDPS o q).1 == 89.
Proof.
  intros Hv He Hd Hb Ht Hm. set (now := currentTime q) in *.
  assert (calculateDispatchDeadlineScore now (now - 3600000) = 100) as H1.
  { apply dispatch_overdue. lia. }
  assert (calculateDeliveryPromiseScore (now - 26 * 3600000)
            (Some (now + 24 * 3600000)%Z) = 60) as H2.
  { unfold calculateDeliveryPromiseScore.
    replace (now + 24 * 3600000 - (now - 26 * 3600000))%Z
      with (50 * 3600000)%Z by lia. reflexivity. }
  assert (calculateOrderAgeScore now (now - 26 * 3600000) = 70) as H3.
  { unfold calculateOrderAgeScore.
    replace (now - (now - 26 * 3600000))%Z with (26 * 3600000)%Z by lia.
    reflexivity. }
  assert (calculateOrderValueScore (orZero (parseFloat (get (orderTotal o))))
          = 100) as H4.
  { apply value_above_1000. lra. }
  repeat (split; [assumption|]).
  rewrite (calculateDPS_miss o q Hv Hm). fold now.
  unfold computeDPS. rewrite Hd, He, Hb. cbn [fst].
  rewrite H1, H2, H3, H4. reflexivity.
Qed.

(** C5 (amended): the score is a function of the order, the current
    time and the cache.  Two calls at the same current time on the same
    order fields that both find no unexpired cache entry return the same
    score; a call on a validated order that finds one returns the cached
    score. *)
Theorem calculateDPS_deterministic_modulo_cache o q1 q2 :
  currentTime q1 = currentTime q2 →
  (cacheHit (calculationCache q1) (getCacheKey o (currentTime q1))
            (currentTime q1) = None →
   cacheHit (calculationCache q2) (getCacheKey o (currentTime q2))
            (currentTime q2) = None →
   (calculateDPS o q1).1 = (calculateDPS o q2).1) ∧
  (∀ s, validateOrderForDPS o = true →
     cacheHit (calculationCache q1) (getCacheKey o (currentTime q1))
              (currentTime q1) = Some s →
     (calculateDPS o q1).1 = s).
Proof.
  intros Ht. split.
  - intros H1 H2. destruct (validateOrderForDPS o) eqn:Hv.
    + rewrite (calculateDPS_miss o q1 Hv H1), (calculateDPS_miss o q2 Hv H2).
      by rewrite Ht.
    + by rewrite !calculateDPS_not_validated.
  - intros s Hv Hs. by apply calculateDPS_hit.
Qed.

(** C6: a recompute followed by a second recompute with no mutation in
    between: the dirty set is empty after the first, and the second
    returns the same ranking, calls [calculateDPS] not once and leaves the
    score cache as it was. *)
Theorem updateQueue_idempotent ords q :
  reachable q →
  size (dirtyOrders (updateQueue ords q).2) = 0%nat ∧
  (updateQueue None (updateQueue ords q).2).1 = (updateQueue ords q).1 ∧
  dpsCalls (updateQueue None (updateQueue ords q).2).2
    = dpsCalls (updateQueue ords q).2 ∧
  calculationCache (updateQueue None (updateQueue ords q).2).2
    = calculationCache (updateQueue ords q).2.
Proof.
  intros Hr. destruct (reachable_invariant q Hr) as (_ & Hi & _).
  pose proof (updateQueue_settled ords q Hi) as Hs.
  split; [apply Hs|].
  rewrite (updateQueue_result ords q). by apply updateQueue_idle.
Qed.

(** C7: after every recompute the ranking has, at every adjacent pair,
    scores that do not increase, and on equal scores the overdue order
    first, then the higher total, then the older order date. *)
Theorem updateQueue_rankingSorted ords q :
  reachable q → rankingSorted (updateQueue ords q).1.
Proof.
  intros Hr. rewrite updateQueue_result.
  apply reachable_invariant. by constructor.
Qed.

End WithHost.

(** *** The properties at the sample inputs *)

Import Samples.

Lemma calculateDPS_range_witness :
  @reachable sampleHost newQueue ∧ @validOrder sampleHost scenarioA ∧
  (0 <= (@calculateDPS sampleHost scenarioA newQueue).1 ∧
   (@calculateDPS sampleHost scenarioA newQueue).1 <= 100).
Proof.
  assert (@reachable sampleHost newQueue) as Hr by apply reach_new.
  assert (@validOrder sampleHost scenarioA) as Hv.
  { split; [reflexivity|]. split; eexists; reflexivity. }
  split; [exact Hr|]. split; [exact Hv|].
  exact (@calculateDPS_range sampleHost scenarioA newQueue Hr Hv).
Defined.

(** C2, as stated, fails: order "A" is scored, then edited so that its
    [orderDate] is an invalid date, then scored again a millisecond
    later.  The second call returns the cached 89, not 0. *)
Lemma calculateDPS_invalid_date_cached :
  @reachable sampleHost afterScenarioA ∧
  validateOrderForDPS editedA = true ∧
  @parseDate sampleHost (get (orderDate editedA)) = None ∧
  (@calculateDPS sampleHost editedA afterScenarioA).1 == 89 ∧
  ¬ (@calculateDPS sampleHost editedA afterScenarioA).1 == 0.
Proof.
  split; [apply reach_calculateDPS, reach_new|].
  split; [reflexivity|]. split; [reflexivity|].
  split; [reflexivity|]. intros Heq. vm_compute in Heq. discriminate.
Qed.

Lemma calculateDPS_invalid_zero_witness :
  (validateOrderForDPS editedA = false ∨
   ((@parseDate sampleHost (get (orderDate editedA)) = None ∨
     @parseDate sampleHost (get (expectedDispatch editedA)) = None) ∧
    cacheHit (calculationCache newQueue)
             (getCacheKey editedA (@currentTime sampleHost newQueue))
             (@currentTime sampleHost newQueue) = None)) ∧
  (@calculateDPS sampleHost editedA newQueue).1 = 0.
Proof.
  assert (validateOrderForDPS editedA = false ∨
   ((@parseDate sampleHost (get (orderDate editedA)) = None ∨
     @parseDate sampleHost (get (expectedDispatch editedA)) = None) ∧
    cacheHit (calculationCache newQueue)
             (getCacheKey editedA (@currentTime sampleHost newQueue))
             (@currentTime sampleHost newQueue) = None)) as Hh.
  { right. split; [left; reflexivity | reflexivity]. }
  split; [exact Hh|].
  exact (@calculateDPS_invalid_zero sampleHost editedA newQueue Hh).
Defined.

(** C3: the code at an overdue order.  The order is valid, its
    [expectedDispatch] lies one hour in the past, and its score is 66,
    below 70: dispatch 100, delivery 20 (a 146-hour window), age 10 (two
    hours), value 10 (total 20). *)
Theorem calculateDPS_overdue_66 :
  @validOrder sampleHost overdueOrder ∧
  @parseDate sampleHost (get (expectedDispatch overdueOrder))
    = Some (@currentTime sampleHost newQueue - 3600000)%Z ∧
  (@calculateDPS sampleHost overdueOrder newQueue).1 == 66 ∧
  ¬ 70 <= (@calculateDPS sampleHost overdueOrder newQueue).1.
Proof.
  split. { split; [reflexivity|]. split; eexists; reflexivity. }
  split; [reflexivity|]. split; [reflexivity|].
  intros Hle. vm_compute in Hle. by apply Hle.
Qed.

(** C4, as stated, fails: at the scenario order the delivery sub-score
    is 60 and the age sub-score is 70, so the four sub-scores are not all
    100, and the score is 89, not 100. *)
Lemma scenario_not_all_100 :
  ¬ (@calculateDispatchDeadlineScore t0 (t0 - hour) == 100 ∧
     @calculateDeliveryPromiseScore (t0 - 26 * hour) (Some (t0 + 24 * hour)%Z)
       == 100 ∧
     @calculateOrderAgeScore t0 (t0 - 26 * hour) == 100 ∧
     @calculateOrderValueScore 1500 == 100 ∧
     (@calculateDPS sampleHost scenarioA newQueue).1 == 100).
Proof.
  intros (_ & Hd & _). vm_compute in Hd. discriminate.
Qed.

Lemma scenario_scores_witness :
  (@calculateDPS sampleHost scenarioA newQueue).1 == 89.
Proof.
  refine (proj2 (proj2 (proj2 (proj2
    (@scenario_scores sampleHost scenarioA newQueue _ _ _ _ _ _)))));
    reflexivity.
Defined.

(** C5, as stated, fails: at the same current time, order "A" with
    total 1500 scores 35 on a queue that scored an earlier version of
    "A" a millisecond before, and 89 on a queue that did not. *)
Lemma calculateDPS_depends_on_history :
  @reachable sampleHost afterCheapA ∧ @reachable sampleHost afterClockRead ∧
  @currentTime sampleHost afterCheapA = @currentTime sampleHost afterClockRead ∧
  ¬ (@calculateDPS sampleHost scenarioA afterCheapA).1
    == (@calculateDPS sampleHost scenarioA afterClockRead).1.
Proof.
  split; [apply reach_calculateDPS, reach_new|].
  split; [apply reach_isOverdue, reach_new|].
  split; [reflexivity|]. intros Heq. vm_compute in Heq. discriminate.
Qed.

Lemma calculateDPS_deterministic_witness :
  @currentTime sampleHost afterClockRead = @currentTime sampleHost afterOrderB ∧
  (@calculateDPS sampleHost scenarioA afterClockRead).1
    = (@calculateDPS sampleHost scenarioA afterOrderB).1.
Proof.
  split; [reflexivity|].
  refine (proj1 (@calculateDPS_deterministic_modulo_cache sampleHost
                   scenarioA afterClockRead afterOrderB _) _ _);
    vm_compute; reflexivity.
Defined.

Lemma updateQueue_idempotent_witness :
  @reachable sampleHost newQueue ∧
  (@updateQueue sampleHost None
     (@updateQueue sampleHost (Some sampleOrders) newQueue).2).1
  = (@updateQueue sampleHost (Some sampleOrders) newQueue).1.
Proof.
  assert (@reachable sampleHost newQueue) as Hr by apply reach_new.
  split; [exact Hr|].
  exact (proj1 (proj2
    (@updateQueue_idempotent sampleHost (Some sampleOrders) newQueue Hr))).
Defined.

Lemma updateQueue_rankingSorted_witness :
  @reachable sampleHost newQueue ∧
  @rankingSorted sampleHost
    (@updateQueue sampleHost (Some sampleOrders) newQueue).1.
Proof.
  assert (@reachable sampleHost newQueue) as Hr by apply reach_new.
  split; [exact Hr|].
  exact (@updateQueue_rankingSorted sampleHost (Some sampleOrders) newQueue Hr).
Defined.

End DPSFacts.

Module BatchFacts.
Import Batch Samples.

(** *** What a freshly computed recommendation is made of *)

Lemma filter_Forall {A} (P : A → Prop) (f : A → bool) l :
  Forall P l → Forall P (List.filter f l).
Proof.
  induction 1 as [|x l Hx _ IH]; simpl; [constructor|].
  destruct (f x); [by constructor | done].
Qed.

Lemma batchOf_builtAround target matches :
  matches ≠ [] → Forall (admissible target) matches →
  builtAround target (batchOf target matches).
Proof.
  intros Hne Hall. exists (take 7 matches). split; [reflexivity|].
  split; [by destruct matches|]. split.
  - unfold batchOf, maxBatchSize. rewrite length_take. lia.
  - by apply Forall_take.
Qed.

Lemma proposeBatch_builtAround kind prio target matches eff threshold :
  Forall (admissible target) matches →
  Forall (λ b, builtAround target (orders b))
         (proposeBatch kind prio target matches eff threshold).
Proof.
  intros Hall. unfold proposeBatch.
  destruct matches as [|m matches]; [constructor|].
  destruct (ge _ _); [|constructor].
  constructor; [|constructor]. simpl. by apply batchOf_builtAround.
Qed.

Lemma analyzeSKUBatches_builtAround target l bs :
  Forall (admissible target) l → analyzeSKUBatches target l = Some bs →
  Forall (λ b, builtAround target (orders b)) bs.
Proof.
  intros Hall. unfold analyzeSKUBatches.
  destruct (sku target); [|done]. intros [= <-].
  apply Forall_app. split; apply proposeBatch_builtAround;
    [|unfold findSimilarSKUs]; by apply filter_Forall.
Qed.

Lemma analyzeGeographicBatches_builtAround target l bs :
  Forall (admissible target) l → analyzeGeographicBatches target l = Some bs →
  Forall (λ b, builtAround target (orders b)) bs.
Proof.
  intros Hall. unfold analyzeGeographicBatches.
  destruct (adjacentCountiesOf (county target)).
  - intros [= <-]. apply Forall_app.
    split; apply proposeBatch_builtAround; by apply filter_Forall.
  - destruct l; [|done]. intros [= <-]. constructor.
Qed.

Lemma analyzeUrgencyBatches_builtAround target l :
  Forall (admissible target) l →
  Forall (λ b, builtAround target (orders b)) (analyzeUrgencyBatches target l).
Proof.
  intros Hall. apply proposeBatch_builtAround. by apply filter_Forall.
Qed.

Lemma analyzeValueBatches_builtAround target l :
  Forall (admissible target) l →
  Forall (λ b, builtAround target (orders b)) (analyzeValueBatches target l).
Proof.
  intros Hall. unfold analyzeValueBatches. destruct (ge _ _); [|constructor].
  apply proposeBatch_builtAround. by apply filter_Forall.
Qed.

Lemma findOrderIntersection_builtAround target l1 l2 :
  builtAround target l1 → builtAround target l2 →
  (3 ≤ length (findOrderIntersection l1 l2))%nat →
  builtAround target (findOrderIntersection l1 l2).
Proof.
  intros (r1 & -> & _) (r2 & -> & _ & Hlen & Hall).
  unfold findOrderIntersection. simpl. rewrite String.eqb_refl. simpl.
  intros Hthree.
  match goal with |- context [List.filter ?f r2] =>
    set (rest := List.filter f r2) in * end.
  exists rest. split; [done|]. split; [destruct rest; [simpl in *; lia|done]|].
  split.
  - pose proof (filter_length_le
      (λ o, String.eqb (orderNumber o) (orderNumber target)
            || existsb (String.eqb (orderNumber o)) (map orderNumber r1)) r2).
    simpl in *. subst rest. lia.
  - by apply filter_Forall.
Qed.

Lemma createHybridBatches_builtAround target skuBatches geoBatches :
  Forall (λ b, builtAround target (orders b)) skuBatches →
  Forall (λ b, builtAround target (orders b)) geoBatches →
  Forall (λ b, builtAround target (orders b))
         (createHybridBatches skuBatches geoBatches).
Proof.
  intros Hs Hg. rewrite Forall_forall in *. intros b Hb.
  apply list_elem_of_In in Hb. unfold createHybridBatches in Hb.
  apply in_flat_map in Hb as (sb & Hsb & Hb).
  apply in_flat_map in Hb as (gb & Hgb & Hb).
  apply list_elem_of_In in Hsb, Hgb.
  case_bool_decide as Hthree; [|done].
  destruct (ge _ _); [|done]. destruct Hb as [<-|[]]. simpl.
  apply findOrderIntersection_builtAround; auto.
Qed.

Lemma rankBatchesByEfficiency_Forall (P : CandidateBatch → Prop) l :
  Forall P l → Forall P (rankBatchesByEfficiency l).
Proof.
  intros Hall. unfold rankBatchesByEfficiency.
  apply Forall_take. rewrite JSFacts.Array_sort_Permutation.
  by apply filter_Forall.
Qed.

Lemma performComprehensiveBatchAnalysis_builtAround target l ranked :
  Forall (admissible target) l →
  performComprehensiveBatchAnalysis target l = Some ranked →
  Forall (λ b, builtAround target (orders b)) ranked.
Proof.
  intros Hall. unfold performComprehensiveBatchAnalysis.
  destruct (analyzeSKUBatches target l) as [sb|] eqn:Hsb; [|done].
  destruct (analyzeGeographicBatches target l) as [gb|] eqn:Hgb; [|done].
  intros [= <-]. apply rankBatchesByEfficiency_Forall.
  pose proof (analyzeSKUBatches_builtAround _ _ _ Hall Hsb).
  pose proof (analyzeGeographicBatches_builtAround _ _ _ Hall Hgb).
  repeat (apply Forall_app; split); auto.
  - by apply analyzeUrgencyBatches_builtAround.
  - by apply analyzeValueBatches_builtAround.
  - by apply createHybridBatches_builtAround.
Qed.

Lemma recommend_guaranteedFor target i b :
  builtAround target (orders b) → guaranteedFor target (recommend i b).
Proof.
  intros (rest & Ho & Hne & Hlen & Hall). unfold guaranteedFor. simpl.
  rewrite Ho. split; [|split; [|split]].
  - exists (summary target). split; [left | done].
  - destruct rest as [|o rest]; [done|]. exists (summary o).
    split; [right; left|]. apply Forall_cons in Hall as [[Hn _] _]. done.
  - rewrite length_map, <- Ho. exact Hlen.
  - intros s Hs Hn. apply elem_of_cons in Hs as [->|Hs]; [done|].
    apply list_elem_of_fmap in Hs as (o & -> & Ho').
    rewrite Forall_forall in Hall. by apply Hall.
Qed.

Lemma recommend_wellFormedFor target i b :
  urgencyScore target <= criticalUrgencyScore →
  builtAround target (orders b) → wellFormedFor target (recommend i b).
Proof.
  intros Hcalm Hb. pose proof Hb as (rest & Ho & _).
  destruct (recommend_guaranteedFor target i b Hb) as (H1 & H2 & H3 & H4).
  split; [done|]. split; [done|]. split; [done|].
  intros s Hs.
  destruct (decide (summary_orderNumber s = orderNumber target)) as [He|Hn];
    [|by apply H4].
  simpl in Hs. rewrite Ho in Hs.
  apply elem_of_cons in Hs as [->|Hs]; [done|].
  apply list_elem_of_fmap in Hs as (o & -> & Ho').
  destruct Hb as (rest' & Ho2 & _ & _ & Hall). rewrite Ho in Ho2.
  injection Ho2 as <-. rewrite Forall_forall in Hall.
  by destruct (Hall o Ho') as [Hn _].
Qed.

Section WithHost.
Context `{Host}.

Lemma eligible_admissible target o t :
  (eligible target o t).1 = true → admissible target o.
Proof.
  unfold eligible, admissible.
  destruct (String.eqb (orderNumber o) (orderNumber target)) eqn:Hn; [done|].
  destruct (gt (urgencyScore o) criticalUrgencyScore) eqn:Hu; [done|].
  intros _. split.
  - intros Heq. apply String.eqb_neq in Hn. done.
  - unfold gt in Hu. apply negb_false_iff in Hu. by apply Qle_bool_iff.
Qed.

Lemma filterFrom_admissible target l t :
  Forall (admissible target) (filterFrom target l t).1.
Proof.
  revert t. induction l as [|o l IH]; intros t; simpl; [constructor|].
  pose proof (eligible_admissible target o t) as Ho.
  destruct (eligible target o t) as [keep t1].
  pose proof (IH t1) as Hrest.
  destruct (filterFrom target l t1) as [rest t2]. simpl in *.
  destruct keep; [constructor; auto | done].
Qed.

Lemma filterEligibleOrders_admissible target l t :
  Forall (admissible target) (filterEligibleOrders target l t).1.
Proof. unfold filterEligibleOrders. simpl. apply filterFrom_admissible. Qed.

(** Computed rather than taken from the cache, every recommendation has
    the target, another order, at most [maxBatchSize] orders, and no
    order other than the target above the critical urgency. *)
Lemma findBatchOpportunities_fresh target pool opt :
  analysisCache opt !! generateCacheKey target pool = None →
  ∀ r, r ∈ batchOpportunities (findBatchOpportunities target pool opt).1 →
       guaranteedFor target r.
Proof.
  intros Hmiss r. unfold findBatchOpportunities.
  destruct (validateInputs target pool); simpl; [|by intros ?%elem_of_nil].
  rewrite Hmiss.
  pose proof (filterEligibleOrders_admissible target pool (ticks opt)) as Hall.
  destruct (filterEligibleOrders target pool (ticks opt)) as [l t].
  simpl in Hall. destruct l as [|o l]; [by intros ?%elem_of_nil|].
  destruct (performComprehensiveBatchAnalysis target (o :: l)) as [ranked|] eqn:Hr;
    simpl; [|by intros ?%elem_of_nil].
  intros Hin. apply elem_of_lookup_imap_1 in Hin as (i & b & -> & Hb).
  apply recommend_guaranteedFor.
  pose proof (performComprehensiveBatchAnalysis_builtAround _ _ _ Hall Hr) as Hbs.
  rewrite Forall_forall in Hbs. apply Hbs. by eapply list_elem_of_lookup_2.
Qed.

(** With a target at or below the critical urgency as well, every
    freshly computed recommendation is well formed. *)
Lemma findBatchOpportunities_fresh_calm target pool opt :
  analysisCache opt !! generateCacheKey target pool = None →
  urgencyScore target <= criticalUrgencyScore →
  ∀ r, r ∈ batchOpportunities (findBatchOpportunities target pool opt).1 →
       wellFormedFor target r.
Proof.
  intros Hmiss Hcalm r. unfold findBatchOpportunities.
  destruct (validateInputs target pool); simpl; [|by intros ?%elem_of_nil].
  rewrite Hmiss.
  pose proof (filterEligibleOrders_admissible target pool (ticks opt)) as Hall.
  destruct (filterEligibleOrders target pool (ticks opt)) as [l t].
  simpl in Hall. destruct l as [|o l]; [by intros ?%elem_of_nil|].
  destruct (performComprehensiveBatchAnalysis target (o :: l)) as [ranked|] eqn:Hr;
    simpl; [|by intros ?%elem_of_nil].
  intros Hin. apply elem_of_lookup_imap_1 in Hin as (i & b & -> & Hb).
  apply recommend_wellFormedFor; [done|].
  pose proof (performComprehensiveBatchAnalysis_builtAround _ _ _ Hall Hr) as Hbs.
  rewrite Forall_forall in Hbs. apply Hbs. by eapply list_elem_of_lookup_2.
Qed.

End WithHost.

(** C8: the code at a target above the critical urgency.  With an empty
    cache, the target "T-1" (urgency 95) and two candidates of the same
    SKU give one recommendation, of type "sku_exact", whose orders are
    "T-1", "C-1" and "C-2": it contains an order above the ceiling of 85,
    and [executeBatch] would refuse the very same batch. *)
Theorem findBatchOpportunities_critical_target :
  let r := (@findBatchOpportunities sampleHost urgentTarget calmPool
              newOptimizer).1 in
  success r = true ∧
  map rec_type (batchOpportunities r) = ["sku_exact"%string] ∧
  map (λ rec, map (λ o, (summary_orderNumber o, summary_urgencyScore o))
                  (rec_orders rec))
      (batchOpportunities r)
    = [[("T-1"%string, 95); ("C-1"%string, 10); ("C-2"%string, 20)]] ∧
  validateBatchForExecution (urgentTarget :: calmPool)
    = Some "Batch contains critical urgency orders"%string ∧
  ∃ rec, rec ∈ batchOpportunities r ∧ ¬ wellFormedFor urgentTarget rec.
Proof.
  intros r. split; [reflexivity|]. split; [vm_compute; reflexivity|].
  split; [vm_compute; reflexivity|]. split; [reflexivity|].
  assert (∃ rec, batchOpportunities r = [rec] ∧
                 summary urgentTarget ∈ rec_orders rec) as (rec & Hr & Hin).
  { eexists. split; [vm_compute; reflexivity|]. simpl. left. }
  exists rec. split; [rewrite Hr; left|].
  intros (_ & _ & _ & Hall). specialize (Hall _ Hin).
  vm_compute in Hall. by apply Hall.
Qed.

(** The result cache is keyed by the sorted order numbers of target and
    pool together, so it cannot tell which of them was the target: after
    a request for "A" against "B", "C", "D", a request for "B" against
    "A", "C", "D" is answered from the cache with the batch "A", "C", "D",
    which does not contain "B". *)
Lemma findBatchOpportunities_stale_target :
  let r := (@findBatchOpportunities sampleHost orderBb [orderA; orderC; orderD]
              afterAskingForA).1 in
  generateCacheKey orderBb [orderA; orderC; orderD]
    = generateCacheKey orderA [orderBb; orderC; orderD] ∧
  targetOrder r = Some "A"%string ∧
  map (λ rec, map summary_orderNumber (rec_orders rec)) (batchOpportunities r)
    = [["A"; "C"; "D"]%string] ∧
  ∃ rec, rec ∈ batchOpportunities r ∧ ¬ wellFormedFor orderBb rec.
Proof.
  intros r. split; [vm_compute; reflexivity|].
  split; [vm_compute; reflexivity|]. split; [vm_compute; reflexivity|].
  assert (∃ rec, batchOpportunities r = [rec] ∧
                 map summary_orderNumber (rec_orders rec)
                   = ["A"; "C"; "D"]%string) as (rec & Hr & Hn).
  { eexists. split; vm_compute; reflexivity. }
  exists rec. split; [rewrite Hr; left|].
  intros ((o & Hin & Ho) & _).
  assert (summary_orderNumber o ∈ map summary_orderNumber (rec_orders rec)) as Hm.
  { apply list_elem_of_fmap. by exists o. }
  rewrite Hn, Ho in Hm. simpl in Hm.
  repeat (apply elem_of_cons in Hm as [Hm|Hm]; [discriminate|]).
  by apply elem_of_nil in Hm.
Qed.

End BatchFacts.

Module PackFacts.
Import Pack.

(** *** The transition table *)

Lemma isValidStateTransition_allowed s newStatus :
  isValidStateTransition s newStatus = true ↔ allowedRequest s newStatus.
Proof.
  unfold isValidStateTransition, allowedRequest. rewrite existsb_exists. split.
  - intros (t & Hin & Heq). apply String.eqb_eq in Heq. exists t.
    split; [done|].
    destruct s; simpl in Hin; intuition (subst; constructor).
  - intros (t & Heq & Ha). exists t. split; [|by apply String.eqb_eq].
    destruct Ha; simpl; auto.
Qed.

Lemma stateName_inj s t : stateName s = stateName t → s = t.
Proof. by destruct s, t. Qed.

Lemma stateOfName_stateName s : stateOfName (stateName s) = Some s.
Proof. by destruct s. Qed.

Lemma no_request_from_dispatched newStatus : ¬ allowedRequest DISPATCHED newStatus.
Proof. intros (t & _ & Ha). inversion Ha. Qed.

Lemma pending_to_packed_not_allowed : ¬ allowedRequest PENDING "packed".
Proof.
  intros (t & Hn & Ha). inversion Ha; subst. discriminate.
Qed.

Section WithHost.
Context `{Host}.

Lemma updatePackStatus_invalid n newStatus text w session :
  packSessions w !! n = Some session →
  isValidStateTransition (status session) newStatus = false →
  updatePackStatus n newStatus text w =
    (Thrown ("Invalid state transition from " +:+ stateName (status session)
             +:+ " to " +:+ newStatus), w).
Proof.
  intros Hs Hv. unfold updatePackStatus. rewrite Hs, Hv. reflexivity.
Qed.

Lemma updateOrderStatus_packSessions n s w :
  packSessions (updateOrderStatus n s w) = packSessions w.
Proof.
  unfold updateOrderStatus. destruct (ordersData w); [|done].
  by destruct (List.find _ _).
Qed.

Lemma updateOrderStatus_packHistory n s w :
  packHistory (updateOrderStatus n s w) = packHistory w.
Proof.
  unfold updateOrderStatus. destruct (ordersData w); [|done].
  by destruct (List.find _ _).
Qed.

Lemma recordPackingMetrics_packSessions n d name w :
  packSessions (recordPackingMetrics n d name w) = packSessions w.
Proof.
  unfold recordPackingMetrics. by destruct (workerMetrics w !! name).
Qed.

(** The table is exact on the accepting side as well: an allowed change
    returns the session in its new state; a dispatched session has left
    the active map. *)
Lemma updatePackStatus_accepts n t text w session :
  packSessions w !! n = Some session → allowed (status session) t →
  ∃ session',
    (updatePackStatus n (stateName t) text w).1 = Returned session' ∧
    status session' = t ∧
    packSessions (updatePackStatus n (stateName t) text w).2 !! n
      = if bool_decide (t = DISPATCHED) then None else Some session'.
Proof.
  intros Hs Ha. unfold updatePackStatus. rewrite Hs.
  assert (isValidStateTransition (status session) (stateName t) = true) as ->.
  { apply isValidStateTransition_allowed. by exists t. }
  rewrite stateOfName_stateName. simpl.
  destruct (String.eqb text ""); simpl.
  all: destruct t; simpl;
    try (eexists; split; [reflexivity|]; split; [reflexivity|];
         rewrite updateOrderStatus_packSessions; simpl;
         rewrite ?recordPackingMetrics_packSessions;
         by rewrite lookup_insert_eq).
  all: unfold completePackWorkflow;
    rewrite updateOrderStatus_packSessions; simpl;
    rewrite lookup_insert_eq; simpl;
    rewrite updateOrderStatus_packSessions, !updateOrderStatus_packHistory;
    simpl; rewrite last_snoc; simpl;
    eexists; split; [reflexivity|];
    split; [reflexivity|];
    rewrite ?updateOrderStatus_packSessions; simpl;
    by rewrite lookup_delete_eq.
Qed.

(** C9: a status change that the transition table does not allow is
    answered by throwing "Invalid state transition from ... to ...", and
    the workflow (sessions, history, metrics, orders) is left exactly as
    it was; in particular a request for "packed" on a pending session is
    not allowed, and nothing is allowed once a session is dispatched. *)
Theorem updatePackStatus_rejects n newStatus text w session :
  packSessions w !! n = Some session →
  ¬ allowedRequest (status session) newStatus →
  updatePackStatus n newStatus text w =
    (Thrown ("Invalid state transition from " +:+ stateName (status session)
             +:+ " to " +:+ newStatus), w) ∧
  ¬ allowedRequest PENDING "packed" ∧
  (∀ s, ¬ allowedRequest DISPATCHED s).
Proof.
  intros Hs Hn. split; [|split].
  - apply updatePackStatus_invalid; [done|].
    destruct (isValidStateTransition (status session) newStatus) eqn:Hv; [|done].
    by apply isValidStateTransition_allowed in Hv.
  - apply pending_to_packed_not_allowed.
  - apply no_request_from_dispatched.
Qed.

(** *** Worker metrics *)


Lemma count_num_nonneg c : 0 <= count_num c.
Proof.
  unfold count_num. change 0 with (inject_Z 0). rewrite <- Zle_Qle. lia.
Qed.


Lemma updateOrderStatus_workerMetrics n s w :
  workerMetrics (updateOrderStatus n s w) = workerMetrics w.
Proof.
  unfold updateOrderStatus. destruct (ordersData w); [|done].
  by destruct (List.find _ _).
Qed.

Lemma completePackWorkflow_workerMetrics n w :
  workerMetrics (completePackWorkflow n w) = workerMetrics w.
Proof.
  unfold completePackWorkflow. destruct (packSessions w !! n); [|done].
  simpl. by rewrite updateOrderStatus_workerMetrics.
Qed.


End WithHost.

Import Samples.

Lemma updatePackStatus_rejects_witness :
  @updatePackStatus sampleHost "Z1" "packed" "" pendingZ1 =
    (Thrown "Invalid state transition from pending to packed", pendingZ1).
Proof.
  assert (∃ s, packSessions pendingZ1 !! "Z1" = Some s ∧ status s = PENDING)
    as (s & Hs & Hst).
  { eexists. split; vm_compute; reflexivity. }
  destruct (@updatePackStatus_rejects sampleHost "Z1" "packed" "" pendingZ1 s Hs)
    as [Hw _].
  { rewrite Hst. apply pending_to_packed_not_allowed. }
  rewrite Hst in Hw. exact Hw.
Defined.

(** C10: the code after a reload of the page.  Order "Z1" is started by
    Ann and moved to "packing"; the page is reloaded, and the constructor
    restores the session from localStorage, where its time stamps are
    strings; the session is then moved to "packed".  The duration
    computed from a string and a [Date] is [NaN], and the call of
    [recordPackingMetrics] leaves Ann's accumulator with one pack and
    with [NaN] as total, average, best and worst time: the average is
    not the total over the count as [===] has it, nor between the best
    and the worst time. *)
Theorem recordPackingMetrics_after_reload :
  @reachable sampleHost packedAfterReloadZ1 ∧
  ∃ m, workerMetrics packedAfterReloadZ1 !! "Ann"%string = Some m ∧
       packCount m = 1%nat ∧ recordedDurations m = [NotANumber] ∧
       totalPackTime m = NotANumber ∧ averagePackTime m = NotANumber ∧
       bestTime m = NotANumber ∧ worstTime m = NotANumber ∧
       ¬ metricsConsistent m.
Proof.
  split.
  { unfold packedAfterReloadZ1, reloadedZ1, packingZ1, startedZ1.
    apply reach_update, reach_reload, reach_update, reach_start, reach_new. }
  assert (∃ m, workerMetrics packedAfterReloadZ1 !! "Ann"%string = Some m ∧
               packCount m = 1%nat ∧ recordedDurations m = [NotANumber] ∧
               totalPackTime m = NotANumber ∧ averagePackTime m = NotANumber ∧
               bestTime m = NotANumber ∧ worstTime m = NotANumber)
    as (m & Hm & Hc & Hd & Ht & Ha & Hb & Hw).
  { eexists. split; [vm_compute; reflexivity|]. by vm_compute. }
  exists m. repeat (split; [assumption|]).
  intros [Heq _]. rewrite Ha in Heq. exact Heq.
Qed.

End PackFacts.

(* ===================================================================== *)
(** * Part III. Further properties of the three classes                   *)
(* ===================================================================== *)

Module DPSExtra.
Import DPS DPSFacts Samples.

(** Splits on every comparison of a stepped score table. *)
Ltac split_steps :=
  repeat match goal with
         | |- context [le ?x ?c] =>
             let E := fresh "E" in
             destruct (le x c) eqn:E;
             [apply le_spec in E | apply le_false in E]
         end.

Lemma div10 x : x / 10 == x * (1 # 10).
Proof. reflexivity. Qed.

Section WithHost.
Context `{Host}.

Lemma hours_le d1 d2 :
  (d1 ≤ d2)%Z → inject_Z d1 / msPerHour <= inject_Z d2 / msPerHour.
Proof.
  intros Hd. rewrite Zle_Qle in Hd. unfold msPerHour, Qdiv.
  apply Qmult_le_compat_r; [exact Hd | done].
Qed.

(** X1: the value sub-score lies between 0 and 100 and never decreases
    when the order value increases. *)
Theorem calculateOrderValueScore_monotone v1 v2 :
  v1 <= v2 →
  0 <= calculateOrderValueScore v1 ∧
  calculateOrderValueScore v1 <= calculateOrderValueScore v2 ∧
  calculateOrderValueScore v2 <= 100.
Proof.
  intros Hv. unfold calculateOrderValueScore.
  split; [|split]; split_steps; lra.
Qed.

(** X2: the dispatch sub-score lies between 0 and 100, never increases
    when the dispatch deadline moves later, and is 0 for a deadline 298
    hours or more ahead. *)
Theorem calculateDispatchDeadlineScore_monotone now e1 e2 :
  (e1 ≤ e2)%Z →
  0 <= calculateDispatchDeadlineScore now e2 ∧
  calculateDispatchDeadlineScore now e2 <= calculateDispatchDeadlineScore now e1 ∧
  calculateDispatchDeadlineScore now e1 <= 100 ∧
  ((now + 298 * 3600000 ≤ e2)%Z → calculateDispatchDeadlineScore now e2 == 0).
Proof.
  intros He. unfold calculateDispatchDeadlineScore.
  pose proof (hours_le (e1 - now) (e2 - now) ltac:(lia)) as Hh.
  set (h1 := inject_Z (e1 - now) / msPerHour) in *.
  set (h2 := inject_Z (e2 - now) / msPerHour) in *.
  assert ((now + 298 * 3600000 ≤ e2)%Z → 298 <= h2) as Hfar.
  { intros Hf. subst h2. unfold msPerHour.
    apply Qle_shift_div_l; [done|].
    assert (inject_Z (298 * 3600000) <= inject_Z (e2 - now)) as Hq
      by (rewrite <- Zle_Qle; lia).
    exact Hq. }
  pose proof (Q.max_spec 0 (25 - (h1 - 48) / 10)) as M1.
  pose proof (Q.max_spec 0 (25 - (h2 - 48) / 10)) as M2.
  set (m1 := Qmax 0 (25 - (h1 - 48) / 10)) in *.
  set (m2 := Qmax 0 (25 - (h2 - 48) / 10)) in *.
  rewrite !div10 in M1, M2.
  split; [|split; [|split]].
  - split_steps; lra.
  - split_steps; lra.
  - split_steps; lra.
  - intros Hf. specialize (Hfar Hf). split_steps; lra.
Qed.

(** X3: the age sub-score never decreases as the order gets older, and
    the delivery sub-score never increases as the promised delivery date
    moves later; both lie between 10 and 100. *)
Theorem age_and_delivery_monotone now d1 d2 orderDate b1 b2 :
  (d2 ≤ d1)%Z → (b1 ≤ b2)%Z →
  (10 <= calculateOrderAgeScore now d1 ∧
   calculateOrderAgeScore now d1 <= calculateOrderAgeScore now d2 ∧
   calculateOrderAgeScore now d2 <= 100) ∧
  (10 <= calculateDeliveryPromiseScore orderDate (Some b2) ∧
   calculateDeliveryPromiseScore orderDate (Some b2)
     <= calculateDeliveryPromiseScore orderDate (Some b1) ∧
   calculateDeliveryPromiseScore orderDate (Some b1) <= 100).
Proof.
  intros Hd Hb. split.
  - unfold calculateOrderAgeScore.
    pose proof (hours_le (now - d1) (now - d2) ltac:(lia)) as Hh.
    set (h1 := inject_Z (now - d1) / msPerHour) in *.
    set (h2 := inject_Z (now - d2) / msPerHour) in *.
    split; [|split]; split_steps; lra.
  - unfold calculateDeliveryPromiseScore.
    pose proof (hours_le (b1 - orderDate) (b2 - orderDate) ltac:(lia)) as Hh.
    set (h1 := inject_Z (b1 - orderDate) / msPerHour) in *.
    set (h2 := inject_Z (b2 - orderDate) / msPerHour) in *.
    split; [|split]; split_steps; lra.
Qed.

Lemma Math_round_monotone x y : x <= y → Math_round x <= Math_round y.
Proof.
  intros Hxy. unfold Math_round. rewrite <- Zle_Qle.
  apply Qfloor_resp_le. lra.
Qed.

Lemma clampScore_monotone x y : x <= y → clampScore x <= clampScore y.
Proof.
  intros Hxy. unfold clampScore.
  apply Q.max_le_compat_l, Q.min_le_compat_l.
  unfold Qdiv. apply Qmult_le_compat_r; [|done].
  apply Math_round_monotone. lra.
Qed.

(** X4: all else equal, an order with a higher total never gets a lower
    score: for two validated orders with the same three dates, scored at
    the same instant without a cache hit, the totals order the scores. *)
Theorem calculateDPS_monotone_in_total o1 o2 q1 q2 :
  validateOrderForDPS o1 = true → validateOrderForDPS o2 = true →
  orderDate o1 = orderDate o2 →
  expectedDispatch o1 = expectedDispatch o2 →
  deliveryBy o1 = deliveryBy o2 →
  currentTime q1 = currentTime q2 →
  cacheHit (calculationCache q1) (getCacheKey o1 (currentTime q1))
           (currentTime q1) = None →
  cacheHit (calculationCache q2) (getCacheKey o2 (currentTime q2))
           (currentTime q2) = None →
  orZero (parseFloat (get (orderTotal o1)))
    <= orZero (parseFloat (get (orderTotal o2))) →
  (calculateDPS o1 q1).1 <= (calculateDPS o2 q2).1.
Proof.
  intros V1 V2 Ed Ee Eb Et M1 M2 Hv.
  rewrite (calculateDPS_miss o1 q1 V1 M1), (calculateDPS_miss o2 q2 V2 M2).
  rewrite Et. unfold computeDPS. rewrite Ed, Ee, Eb.
  destruct (parseDate (get (orderDate o2))); [|simpl; lra].
  destruct (parseDate (get (expectedDispatch o2))); [|simpl; lra].
  cbn [fst]. apply clampScore_monotone. unfold weightedScore.
  assert (calculateOrderValueScore (orZero (parseFloat (get (orderTotal o1))))
          <= calculateOrderValueScore
               (orZero (parseFloat (get (orderTotal o2))))) as Hm.
  { unfold calculateOrderValueScore. split_steps; lra. }
  lra.
Qed.

(** *** The score cache *)

Lemma calculateDPS_stores o q :
  validateOrderForDPS o = true →
  is_Some (parseDate (get (orderDate o))) →
  is_Some (parseDate (get (expectedDispatch o))) →
  cacheHit (calculationCache q) (getCacheKey o (currentTime q)) (currentTime q)
    = None →
  calculationCache (calculateDPS o q).2 !! getCacheKey o (currentTime q)
    = Some {| score := (calculateDPS o q).1; timestamp := currentTime q |}.
Proof.
  intros Hv [d Hd] [e He] Hm. unfold calculateDPS, currentTime in *.
  rewrite Hv. simpl. rewrite Hm. unfold computeDPS. rewrite Hd, He. simpl.
  by rewrite lookup_insert_eq.
Qed.

(** X5: a computed score is served again from the cache: after a
    validated order with parseable dates has been scored afresh, scoring
    any validated order with the same order number, at an instant of the
    same hour less than five minutes later, returns that same score,
    whatever the other fields of the second order are. *)
Theorem calculateDPS_cached_again o o' q k :
  validateOrderForDPS o = true → validateOrderForDPS o' = true →
  orderNumber o' = orderNumber o →
  is_Some (parseDate (get (orderDate o))) →
  is_Some (parseDate (get (expectedDispatch o))) →
  cacheHit (calculationCache q) (getCacheKey o (currentTime q)) (currentTime q)
    = None →
  (clock k / (1000 * 60 * 60) = currentTime q / (1000 * 60 * 60))%Z →
  (clock k - currentTime q < cacheExpiry)%Z →
  (calculateDPS o' (set_ticks k (calculateDPS o q).2)).1 = (calculateDPS o q).1.
Proof.
  intros Hv Hv' Hn Hd He Hm Hh Hlt.
  pose proof (calculateDPS_stores o q Hv Hd He Hm) as Hs.
  unfold calculateDPS at 1. rewrite Hv'. simpl.
  assert (getCacheKey o' (clock k) = getCacheKey o (currentTime q)) as ->.
  { unfold getCacheKey. by rewrite Hn, Hh. }
  unfold cacheHit. rewrite Hs. simpl.
  by rewrite (proj2 (Z.ltb_lt _ _) Hlt).
Qed.

Lemma cacheHit_after_sweep c key t0 now :
  (t0 ≤ now)%Z →
  cacheHit (filter (λ kv, ¬ (cacheExpiry < t0 - timestamp kv.2)%Z) c) key now
    = cacheHit c key now.
Proof.
  intros Ht. unfold cacheHit.
  destruct (c !! key) as [e|] eqn:He.
  - destruct (decide (cacheExpiry < t0 - timestamp e)%Z) as [Hold|Hyoung].
    + assert (filter (λ kv, ¬ (cacheExpiry < t0 - timestamp kv.2)%Z) c !! key
              = None) as ->.
      { apply map_lookup_filter_None. right. intros e' He'.
        rewrite He in He'. injection He' as <-. simpl. by intros []. }
      destruct (now - timestamp e <? cacheExpiry)%Z eqn:E; [|done].
      apply Z.ltb_lt in E. lia.
    + assert (filter (λ kv, ¬ (cacheExpiry < t0 - timestamp kv.2)%Z) c !! key
              = Some e) as ->; [|done].
      by apply map_lookup_filter_Some.
  - assert (filter (λ kv, ¬ (cacheExpiry < t0 - timestamp kv.2)%Z) c !! key
            = None) as ->; [|done].
    apply map_lookup_filter_None. by left.
Qed.

(** X6: the periodic sweep of the cache cannot be observed through
    [calculateDPS]: at any later reading of a clock that has not gone
    back since the sweep, every order scores the same on the swept queue
    as on the queue left unswept. *)
Theorem sweepCache_unobservable o q k :
  (currentTime q ≤ clock k)%Z →
  (calculateDPS o (set_ticks k (sweepCache q))).1
    = (calculateDPS o (set_ticks k q)).1.
Proof.
  intros Ht. unfold calculateDPS, sweepCache, currentTime in *.
  destruct (validateOrderForDPS o); simpl; [|done].
  rewrite cacheHit_after_sweep by done.
  destruct (cacheHit _ _ _); [done|].
  match goal with
  | |- (let '(_, _) := computeDPS ?o ?n ?c1 in _).1
       = (let '(_, _) := computeDPS ?o ?n ?c2 in _).1 =>
      pose proof (computeDPS_score_cache_independent o n c1 c2) as Hc;
      destruct (computeDPS o n c1), (computeDPS o n c2)
  end.
  exact Hc.
Qed.

(** *** Loading orders *)

Lemma calculateDPS_dpsCalls o q :
  dpsCalls (calculateDPS o q).2 = S (dpsCalls q).
Proof.
  unfold calculateDPS. destruct (validateOrderForDPS o); simpl; [|done].
  destruct (cacheHit _ _ _); simpl; [done|]. by destruct (computeDPS _ _ _).
Qed.

Lemma rescore_spec o q :
  cacheInRange (calculationCache q) →
  order (rescore o q).1 = o ∧
  dpsCalls (rescore o q).2 = S (dpsCalls q) ∧
  (0 <= dpsScore (scored (rescore o q).1) ∧
   dpsScore (scored (rescore o q).1) <= 100) ∧
  (validateOrderForDPS o = false → dpsScore (scored (rescore o q).1) = 0).
Proof.
  intros Hc. unfold rescore.
  pose proof (calculateDPS_dpsCalls o q) as Hn.
  pose proof (calculateDPS_result_range o q Hc) as Hr.
  pose proof (calculateDPS_not_validated o q) as Hz.
  destruct (calculateDPS o q) as [dps q1].
  pose proof (isOverdue_dpsCalls o q1) as Hn'.
  destruct (isOverdue o q1) as [ov q2]. simpl in *.
  split; [done|]. split; [congruence|]. by split.
Qed.

Lemma mapOrders_all_dirty l q :
  cacheInRange (calculationCache q) →
  (∀ o, o ∈ l → orderNumber (supplied o) ∈ dirtyOrders q) →
  map order (mapOrders l q).1 = map supplied l ∧
  dpsCalls (mapOrders l q).2 = (dpsCalls q + length l)%nat ∧
  Forall (λ r, (0 <= dpsScore (scored r) ∧ dpsScore (scored r) <= 100) ∧
               (validateOrderForDPS (order r) = false →
                dpsScore (scored r) = 0))
         (mapOrders l q).1.
Proof.
  revert q. induction l as [|o l IH]; intros q Hc Hd; simpl.
  - split; [done|]. split; [lia|constructor].
  - assert (scoreOrder o q = rescore (supplied o) q) as Hs.
    { unfold scoreOrder. destruct (derived o); [|done].
      rewrite bool_decide_eq_true_2; [done|]. apply Hd. left. }
    pose proof (scoreOrder_frame o q) as (_ & _ & Hdirty & _).
    pose proof (scoreOrder_cacheInRange o q Hc) as Hc1.
    rewrite Hs in *.
    pose proof (rescore_spec (supplied o) q Hc) as (Ho & Hn & Hr & Hz).
    destruct (rescore (supplied o) q) as [r q1]. simpl in *.
    destruct (IH q1 Hc1) as (Hm & Hn' & Hall).
    { intros o' Ho'. rewrite Hdirty. apply Hd. by right. }
    destruct (mapOrders l q1) as [rs q2]. simpl in *.
    split; [by rewrite Ho, Hm|]. split; [lia|].
    constructor; [|done]. split; [done|]. by rewrite Ho.
Qed.

Lemma orderNumbers_elem l o :
  o ∈ l → orderNumber (supplied o) ∈ orderNumbers l.
Proof.
  intros Ho. unfold orderNumbers. apply elem_of_list_to_set.
  apply list_elem_of_fmap. by exists o.
Qed.

Lemma updateQueue_load_unfold l q :
  isCalculating q = false → l ≠ [] →
  updateQueue (Some l) q =
    let q0 := set_dirtyOrders (orderNumbers l)
                (set_orders l (set_isCalculating true q)) in
    let sorted := Array_sort compareOrders (mapOrders l q0).1 in
    let q1 := set_dirtyOrders ∅ (set_priorityQueue sorted (mapOrders l q0).2) in
    (sorted,
     set_isCalculating false
       (updatePerformanceMetrics
          (set_lastCalculation (Some (clock (ticks q1)))
             (set_ticks (S (ticks q1)) q1)))).
Proof.
  intros Hi Hne. unfold updateQueue. rewrite Hi. simpl.
  assert (bool_decide (size (orderNumbers l) = 0%nat) = false) as ->.
  { apply bool_decide_eq_false_2. intros Hz. apply size_empty_inv in Hz.
    destruct l as [|o l]; [done|].
    pose proof (orderNumbers_elem (o :: l) o ltac:(left)) as Hin.
    rewrite Hz in Hin. by apply not_elem_of_empty in Hin. }
  simpl. by destruct (mapOrders l _).
Qed.

(** X7: loading a non-empty list of orders scores every one of them,
    once: the ranking returned holds exactly the supplied orders,
    [calculateDPS] has been called as many times as there are orders, the
    list is stored, the dirty set is empty and the ranking is kept. *)
Theorem updateQueue_load l q :
  reachable q → l ≠ [] →
  map order (updateQueue (Some l) q).1 ≡ₚ map supplied l ∧
  dpsCalls (updateQueue (Some l) q).2 = (dpsCalls q + length l)%nat ∧
  orders (updateQueue (Some l) q).2 = l ∧
  dirtyOrders (updateQueue (Some l) q).2 = ∅ ∧
  priorityQueue (updateQueue (Some l) q).2 = (updateQueue (Some l) q).1.
Proof.
  intros Hr Hne. destruct (reachable_invariant q Hr) as (Hc & Hi & _).
  rewrite (updateQueue_load_unfold l q Hi Hne). cbv zeta.
  set (q0 := set_dirtyOrders (orderNumbers l)
               (set_orders l (set_isCalculating true q))).
  destruct (mapOrders_all_dirty l q0 Hc) as (Hm & Hn & _).
  { intros o Ho. by apply orderNumbers_elem. }
  pose proof (mapOrders_frame l q0) as (Ho & _).
  simpl. split; [|split; [|split; [|split]]]; try done.
  by rewrite JSFacts.Array_sort_Permutation, Hm.
Qed.

(** X8: among freshly loaded orders, every score in the ranking lies
    between 0 and 100, and an order that fails the required-field
    validation is ranked with score exactly 0: one bad record does not
    stop the others from being scored. *)
Theorem updateQueue_load_scores l q r :
  reachable q → l ≠ [] → r ∈ (updateQueue (Some l) q).1 →
  (0 <= dpsScore (scored r) ∧ dpsScore (scored r) <= 100) ∧
  (validateOrderForDPS (order r) = false → dpsScore (scored r) = 0).
Proof.
  intros Hr Hne. destruct (reachable_invariant q Hr) as (Hc & Hi & _).
  rewrite (updateQueue_load_unfold l q Hi Hne). cbv zeta. simpl.
  set (q0 := set_dirtyOrders (orderNumbers l)
               (set_orders l (set_isCalculating true q))).
  destruct (mapOrders_all_dirty l q0 Hc) as (_ & _ & Hall).
  { intros o Ho. by apply orderNumbers_elem. }
  rewrite JSFacts.Array_sort_Permutation.
  rewrite Forall_forall in Hall. apply Hall.
Qed.

(** X9: loading an empty list never changes the ranking: the call
    returns the ranking the queue had before, however long, scores
    nothing, and leaves the queue with no orders behind that ranking. *)
Theorem updateQueue_load_nothing q :
  reachable q →
  (updateQueue (Some []) q).1 = priorityQueue q ∧
  priorityQueue (updateQueue (Some []) q).2 = priorityQueue q ∧
  orders (updateQueue (Some []) q).2 = [] ∧
  dpsCalls (updateQueue (Some []) q).2 = dpsCalls q.
Proof.
  intros Hr. destruct (reachable_invariant q Hr) as (_ & Hi & _).
  unfold updateQueue. rewrite Hi. simpl.
  destruct (priorityQueue q) as [|r rs] eqn:Hp; simpl; by rewrite ?Hp.
Qed.

(** X10: an overdue order is never ranked below "high": for a validated
    order with parseable dates whose dispatch deadline has passed, a
    freshly computed score is classified "critical" or "high". *)
Theorem overdue_urgency_level o q e :
  validateOrderForDPS o = true →
  is_Some (parseDate (get (orderDate o))) →
  parseDate (get (expectedDispatch o)) = Some e →
  (e < currentTime q)%Z →
  cacheHit (calculationCache q) (getCacheKey o (currentTime q)) (currentTime q)
    = None →
  getUrgencyLevel (calculateDPS o q).1 = "critical"%string ∨
  getUrgencyLevel (calculateDPS o q).1 = "high"%string.
Proof.
  intros Hv Hd He Hlt Hm.
  pose proof (calculateDPS_overdue_floor o q e Hv Hd He Hlt Hm) as Hf.
  unfold getUrgencyLevel.
  destruct (ge (calculateDPS o q).1 80); [by left|]. right.
  assert (ge (calculateDPS o q).1 60 = true) as ->; [|done].
  apply Qle_bool_iff. lra.
Qed.

(** *** Reading the ranking *)

Lemma annotateFrom_spec l i q :
  map top_order (annotateFrom i l q).1 = l ∧
  Forall (λ t, urgencyLevel t = getUrgencyLevel (dpsScore (scored (top_order t)))
               ∧ (0 ≤ dispatchCountdown t)%Z)
         (annotateFrom i l q).1.
Proof.
  revert i q. induction l as [|r l IH]; intros i q; simpl; [done|].
  destruct (getTimeToDispatch (order r) q) as [time q1].
  assert (0 ≤ (getDispatchCountdown (order r) q1).1)%Z as Hc.
  { unfold getDispatchCountdown. simpl.
    destruct (parseDate _); simpl; lia. }
  destruct (getDispatchCountdown (order r) q1) as [countdown q2].
  destruct (IH (S i) q2) as [Hm Hall].
  destruct (annotateFrom (S i) l q2) as [rest q3]. simpl in *.
  split; [by rewrite Hm|]. by constructor.
Qed.

Lemma rankingSorted_take n l : rankingSorted l → rankingSorted (take n l).
Proof.
  intros Hs i a b Ha Hb.
  apply lookup_take_Some in Ha as [Ha _]. apply lookup_take_Some in Hb as [Hb _].
  by apply (Hs i).
Qed.

(** X11: the list shown by [getTopPriorityOrders] is the head of the
    ranking, in ranking order: for a count that is not negative it holds
    the first [count] entries (all of them if there are fewer), scores do
    not increase along it and ties obey the tie-break, every entry carries
    the urgency level of its own score, and no countdown is negative. *)
Theorem getTopPriorityOrders_head count q :
  reachable q → (0 ≤ count)%Z →
  map top_order (getTopPriorityOrders count q).1
    = take (Z.to_nat count) (priorityQueue q) ∧
  rankingSorted (map top_order (getTopPriorityOrders count q).1) ∧
  ∀ t, t ∈ (getTopPriorityOrders count q).1 →
       urgencyLevel t = getUrgencyLevel (dpsScore (scored (top_order t))) ∧
       (0 ≤ dispatchCountdown t)%Z.
Proof.
  intros Hr Hc. destruct (reachable_invariant q Hr) as (_ & _ & Hs).
  unfold getTopPriorityOrders.
  destruct (priorityQueue q) as [|r rs] eqn:Hp.
  - simpl. rewrite take_nil. split; [done|]. split; [apply rankingSorted_nil|].
    intros t Ht. by apply elem_of_nil in Ht.
  - destruct (annotateFrom_spec (slice0 count (r :: rs)) 0 q) as [Hm Hall].
    rewrite Hm. rewrite Forall_forall in Hall.
    assert (slice0 count (r :: rs) = take (Z.to_nat count) (r :: rs)) as Hsl.
    { unfold slice0. rewrite (proj2 (Z.ltb_ge _ _) Hc).
      destruct (Z.min_spec count (Z.of_nat (length (r :: rs))))
        as [[_ ->]|[Hle ->]]; [done|].
      rewrite Nat2Z.id. rewrite !take_ge; [done|lia|lia]. }
    split; [done|]. split; [|done]. rewrite Hsl. by apply rankingSorted_take.
Qed.

Lemma distributionTotal_countLevel d r :
  distributionTotal (countLevel d r) = S (distributionTotal d).
Proof.
  unfold distributionTotal, countLevel.
  set (level := getUrgencyLevel _).
  destruct (d !! level) as [n|] eqn:Hl; simpl.
  - rewrite <- (insert_delete_eq d level (n + 1)%nat) at 1.
    rewrite map_fold_insert_L; [|intros; lia|apply lookup_delete_eq].
    rewrite (map_fold_delete_L _ _ level n d); [lia|intros; lia|done].
  - rewrite map_fold_insert_L; [lia|intros; lia|done].
Qed.

Lemma distributionTotal_foldl l d :
  distributionTotal (foldl countLevel d l) = (distributionTotal d + length l)%nat.
Proof.
  revert d. induction l as [|r l IH]; intros d; simpl; [lia|].
  rewrite IH, distributionTotal_countLevel. lia.
Qed.

Lemma rankingSorted_le l i j a b :
  rankingSorted l → (i ≤ j)%nat → l !! i = Some a → l !! j = Some b →
  dpsScore (scored b) <= dpsScore (scored a).
Proof.
  intros Hs Hij Ha. revert b. induction Hij as [|j Hij IH]; intros b Hb.
  - rewrite Ha in Hb. injection Hb as <-. apply Qle_refl.
  - destruct (lookup_lt_is_Some_2 l j) as [c Hc].
    { apply lookup_lt_Some in Hb. lia. }
    apply Qle_trans with (dpsScore (scored c)); [|by apply IH].
    by apply (Hs j c b).
Qed.

(** X12: the statistics of a queue add up: the total is the length of the
    ranking, the overdue orders are at most that many, and the counts of
    the urgency distribution sum to the total, so every ranked order is
    counted under exactly one level. *)
Theorem getQueueStats_counts q :
  totalOrders (getQueueStats q) = length (priorityQueue q) ∧
  (overdueCount (getQueueStats q) ≤ totalOrders (getQueueStats q))%nat ∧
  distributionTotal (urgencyDistribution (getQueueStats q))
    = totalOrders (getQueueStats q).
Proof.
  unfold getQueueStats. destruct (priorityQueue q) as [|r rs] eqn:Hp; simpl.
  - split; [done|]. split; [lia|]. unfold distributionTotal.
    by rewrite map_fold_empty.
  - split; [done|]. split.
    + pose proof (List.filter_length_le
                    (λ r, isOverdueFlag (scored r)) (r :: rs)) as Hl.
      simpl in Hl. exact Hl.
    + change (foldl countLevel (countLevel ∅ r) rs)
        with (foldl countLevel ∅ (r :: rs)).
      rewrite distributionTotal_foldl. unfold distributionTotal.
      rewrite map_fold_empty. simpl. lia.
Qed.

(** X13: the two extreme scores of the statistics bound every score of
    the ranking: on any queue reached by calls of the methods, each ranked
    order scores at least [lowestDPSScore] and at most [topDPSScore]. *)
Theorem getQueueStats_extremes q r :
  reachable q → r ∈ priorityQueue q →
  ∃ top lowest,
    topDPSScore (getQueueStats q) = Some top ∧
    lowestDPSScore (getQueueStats q) = Some lowest ∧
    lowest <= dpsScore (scored r) ∧ dpsScore (scored r) <= top.
Proof.
  intros Hr Hin. destruct (reachable_invariant q Hr) as (_ & _ & Hs).
  apply list_elem_of_lookup_1 in Hin as [i Hi].
  unfold getQueueStats. destruct (priorityQueue q) as [|f rs] eqn:Hp.
  { by rewrite lookup_nil in Hi. }
  destruct (last (f :: rs)) as [z|] eqn:Hz.
  2:{ by apply last_None in Hz. }
  exists (dpsScore (scored f)), (dpsScore (scored z)).
  split; [done|]. split; [done|].
  rewrite last_lookup in Hz. split.
  - apply (rankingSorted_le (f :: rs) i (pred (length (f :: rs))) r z);
      try done.
    apply lookup_lt_Some in Hi. lia.
  - apply (rankingSorted_le (f :: rs) 0 i f r); try done. lia.
Qed.

End WithHost.

(** *** The properties above at the sample orders *)

Lemma calculateOrderValueScore_monotone_witness :
  20 <= 1500 ∧
  0 <= calculateOrderValueScore 20 ∧
  calculateOrderValueScore 20 <= calculateOrderValueScore 1500 ∧
  calculateOrderValueScore 1500 <= 100.
Proof.
  assert (20 <= 1500) as Hv by (vm_compute; discriminate).
  split; [exact Hv|].
  exact (calculateOrderValueScore_monotone 20 1500 Hv).
Defined.

Lemma calculateDispatchDeadlineScore_monotone_witness :
  (t0 - hour ≤ t0 + 300 * hour)%Z ∧
  0 <= calculateDispatchDeadlineScore t0 (t0 + 300 * hour)%Z ∧
  calculateDispatchDeadlineScore t0 (t0 + 300 * hour)%Z
    <= calculateDispatchDeadlineScore t0 (t0 - hour)%Z ∧
  calculateDispatchDeadlineScore t0 (t0 - hour)%Z <= 100 ∧
  ((t0 + 298 * 3600000 ≤ t0 + 300 * hour)%Z →
   calculateDispatchDeadlineScore t0 (t0 + 300 * hour)%Z == 0).
Proof.
  assert (t0 - hour ≤ t0 + 300 * hour)%Z as He by (vm_compute; discriminate).
  split; [exact He|].
  exact (calculateDispatchDeadlineScore_monotone t0 (t0 - hour)%Z
           (t0 + 300 * hour)%Z He).
Defined.

Lemma age_and_delivery_monotone_witness :
  (t0 - 26 * hour ≤ t0 - 2 * hour)%Z ∧ (t0 + 24 * hour ≤ t0 + 144 * hour)%Z ∧
  (10 <= calculateOrderAgeScore t0 (t0 - 2 * hour)%Z ∧
   calculateOrderAgeScore t0 (t0 - 2 * hour)%Z
     <= calculateOrderAgeScore t0 (t0 - 26 * hour)%Z ∧
   calculateOrderAgeScore t0 (t0 - 26 * hour)%Z <= 100) ∧
  (10 <= calculateDeliveryPromiseScore t0 (Some (t0 + 144 * hour)%Z) ∧
   calculateDeliveryPromiseScore t0 (Some (t0 + 144 * hour)%Z)
     <= calculateDeliveryPromiseScore t0 (Some (t0 + 24 * hour)%Z) ∧
   calculateDeliveryPromiseScore t0 (Some (t0 + 24 * hour)%Z) <= 100).
Proof.
  assert (t0 - 26 * hour ≤ t0 - 2 * hour)%Z as Hd by (vm_compute; discriminate).
  assert (t0 + 24 * hour ≤ t0 + 144 * hour)%Z as Hb
    by (vm_compute; discriminate).
  split; [exact Hd|]. split; [exact Hb|].
  exact (age_and_delivery_monotone t0 (t0 - 2 * hour)%Z (t0 - 26 * hour)%Z t0
           (t0 + 24 * hour)%Z (t0 + 144 * hour)%Z Hd Hb).
Defined.

Lemma calculateDPS_monotone_in_total_witness :
  (@calculateDPS sampleHost scenarioLow newQueue).1
    <= (@calculateDPS sampleHost scenarioA newQueue).1.
Proof.
  apply (@calculateDPS_monotone_in_total sampleHost scenarioLow scenarioA
           newQueue newQueue); try reflexivity.
  vm_compute. discriminate.
Defined.

Lemma calculateDPS_cached_again_witness :
  (@calculateDPS sampleHost cheapA
     (set_ticks 5 (@calculateDPS sampleHost scenarioA newQueue).2)).1
    = (@calculateDPS sampleHost scenarioA newQueue).1.
Proof.
  apply (@calculateDPS_cached_again sampleHost scenarioA cheapA newQueue 5);
    try reflexivity; eexists; reflexivity.
Defined.

Lemma sweepCache_unobservable_witness :
  (@calculateDPS sampleHost cheapA
     (set_ticks 7 (@sweepCache sampleHost afterScenarioA))).1
    = (@calculateDPS sampleHost cheapA (set_ticks 7 afterScenarioA)).1.
Proof.
  apply (@sweepCache_unobservable sampleHost cheapA afterScenarioA 7).
  vm_compute. discriminate.
Defined.

Lemma updateQueue_load_witness :
  map order (@updateQueue sampleHost (Some sampleOrders) newQueue).1
    ≡ₚ map supplied sampleOrders ∧
  dpsCalls (@updateQueue sampleHost (Some sampleOrders) newQueue).2
    = (dpsCalls newQueue + length sampleOrders)%nat ∧
  orders (@updateQueue sampleHost (Some sampleOrders) newQueue).2
    = sampleOrders ∧
  dirtyOrders (@updateQueue sampleHost (Some sampleOrders) newQueue).2 = ∅ ∧
  priorityQueue (@updateQueue sampleHost (Some sampleOrders) newQueue).2
    = (@updateQueue sampleHost (Some sampleOrders) newQueue).1.
Proof.
  assert (@reachable sampleHost newQueue) as Hr by apply reach_new.
  assert (sampleOrders ≠ []) as Hne by discriminate.
  exact (@updateQueue_load sampleHost sampleOrders newQueue Hr Hne).
Defined.

Lemma updateQueue_load_scores_witness :
  0 <= dpsScore (scored rankedB) ∧ dpsScore (scored rankedB) <= 100.
Proof.
  assert (@reachable sampleHost newQueue) as Hr by apply reach_new.
  assert (sampleOrders ≠ []) as Hne by discriminate.
  assert (rankedB ∈ (@updateQueue sampleHost (Some sampleOrders) newQueue).1)
    as Hin.
  { apply (list_elem_of_lookup_2 _ 2). vm_compute. reflexivity. }
  destruct (@updateQueue_load_scores sampleHost sampleOrders newQueue rankedB
              Hr Hne Hin) as [Hrange _].
  exact Hrange.
Defined.

Lemma updateQueue_load_nothing_witness :
  (@updateQueue sampleHost (Some []) loadedQueue).1 = priorityQueue loadedQueue.
Proof.
  assert (@reachable sampleHost loadedQueue) as Hr
    by apply reach_updateQueue, reach_new.
  destruct (@updateQueue_load_nothing sampleHost loadedQueue Hr) as [Hsame _].
  exact Hsame.
Defined.

Lemma overdue_urgency_level_witness :
  getUrgencyLevel (@calculateDPS sampleHost overdueOrder newQueue).1
    = "critical"%string ∨
  getUrgencyLevel (@calculateDPS sampleHost overdueOrder newQueue).1
    = "high"%string.
Proof.
  apply (@overdue_urgency_level sampleHost overdueOrder newQueue (t0 - hour));
    try reflexivity. eexists; reflexivity.
Defined.

Lemma getTopPriorityOrders_head_witness :
  map top_order (@getTopPriorityOrders sampleHost 2 loadedQueue).1
    = take (Z.to_nat 2) (priorityQueue loadedQueue).
Proof.
  assert (@reachable sampleHost loadedQueue) as Hr
    by apply reach_updateQueue, reach_new.
  assert (0 ≤ 2)%Z as Hc by discriminate.
  destruct (@getTopPriorityOrders_head sampleHost 2 loadedQueue Hr Hc)
    as [Hhead _].
  exact Hhead.
Defined.

Lemma getQueueStats_extremes_witness :
  ∃ top lowest,
    topDPSScore (getQueueStats loadedQueue) = Some top ∧
    lowestDPSScore (getQueueStats loadedQueue) = Some lowest ∧
    lowest <= dpsScore (scored rankedB) ∧ dpsScore (scored rankedB) <= top.
Proof.
  assert (@reachable sampleHost loadedQueue) as Hr
    by apply reach_updateQueue, reach_new.
  assert (rankedB ∈ priorityQueue loadedQueue) as Hin.
  { apply (list_elem_of_lookup_2 _ 2). vm_compute. reflexivity. }
  exact (@getQueueStats_extremes sampleHost loadedQueue rankedB Hr Hin).
Defined.

End DPSExtra.

Module PackExtra.
Import Pack DPSFacts PackFacts Samples.

Section WithHost.
Context `{Host}.

Lemma calculatePackPriority_state o w :
  (calculatePackPriority o w).2 = set_ticks (S (ticks w)) w.
Proof.
  unfold calculatePackPriority. simpl.
  destruct (order_expectedDispatch o); [|done].
  by repeat destruct (_ : bool).
Qed.

Lemma find_setFirstStatus n st now l o :
  List.find (λ o, String.eqb (order_orderNumber o) n) l = Some o →
  ∃ o', List.find (λ o, String.eqb (order_orderNumber o) n)
                  (setFirstStatus n st now l) = Some o' ∧
        order_status o' = st ∧ order_orderNumber o' = order_orderNumber o.
Proof.
  induction l as [|x l IH]; simpl; [done|].
  destruct (String.eqb (order_orderNumber x) n) eqn:E; simpl.
  - intros [= <-]. rewrite E. by eexists.
  - rewrite E. apply IH.
Qed.

Lemma findOrderByNumber_updateOrderStatus n st w o :
  findOrderByNumber n w = Some o →
  ∃ o', findOrderByNumber n (updateOrderStatus n st w) = Some o' ∧
        order_status o' = st.
Proof.
  unfold findOrderByNumber, updateOrderStatus.
  destruct (ordersData w) as [l|] eqn:Hd; [|done]. intros Hf.
  rewrite Hf. simpl.
  destruct (find_setFirstStatus n st (clock (ticks w)) l o Hf) as (o' & Ho & Hs & _).
  exists o'. by rewrite Ho.
Qed.

(** What a successful start returns and leaves behind. *)
Lemma startPackWorkflow_state n name w o :
  findOrderByNumber n w = Some o → packSessions w !! n = None →
  ∃ session,
    (startPackWorkflow n name w).1 = Returned session ∧
    orderNumber session = n ∧ workerName session = name ∧
    status session = PICKING ∧
    estimatedDuration session = estimatePackTime o ∧
    packSessions (startPackWorkflow n name w).2
      = <[n := session]> (packSessions w) ∧
    order_status <$> findOrderByNumber n (startPackWorkflow n name w).2
      = Some "picking"%string ∧
    packHistory (startPackWorkflow n name w).2 = packHistory w.
Proof.
  intros Hf Hs. unfold startPackWorkflow. rewrite Hf, Hs. simpl.
  pose proof (calculatePackPriority_state o
                (set_ticks (S (S (S (ticks w)))) w)) as Hp.
  destruct (calculatePackPriority o _) as [prio w1]. simpl in Hp. subst w1.
  unfold savePackWorkflowState.
  eexists. split; [reflexivity|]. simpl.
  repeat (split; [reflexivity|]).
  split; [by rewrite updateOrderStatus_packSessions|].
  split; [|by rewrite updateOrderStatus_packHistory].
  change (findOrderByNumber n (set_storage ?st ?w0))
    with (findOrderByNumber n w0).
  match goal with
  | |- context [updateOrderStatus n ?st ?w'] =>
      destruct (findOrderByNumber_updateOrderStatus n st w' o Hf)
        as (o' & -> & Hst)
  end.
  simpl. by rewrite Hst.
Qed.

(** X14: starting an order that is on file and not being packed yet
    returns a new session in state "picking" under the given worker, with
    the estimate of [estimatePackTime]; the session is filed under the
    order number, the other sessions are left alone, and the order itself
    now has status "picking". *)
Theorem startPackWorkflow_starts n name w o :
  findOrderByNumber n w = Some o → packSessions w !! n = None →
  ∃ session,
    (startPackWorkflow n name w).1 = Returned session ∧
    orderNumber session = n ∧ workerName session = name ∧
    status session = PICKING ∧
    estimatedDuration session = estimatePackTime o ∧
    packSessions (startPackWorkflow n name w).2
      = <[n := session]> (packSessions w) ∧
    order_status <$> findOrderByNumber n (startPackWorkflow n name w).2
      = Some "picking"%string.
Proof.
  intros Hf Hs.
  destruct (startPackWorkflow_state n name w o Hf Hs)
    as (session & Hr & Hn & Hw & Hst & He & Hm & Ho & _).
  by exists session.
Qed.

(** X15: an order cannot be started twice: once a start has succeeded, a
    second start of the same order number, by any worker, throws "Order
    ... already in pack workflow" and leaves sessions, history, metrics
    and orders exactly as the first start left them. *)
Theorem startPackWorkflow_twice n name name' w o :
  findOrderByNumber n w = Some o → packSessions w !! n = None →
  startPackWorkflow n name' (startPackWorkflow n name w).2
    = (Thrown ("Order " +:+ n +:+ " already in pack workflow"),
       (startPackWorkflow n name w).2).
Proof.
  intros Hf Hs.
  destruct (startPackWorkflow_state n name w o Hf Hs)
    as (session & _ & _ & _ & _ & _ & Hm & Ho & _).
  set (w1 := (startPackWorkflow n name w).2) in *.
  unfold startPackWorkflow at 1.
  destruct (findOrderByNumber n w1) as [o1|]; [|done].
  by rewrite Hm, lookup_insert_eq.
Qed.

(** *** Sessions and history *)

Lemma recordPackingMetrics_packHistory n d name w :
  packHistory (recordPackingMetrics n d name w) = packHistory w.
Proof.
  unfold recordPackingMetrics. by destruct (workerMetrics w !! name).
Qed.

Lemma completePackWorkflow_spec n w session :
  packSessions w !! n = Some session →
  packSessions (completePackWorkflow n w) = delete n (packSessions w) ∧
  ∃ now,
    packHistory (completePackWorkflow n w)
      = packHistory w ++ [set_status DISPATCHED (set_completed (Some now) session)].
Proof.
  intros Hs. unfold completePackWorkflow. rewrite Hs. simpl.
  rewrite updateOrderStatus_packSessions, updateOrderStatus_packHistory.
  split; [done|]. by eexists.
Qed.

(** An accepted change of status that is not the dispatch: the session
    of that order, and nothing else among sessions and history, changes. *)
Lemma updatePackStatus_moves n t text w session :
  packSessions w !! n = Some session → allowed (status session) t →
  t ≠ DISPATCHED →
  ∃ session',
    (updatePackStatus n (stateName t) text w).1 = Returned session' ∧
    orderNumber session' = orderNumber session ∧
    workerName session' = workerName session ∧
    status session' = t ∧ completed session' = completed session ∧
    packSessions (updatePackStatus n (stateName t) text w).2
      = <[n := session']> (packSessions w) ∧
    packHistory (updatePackStatus n (stateName t) text w).2 = packHistory w.
Proof.
  intros Hs Ha Ht. unfold updatePackStatus. rewrite Hs.
  assert (isValidStateTransition (status session) (stateName t) = true) as ->.
  { apply isValidStateTransition_allowed. by exists t. }
  rewrite stateOfName_stateName. simpl.
  destruct (String.eqb text ""); simpl.
  all: destruct t; try done; simpl.
  all: eexists; split; [reflexivity|]; simpl.
  all: repeat (split; [reflexivity|]).
  all: rewrite updateOrderStatus_packSessions, updateOrderStatus_packHistory;
    simpl;
    rewrite ?recordPackingMetrics_packSessions, ?recordPackingMetrics_packHistory;
    done.
Qed.

(** The accepted dispatch: the session leaves the active map and is
    appended, completed, to the history. *)
Lemma updatePackStatus_dispatches n text w session :
  packSessions w !! n = Some session → status session = PACKED →
  ∃ session',
    (updatePackStatus n "dispatched" text w).1 = Returned session' ∧
    orderNumber session' = orderNumber session ∧
    workerName session' = workerName session ∧
    status session' = DISPATCHED ∧ is_Some (completed session') ∧
    packSessions (updatePackStatus n "dispatched" text w).2
      = delete n (packSessions w) ∧
    packHistory (updatePackStatus n "dispatched" text w).2
      = packHistory w ++ [session'] ∧
    workerMetrics (updatePackStatus n "dispatched" text w).2 = workerMetrics w.
Proof.
  intros Hs Hp. unfold updatePackStatus. rewrite Hs, Hp. simpl.
  destruct (String.eqb text ""); simpl.
  all: match goal with
       | |- context [completePackWorkflow _ ?w'] =>
           edestruct (completePackWorkflow_spec n w') as (Hm & now & Hh);
           [rewrite updateOrderStatus_packSessions; simpl;
            apply lookup_insert_eq|];
           pose proof (completePackWorkflow_workerMetrics n w') as Hw;
           rewrite Hm, Hh, Hw
       end.
  all: rewrite last_snoc; simpl.
  all: eexists; split; [reflexivity|]; simpl.
  all: repeat (split; [reflexivity|]).
  all: split; [by eexists|].
  all: rewrite updateOrderStatus_packSessions, updateOrderStatus_packHistory,
         updateOrderStatus_workerMetrics; simpl.
  all: by rewrite delete_insert_eq.
Qed.

Lemma updatePackStatus_refused n newStatus text w :
  (∀ session, packSessions w !! n = Some session →
              ¬ allowedRequest (status session) newStatus) →
  (updatePackStatus n newStatus text w).2 = w.
Proof.
  intros Hn. unfold updatePackStatus.
  destruct (packSessions w !! n) as [session|] eqn:Hs; [|done].
  destruct (isValidStateTransition (status session) newStatus) eqn:Hv; [|done].
  apply isValidStateTransition_allowed in Hv. by destruct (Hn session).
Qed.

Lemma startPackWorkflow_cases n name w :
  (startPackWorkflow n name w).2 = w ∨
  ∃ session,
    orderNumber session = n ∧ status session = PICKING ∧
    completed session = None ∧
    packSessions (startPackWorkflow n name w).2
      = <[n := session]> (packSessions w) ∧
    packHistory (startPackWorkflow n name w).2 = packHistory w.
Proof.
  unfold startPackWorkflow.
  destruct (findOrderByNumber n w) as [o|]; [|by left].
  destruct (packSessions w !! n); [by left|]. right. simpl.
  pose proof (calculatePackPriority_state o
                (set_ticks (S (S (S (ticks w)))) w)) as Hp.
  destruct (calculatePackPriority o _) as [prio w1]. simpl in Hp. subst w1.
  simpl. rewrite updateOrderStatus_packSessions, updateOrderStatus_packHistory.
  simpl. eexists. split_and!; cycle 3. all: reflexivity.

Qed.

Lemma allowed_dispatched s : allowed s DISPATCHED → s = PACKED.
Proof. by inversion 1. Qed.

Lemma allowed_not_from_dispatched s t : allowed s t → s ≠ DISPATCHED.
Proof. by inversion 1. Qed.

Lemma sessionsInvariant_insert n session w w' :
  sessionsInvariant w →
  orderNumber session = n → status session ≠ DISPATCHED →
  completed session = None →
  packSessions w' = <[n := session]> (packSessions w) →
  packHistory w' = packHistory w →
  sessionsInvariant w'.
Proof.
  intros [Ha Hh] Hn Hs Hc Hm Hl. split.
  - intros n' s'. rewrite Hm. intros Hl'.
    apply lookup_insert_Some in Hl' as [[<- <-]|[_ Hl']]; [done|by apply Ha].
  - rewrite Hl. apply Hh.
Qed.

Lemma sessionsInvariant_retire n session w w' :
  sessionsInvariant w →
  status session = DISPATCHED → is_Some (completed session) →
  packSessions w' = delete n (packSessions w) →
  packHistory w' = packHistory w ++ [session] →
  sessionsInvariant w'.
Proof.
  intros [Ha Hh] Hs Hc Hm Hl. split.
  - intros n' s'. rewrite Hm. intros Hl'.
    apply lookup_delete_Some in Hl' as [_ Hl']. by apply Ha.
  - intros s'. rewrite Hl. intros Hin.
    apply elem_of_app in Hin as [Hin|Hin]; [by apply Hh|].
    apply list_elem_of_singleton in Hin as ->. done.
Qed.

(** *** Saving and restoring *)

Lemma startPackWorkflow_storage n name w :
  storage (startPackWorkflow n name w).2 = storage w ∨
  storage (startPackWorkflow n name w).2
    = Some (snapshot (startPackWorkflow n name w).2).
Proof.
  unfold startPackWorkflow.
  destruct (findOrderByNumber n w) as [o|]; [|by left].
  destruct (packSessions w !! n); [by left|]. right. simpl.
  by destruct (calculatePackPriority o _).
Qed.

Lemma updatePackStatus_storage n s text w :
  storage (updatePackStatus n s text w).2 = storage w ∨
  storage (updatePackStatus n s text w).2
    = Some (snapshot (updatePackStatus n s text w).2).
Proof.
  unfold updatePackStatus.
  destruct (packSessions w !! n) as [session|]; [|by left].
  destruct (isValidStateTransition _ _); simpl; [|by left].
  right. destruct (String.eqb text ""); simpl;
    by destruct (default (status session) (stateOfName s)).
Qed.

Lemma completePackWorkflow_storage n w :
  storage (completePackWorkflow n w) = storage w ∨
  storage (completePackWorkflow n w) = Some (snapshot (completePackWorkflow n w)).
Proof.
  unfold completePackWorkflow.
  destruct (packSessions w !! n); [by right|by left].
Qed.

Lemma recordPackingMetrics_storage n d name w :
  storage (recordPackingMetrics n d name w) = storage w.
Proof.
  unfold recordPackingMetrics. by destruct (workerMetrics w !! name).
Qed.

(** Induction over the states a workflow can reach, for a property of
    sessions, history and worker metrics: it has to hold of the empty
    workflow, to be kept by each of the four methods, and to survive the
    passage through JSON of a save followed by a restore. *)
Lemma reachable_saved_ind (A : Workflow → Prop) :
  (∀ w w', packSessions w' = packSessions w →
           packHistory w' = packHistory w →
           workerMetrics w' = workerMetrics w → A w → A w') →
  (∀ d, A (newWorkflow d)) →
  (∀ w, A w → A (install (snapshot w) w)) →
  (∀ n name w, A w → A (startPackWorkflow n name w).2) →
  (∀ n s text w, A w → A (updatePackStatus n s text w).2) →
  (∀ n d name w, A w → A (recordPackingMetrics n d name w)) →
  (∀ n w, A w → A (completePackWorkflow n w)) →
  ∀ w, reachable w → A w.
Proof.
  intros Hext Hnew Hjson Hstart Hupdate Hrecord Hcomplete w Hr.
  assert (A w ∧ ∀ st, storage w = Some st → A (install st w)) as [Ha _];
    [|exact Ha].
  assert (∀ w w', A w' →
            (∀ st, storage w = Some st → A (install st w)) →
            storage w' = storage w ∨ storage w' = Some (snapshot w') →
            ∀ st, storage w' = Some st → A (install st w')) as Hstore.
  { intros w0 w' Ha' Hs0 [Heq|Heq] st Hst.
    - rewrite Heq in Hst. by apply (Hext (install st w0)); [..|apply Hs0].
    - rewrite Heq in Hst. injection Hst as <-. by apply Hjson. }
  induction Hr as [d|d w _ [IHa IHs]|w _ [IHa IHs]|d w _ [IHa IHs]
                   |n name w _ [IHa IHs]|n s text w _ [IHa IHs]
                   |n d name w _ [IHa IHs]|n w _ [IHa IHs]].
  - split; [apply Hnew|]. intros st Hst. discriminate Hst.
  - unfold constructPackWorkflow, restorePackWorkflowState. simpl.
    destruct (storage w) as [st|] eqn:Hst.
    + split; [by apply (Hext (install st w)); [..|apply IHs]|].
      intros st' [= <-]. by apply (Hext (install st w)); [..|apply IHs].
    + split; [by apply (Hext (newWorkflow d)); [..|apply Hnew]|].
      intros st' Hst'. discriminate Hst'.
  - unfold restorePackWorkflowState.
    destruct (storage w) as [st|] eqn:Hst; [|by rewrite Hst].
    split; [by apply IHs|]. intros st' Hst'. simpl in Hst'.
    apply (Hext (install st' w)); [done..|]. apply IHs. congruence.
  - split; [by apply (Hext w)|]. intros st Hst.
    by apply (Hext (install st w)); [..|apply IHs].
  - split; [by apply Hstart|].
    apply (Hstore w); [by apply Hstart|done|apply startPackWorkflow_storage].
  - split; [by apply Hupdate|].
    apply (Hstore w); [by apply Hupdate|done|apply updatePackStatus_storage].
  - split; [by apply Hrecord|].
    apply (Hstore w); [by apply Hrecord|done|].
    left. apply recordPackingMetrics_storage.
  - split; [by apply Hcomplete|].
    apply (Hstore w);
      [by apply Hcomplete|done|apply completePackWorkflow_storage].
Qed.

Lemma json_session_fields session :
  orderNumber (json_session session) = orderNumber session ∧
  workerName (json_session session) = workerName session ∧
  status (json_session session) = status session ∧
  (completed (json_session session) = None ↔ completed session = None).
Proof.
  split; [done|]. split; [done|]. split; [done|]. simpl.
  by destruct (completed session).
Qed.

Lemma sessionsInvariant_json w :
  sessionsInvariant w → sessionsInvariant (install (snapshot w) w).
Proof.
  intros [Ha Hh]. split.
  - intros n s Hl. simpl in Hl.
    apply lookup_fmap_Some in Hl as (s0 & <- & Hl).
    destruct (Ha n s0 Hl) as (Hn & Hs & Hc). simpl. by rewrite Hc.
  - intros s Hin. simpl in Hin. apply list_elem_of_In in Hin.
    apply in_map_iff in Hin as (s0 & <- & Hin). apply list_elem_of_In in Hin.
    assert (Forall (λ s, status s = DISPATCHED ∧ is_Some (completed s))
                   (drop (length (packHistory w) - 100) (packHistory w)))
      as Hall by (apply Forall_drop, Forall_forall, Hh).
    rewrite Forall_forall in Hall. destruct (Hall s0 Hin) as [Hs [c Hc]].
    simpl. rewrite Hc. split; [done|by eexists].
Qed.

(** X16: whatever sequence of starts, status updates, recordings,
    completions, reloads of the page and restores from localStorage a
    workflow has gone through, every active session is filed under its
    own order number, is not dispatched and has no completion time, and
    every session of the history is dispatched and has one. *)
Theorem reachable_sessionsInvariant w : reachable w → sessionsInvariant w.
Proof.
  apply reachable_saved_ind.
  - intros w0 w' Hs Hh _ [Ha Hb]. split.
    + intros n s. rewrite Hs. apply Ha.
    + intros s. rewrite Hh. apply Hb.
  - intros d. split; [intros n s Hl; simpl in Hl; by apply lookup_empty_Some in Hl|].
    intros s Hin. by apply elem_of_nil in Hin.
  - apply sessionsInvariant_json.
  - intros n name w0 IH.
    destruct (startPackWorkflow_cases n name w0)
      as [->|(session & Hn & Hs & Hc & Hm & Hl)]; [done|].
    apply (sessionsInvariant_insert n session w0); try done. by rewrite Hs.
  - intros n s text w0 IH.
    destruct (packSessions w0 !! n) as [session|] eqn:Hl.
    2:{ rewrite updatePackStatus_refused; [done|]. intros s' Hs'.
        by rewrite Hl in Hs'. }
    destruct (isValidStateTransition (status session) s) eqn:Hv.
    2:{ rewrite updatePackStatus_refused; [done|]. intros s' Hs'.
        rewrite Hl in Hs'. injection Hs' as <-. intros Ha.
        apply isValidStateTransition_allowed in Ha. congruence. }
    apply isValidStateTransition_allowed in Hv as (t & <- & Ha).
    destruct IH as [IHa IHh]. destruct (IHa n session Hl) as (Hn & Hnd & Hc).
    destruct (decide (t = DISPATCHED)) as [->|Ht].
    + apply allowed_dispatched in Ha.
      destruct (updatePackStatus_dispatches n text w0 session Hl Ha)
        as (s' & _ & _ & _ & Hs' & Hc' & Hm & Hh & _).
      by apply (sessionsInvariant_retire n s' w0).
    + destruct (updatePackStatus_moves n t text w0 session Hl Ha Ht)
        as (s' & _ & Hn' & _ & Hs' & Hc' & Hm & Hh).
      apply (sessionsInvariant_insert n s' w0); try done; congruence.
  - intros n d name w0 [IHa IHh]. split.
    + intros n' s'. rewrite recordPackingMetrics_packSessions. apply IHa.
    + intros s'. rewrite recordPackingMetrics_packHistory. apply IHh.
  - intros n w0 IH. destruct (packSessions w0 !! n) as [session|] eqn:Hl.
    + destruct (completePackWorkflow_spec n w0 session Hl) as (Hm & now & Hh).
      by apply (sessionsInvariant_retire n
                  (set_status DISPATCHED (set_completed (Some now) session))
                  w0).
    + unfold completePackWorkflow. by rewrite Hl.
Qed.

(** X17: dispatching a packed order retires its session: the session
    leaves the active map, the last entry of the history is that order's
    session in state "dispatched", and any further status update for the
    order, whatever the status asked for, throws "No active pack
    session ..." and changes nothing. *)
Theorem dispatched_is_final n text w session newStatus text' :
  packSessions w !! n = Some session → status session = PACKED →
  packSessions (updatePackStatus n "dispatched" text w).2 !! n = None ∧
  (∃ done,
     last (packHistory (updatePackStatus n "dispatched" text w).2) = Some done ∧
     orderNumber done = orderNumber session ∧ status done = DISPATCHED) ∧
  updatePackStatus n newStatus text' (updatePackStatus n "dispatched" text w).2
    = (Thrown ("No active pack session for order " +:+ n),
       (updatePackStatus n "dispatched" text w).2).
Proof.
  intros Hl Hp.
  destruct (updatePackStatus_dispatches n text w session Hl Hp)
    as (s' & _ & Hn & _ & Hs & _ & Hm & Hh & _).
  set (w' := (updatePackStatus n "dispatched" text w).2) in *.
  assert (packSessions w' !! n = None) as Hnone.
  { rewrite Hm. apply lookup_delete_eq. }
  split; [done|]. split.
  - exists s'. by rewrite Hh, last_snoc.
  - unfold updatePackStatus at 1. by rewrite Hnone.
Qed.

(** X18: the status [getNextStatus] proposes for an active session is
    accepted by [updatePackStatus] exactly when the session is being
    picked, packed or is packed, and then moves it one step forward; for a
    session put back to "pending" it proposes "pending" again, which
    [updatePackStatus] refuses, leaving the workflow as it was. *)
Theorem getNextStatus_request n text w session :
  packSessions w !! n = Some session →
  (status session = PENDING →
   getNextStatus (stateName (status session)) = Some "pending"%string ∧
   updatePackStatus n "pending" text w
     = (Thrown "Invalid state transition from pending to pending", w)) ∧
  (status session ≠ PENDING → status session ≠ DISPATCHED →
   ∃ next session',
     getNextStatus (stateName (status session)) = Some (stateName next) ∧
     allowed (status session) next ∧
     (updatePackStatus n (stateName next) text w).1 = Returned session' ∧
     status session' = next).
Proof.
  intros Hl. split.
  - intros Hp. rewrite Hp. split; [done|].
    rewrite (updatePackStatus_invalid n "pending" text w session Hl);
      by rewrite Hp.
  - intros Hp Hd.
    assert (∃ next, getNextStatus (stateName (status session))
                      = Some (stateName next) ∧ allowed (status session) next)
      as (next & Hg & Ha).
    { destruct (status session); try done;
        [exists PACKING|exists PACKED|exists DISPATCHED];
        (split; [reflexivity|constructor]). }
    exists next.
    destruct (updatePackStatus_accepts n next text w session Hl Ha)
      as (s' & Hr & Hs & _).
    by exists s'.
Qed.

Lemma recordPackingMetrics_count n d name w :
  ∃ m p,
    workerMetrics (recordPackingMetrics n d name w) !! name = Some m ∧
    packCount m = S (default 0%nat (packCount <$> workerMetrics w !! name)) ∧
    last (packedOrders m) = Some p ∧
    packed_orderNumber p = n ∧ packed_duration p = d ∧
    (∀ name', name' ≠ name →
       workerMetrics (recordPackingMetrics n d name w) !! name'
         = workerMetrics w !! name').
Proof.
  unfold recordPackingMetrics.
  destruct (workerMetrics w !! name) as [m|] eqn:Hm; simpl.
  all: eexists; eexists; rewrite lookup_insert_eq.
  all: split; [reflexivity|]; simpl.
  all: split; [reflexivity|]; simpl; rewrite ?last_snoc.
  all: split; [reflexivity|]; simpl.
  all: split; [reflexivity|]; split; [reflexivity|].
  all: intros name' Hne; by rewrite lookup_insert_ne.
Qed.

(** X19: moving a session that is being packed to "packed" stores the
    measured duration in the session and records exactly one pack for the
    session's worker: the worker's count goes up by one (from 0 for a
    worker not seen before), the last recorded pack is this order with
    that duration, and no other worker's accumulator changes. *)
Theorem updatePackStatus_packed_records n text w session :
  packSessions w !! n = Some session → status session = PACKING →
  ∃ session' m p,
    (updatePackStatus n "packed" text w).1 = Returned session' ∧
    actualDuration session' = Some (calculatePackDuration session') ∧
    workerMetrics (updatePackStatus n "packed" text w).2 !! workerName session
      = Some m ∧
    packCount m
      = S (default 0%nat (packCount <$> workerMetrics w !! workerName session)) ∧
    last (packedOrders m) = Some p ∧
    packed_orderNumber p = n ∧
    packed_duration p = calculatePackDuration session' ∧
    (∀ name', name' ≠ workerName session →
       workerMetrics (updatePackStatus n "packed" text w).2 !! name'
         = workerMetrics w !! name').
Proof.
  intros Hl Hp. unfold updatePackStatus. rewrite Hl, Hp. simpl.
  destruct (String.eqb text ""); simpl.
  all: rewrite updateOrderStatus_workerMetrics; simpl.
  all: match goal with
       | |- context [recordPackingMetrics _ ?d ?name ?w'] =>
           destruct (recordPackingMetrics_count n d name w')
             as (m & p & Hm & Hc & Hlast & Hpn & Hpd & Hother)
       end.
  all: eexists; exists m, p.
  all: split; [reflexivity|]; simpl.
  all: split; [reflexivity|].
  all: split; [exact Hm|]. 
  all: split; [exact Hc|]. 
  all: split; [exact Hlast|]. 
  all: split; [exact Hpn|]. 
  all: split; [exact Hpd|exact Hother]. 
Qed.

(** *** The accumulators *)











End WithHost.

(** *** Priority and estimate *)

Lemma Qceiling_le_iff x k : (Qceiling x ≤ k)%Z ↔ x <= inject_Z k.
Proof.
  split.
  - intros Hk. apply Qle_trans with (inject_Z (Qceiling x)); [apply Qle_ceiling|].
    by rewrite <- Zle_Qle.
  - intros Hx. pose proof (Qceiling_lt x) as Hc.
    assert (inject_Z (Qceiling x - 1) < inject_Z k) as Hlt by lra.
    rewrite <- Zlt_Qlt in Hlt. lia.
Qed.

Lemma days_le d now k :
  inject_Z (d - now) / (1000 * 60 * 60 * 24) <= inject_Z k
  ↔ (d ≤ now + k * 86400000)%Z.
Proof.
  assert (inject_Z (d - now) / (1000 * 60 * 60 * 24) <= inject_Z k
          ↔ inject_Z (d - now) <= inject_Z (k * 86400000)) as ->.
  { rewrite inject_Z_mult. unfold Qdiv.
    change (/ (1000 * 60 * 60 * 24)) with (1 # 86400000).
    change (inject_Z 86400000) with (86400000 # 1).
    split; intros; lra. }
  rewrite <- Zle_Qle. lia.
Qed.

Section Priority.
Context `{Host}.

(** X21: the pack priority depends on the dispatch date only through
    three windows counted from the instant of the call: "critical" when
    the date is not in the future, "high" when it is at most 24 hours
    ahead, "medium" when at most 72 hours ahead, "low" beyond. *)
Theorem calculatePackPriority_windows o w d :
  order_expectedDispatch o = Some d →
  (calculatePackPriority o w).1 =
    if (d <=? clock (ticks w))%Z then CRITICAL
    else if (d <=? clock (ticks w) + 86400000)%Z then HIGH
    else if (d <=? clock (ticks w) + 3 * 86400000)%Z then MEDIUM
    else LOW.
Proof.
  intros Hd. unfold calculatePackPriority. simpl. rewrite Hd.
  unfold Math_ceil.
  set (now := clock (ticks w)).
  set (c := Qceiling (inject_Z (d - now) / (1000 * 60 * 60 * 24))).
  assert (∀ k, (c ≤ k)%Z ↔ (d ≤ now + k * 86400000)%Z) as Hc.
  { intros k. unfold c. rewrite Qceiling_le_iff. apply days_le. }
  clearbody c.
  pose proof (Hc 0%Z) as H0. pose proof (Hc 1%Z) as H1.
  pose proof (Hc 3%Z) as H3.
  assert (le (inject_Z c) 0 = (c <=? 0)%Z) as ->.
  { destruct (le (inject_Z c) 0) eqn:E.
    - apply le_spec in E. change 0 with (inject_Z 0) in E.
      rewrite <- Zle_Qle in E. symmetry. by apply Z.leb_le.
    - apply le_false in E. change 0 with (inject_Z 0) in E.
      rewrite <- Zlt_Qlt in E. symmetry. apply Z.leb_gt. lia. }
  assert (Qeq_bool (inject_Z c) 1 = (c =? 1)%Z) as ->.
  { destruct (Qeq_bool (inject_Z c) 1) eqn:E.
    - apply Qeq_bool_iff in E. change 1 with (inject_Z 1) in E.
      apply (proj1 (inject_Z_injective c 1)) in E. symmetry.
      by apply Z.eqb_eq.
    - symmetry. apply Z.eqb_neq. intros ->. by vm_compute in E. }
  assert (le (inject_Z c) 3 = (c <=? 3)%Z) as ->.
  { destruct (le (inject_Z c) 3) eqn:E.
    - apply le_spec in E. change 3 with (inject_Z 3) in E.
      rewrite <- Zle_Qle in E. symmetry. by apply Z.leb_le.
    - apply le_false in E. change 3 with (inject_Z 3) in E.
      rewrite <- Zlt_Qlt in E. symmetry. apply Z.leb_gt. lia. }
  destruct (c <=? 0)%Z eqn:E0, (c =? 1)%Z eqn:E1, (c <=? 3)%Z eqn:E3;
    destruct (d <=? now)%Z eqn:F0, (d <=? now + 86400000)%Z eqn:F1,
             (d <=? now + 3 * 86400000)%Z eqn:F3; simpl; try reflexivity;
    exfalso;
    rewrite ?Z.leb_le, ?Z.leb_gt, ?Z.eqb_eq, ?Z.eqb_neq in *; lia.
Qed.

End Priority.

Lemma categoryMultiplier_ge_1 c m : categoryMultiplier c = Some m → 1 <= m.
Proof.
  unfold categoryMultiplier.
  repeat (match goal with |- context [if ?b then _ else _] => destruct b end);
    intros [= <-]; done.
Qed.

(** X22: an estimate is never below the five-minute base, and within a
    category it never goes down when the quantity goes up. *)
Theorem estimatePackTime_bounds o o' e e' q q' :
  estimatePackTime o = Some e → estimatePackTime o' = Some e' →
  order_category o' = order_category o →
  order_quantity o = Some q → order_quantity o' = Some q' → q <= q' →
  5 <= e ∧ e <= e'.
Proof.
  unfold estimatePackTime. intros He He' Hcat Hq Hq' Hle.
  rewrite Hq in He. rewrite Hq', Hcat in He'.
  destruct (categoryMultiplier (order_category o)) as [m|] eqn:Hm; [|done].
  apply categoryMultiplier_ge_1 in Hm.
  injection He as <-. injection He' as <-. unfold Math_ceil.
  pose proof (Q.le_max_l 0 ((q - 1) * 2)) as Hb.
  assert (Qmax 0 ((q - 1) * 2) <= Qmax 0 ((q' - 1) * 2)) as Hmono.
  { apply Q.max_le_compat_l. lra. }
  split.
  - apply Qle_trans with ((5 + Qmax 0 ((q - 1) * 2)) * m);
      [nra|apply Qle_ceiling].
  - rewrite <- Zle_Qle. apply Qceiling_resp_le. nra.
Qed.

(** *** A full pass *)

Section Lifecycle.
Context `{Host}.

(** X23: a full pass through the workflow leaves no trace among the
    active sessions: after a start followed by accepted updates to
    "packing", "packed" and "dispatched", the active sessions are those
    there were before the start, and the history has grown by exactly one
    entry, the dispatched session of that order and worker. *)
Theorem pack_lifecycle n name text1 text2 text3 w o :
  findOrderByNumber n w = Some o → packSessions w !! n = None →
  let w1 := (startPackWorkflow n name w).2 in
  let w2 := (updatePackStatus n "packing" text1 w1).2 in
  let w3 := (updatePackStatus n "packed" text2 w2).2 in
  let w4 := (updatePackStatus n "dispatched" text3 w3).2 in
  packSessions w4 = packSessions w ∧
  ∃ done,
    packHistory w4 = packHistory w ++ [done] ∧
    orderNumber done = n ∧ workerName done = name ∧ status done = DISPATCHED.
Proof.
  intros Hf Hs w1 w2 w3 w4.
  destruct (startPackWorkflow_state n name w o Hf Hs)
    as (s0 & _ & Hn0 & Hw0 & Hs0 & _ & Hm1 & _ & Hh1).
  fold w1 in Hm1, Hh1.
  assert (packSessions w1 !! n = Some s0) as Hl1
    by (rewrite Hm1; apply lookup_insert_eq).
  destruct (updatePackStatus_moves n PACKING text1 w1 s0 Hl1)
    as (s1 & _ & Hn1 & Hw1 & Hs1 & _ & Hm2 & Hh2);
    [rewrite Hs0; constructor|done|].
  change (stateName PACKING) with "packing"%string in Hm2, Hh2.
  fold w2 in Hm2, Hh2.
  assert (packSessions w2 !! n = Some s1) as Hl2
    by (rewrite Hm2; apply lookup_insert_eq).
  destruct (updatePackStatus_moves n PACKED text2 w2 s1 Hl2)
    as (s2 & _ & Hn2 & Hw2 & Hs2 & _ & Hm3 & Hh3);
    [rewrite Hs1; constructor|done|].
  change (stateName PACKED) with "packed"%string in Hm3, Hh3.
  fold w3 in Hm3, Hh3.
  assert (packSessions w3 !! n = Some s2) as Hl3
    by (rewrite Hm3; apply lookup_insert_eq).
  destruct (updatePackStatus_dispatches n text3 w3 s2 Hl3 Hs2)
    as (s3 & _ & Hn3 & Hw3 & Hs3 & _ & Hm4 & Hh4 & _).
  fold w4 in Hm4, Hh4.
  split.
  - rewrite Hm4, Hm3, Hm2, Hm1, !delete_insert_eq. by apply delete_id.
  - exists s3. rewrite Hh4, Hh3, Hh2, Hh1. split; [done|].
    split; [congruence|]. split; [congruence|done].
Qed.

End Lifecycle.

(** *** The properties above at the sample order *)

Lemma startPackWorkflow_starts_witness :
  ∃ session,
    (@startPackWorkflow sampleHost "Z1" "Ann" (newWorkflow (Some [orderZ1]))).1
      = Returned session ∧
    orderNumber session = "Z1"%string ∧ workerName session = "Ann"%string ∧
    status session = PICKING ∧
    estimatedDuration session = estimatePackTime orderZ1 ∧
    packSessions
      (@startPackWorkflow sampleHost "Z1" "Ann" (newWorkflow (Some [orderZ1]))).2
      = <[("Z1"%string) := session]> (packSessions (newWorkflow (Some [orderZ1]))) ∧
    order_status <$>
      findOrderByNumber "Z1"
        (@startPackWorkflow sampleHost "Z1" "Ann"
           (newWorkflow (Some [orderZ1]))).2
      = Some "picking"%string.
Proof.
  exact (@startPackWorkflow_starts sampleHost "Z1" "Ann"
           (newWorkflow (Some [orderZ1])) orderZ1 eq_refl eq_refl).
Defined.

Lemma startPackWorkflow_twice_witness :
  @startPackWorkflow sampleHost "Z1" "Bob" startedZ1
    = (Thrown "Order Z1 already in pack workflow", startedZ1).
Proof.
  exact (@startPackWorkflow_twice sampleHost "Z1" "Ann" "Bob"
           (newWorkflow (Some [orderZ1])) orderZ1 eq_refl eq_refl).
Defined.

Lemma reachable_sessionsInvariant_witness : sessionsInvariant packedZ1.
Proof.
  apply (@reachable_sessionsInvariant sampleHost packedZ1).
  unfold packedZ1, startedZ1.
  apply reach_update, reach_update, reach_start, reach_new.
Defined.

Lemma dispatched_is_final_witness :
  @updatePackStatus sampleHost "Z1" "packing" ""
    (@updatePackStatus sampleHost "Z1" "dispatched" "" packedZ1).2
  = (Thrown "No active pack session for order Z1",
     (@updatePackStatus sampleHost "Z1" "dispatched" "" packedZ1).2).
Proof.
  assert (∃ s, packSessions packedZ1 !! "Z1"%string = Some s ∧ status s = PACKED)
    as (s & Hl & Hp) by (eexists; split; vm_compute; reflexivity).
  destruct (@dispatched_is_final sampleHost "Z1" "" packedZ1 s "packing" ""
              Hl Hp) as (_ & _ & Hfinal).
  exact Hfinal.
Defined.

Lemma getNextStatus_request_witness :
  ∃ next session',
    getNextStatus "picking" = Some (stateName next) ∧
    allowed PICKING next ∧
    (@updatePackStatus sampleHost "Z1" (stateName next) "" startedZ1).1
      = Returned session' ∧
    status session' = next.
Proof.
  assert (∃ s, packSessions startedZ1 !! "Z1"%string = Some s ∧
               status s = PICKING)
    as (s & Hl & Hp) by (eexists; split; vm_compute; reflexivity).
  destruct (@getNextStatus_request sampleHost "Z1" "" startedZ1 s Hl)
    as [_ Hnext].
  rewrite Hp in Hnext. apply Hnext; discriminate.
Defined.

Lemma updatePackStatus_packed_records_witness :
  ∃ m,
    workerMetrics packedZ1 !! "Ann"%string = Some m ∧ packCount m = 1%nat.
Proof.
  assert (∃ s, packSessions
                 (@updatePackStatus sampleHost "Z1" "packing" "" startedZ1).2
                 !! "Z1"%string = Some s ∧
               status s = PACKING ∧ workerName s = "Ann"%string)
    as (s & Hl & Hp & Hw)
    by (eexists; split; [|split]; vm_compute; reflexivity).
  destruct (@updatePackStatus_packed_records sampleHost "Z1" "done"
              (@updatePackStatus sampleHost "Z1" "packing" "" startedZ1).2 s
              Hl Hp) as (s' & m & p & _ & _ & Hm & Hc & _).
  rewrite Hw in Hm, Hc. exists m. split; [exact Hm|]. rewrite Hc. reflexivity.
Defined.


Lemma calculatePackPriority_windows_witness :
  (@calculatePackPriority sampleHost orderZ1 (newWorkflow (Some [orderZ1]))).1
    = MEDIUM.
Proof.
  exact (@calculatePackPriority_windows sampleHost orderZ1
           (newWorkflow (Some [orderZ1])) (t0 + 30 * hour)%Z eq_refl).
Defined.

Lemma estimatePackTime_bounds_witness : 5 <= 18 ∧ 18 <= 26.
Proof.
  apply (estimatePackTime_bounds orderZ1 orderZ1x5 18 26 3 5);
    try reflexivity. vm_compute. discriminate.
Defined.

Lemma pack_lifecycle_witness :
  packSessions
    (@updatePackStatus sampleHost "Z1" "dispatched" ""
       (@updatePackStatus sampleHost "Z1" "packed" ""
          (@updatePackStatus sampleHost "Z1" "packing" ""
             (@startPackWorkflow sampleHost "Z1" "Ann"
                (newWorkflow (Some [orderZ1]))).2).2).2).2
    = packSessions (newWorkflow (Some [orderZ1])) ∧
  ∃ done,
    packHistory
      (@updatePackStatus sampleHost "Z1" "dispatched" ""
         (@updatePackStatus sampleHost "Z1" "packed" ""
            (@updatePackStatus sampleHost "Z1" "packing" ""
               (@startPackWorkflow sampleHost "Z1" "Ann"
                  (newWorkflow (Some [orderZ1]))).2).2).2).2
      = packHistory (newWorkflow (Some [orderZ1])) ++ [done] ∧
    orderNumber done = "Z1"%string ∧ workerName done = "Ann"%string ∧
    status done = DISPATCHED.
Proof.
  exact (@pack_lifecycle sampleHost "Z1" "Ann" "" "" ""
           (newWorkflow (Some [orderZ1])) orderZ1 eq_refl eq_refl).
Defined.

End PackExtra.

Module BatchExtra.
Import Batch DPSFacts BatchFacts Samples.

Lemma ge_spec x y : ge x y = true ↔ y <= x.
Proof. apply Qle_bool_iff. Qed.

Lemma ge_false x y : ge x y = false ↔ x < y.
Proof. apply (le_false y x). Qed.

Lemma gt_false x y : gt x y = false ↔ x <= y.
Proof.
  unfold gt. rewrite negb_false_iff. apply Qle_bool_iff.
Qed.

Lemma size_num_batchOf target matches :
  1 <= size_num (batchOf target matches) ∧
  size_num (batchOf target matches) <= 8.
Proof.
  unfold size_num, batchOf, maxBatchSize. rewrite length_take. simpl length.
  change 1 with (inject_Z 1). change 8 with (inject_Z 8).
  rewrite <- !Zle_Qle. lia.
Qed.

Lemma value_saving_below_minimum target matches :
  timeSavings (calculateValueBatchEfficiency (batchOf target matches))
    < minTimeSavings.
Proof.
  unfold calculateValueBatchEfficiency, efficiencyOf. simpl.
  destruct (size_num_batchOf target matches) as [Hlo Hhi].
  set (n := size_num (batchOf target matches)) in *.
  unfold basePicking, batchSetup, minTimeSavings.
  destruct (gt _ 1000); apply Q.max_lub_lt; lra.
Qed.

(** X24: the value analysis never proposes a batch: with at most eight
    orders in a batch, the saving it computes stays below the minimum of
    1.5 minutes, whatever the target and the candidates are. *)
Theorem analyzeValueBatches_never target eligibleOrders :
  analyzeValueBatches target eligibleOrders = [].
Proof.
  unfold analyzeValueBatches. destruct (ge (value target) 500); [|done].
  unfold proposeBatch.
  destruct (List.filter _ eligibleOrders) as [|o matches]; [done|].
  assert (ge (timeSavings (calculateValueBatchEfficiency
                             (batchOf target (o :: matches))))
             minTimeSavings = false) as ->; [|done].
  apply ge_false, value_saving_below_minimum.
Qed.

Lemma validateBatchForExecution_valid l :
  validateBatchForExecution l = None ↔
  (2 ≤ length l)%nat ∧ (length l ≤ maxBatchSize)%nat ∧
  Forall (λ o, urgencyScore o <= criticalUrgencyScore) l.
Proof.
  unfold validateBatchForExecution.
  destruct (bool_decide (length l < 2)%nat) eqn:E1.
  { apply bool_decide_eq_true in E1. split; [done|]. lia. }
  apply bool_decide_eq_false in E1.
  destruct (bool_decide (maxBatchSize < length l)%nat) eqn:E2.
  { apply bool_decide_eq_true in E2. split; [done|]. lia. }
  apply bool_decide_eq_false in E2.
  destruct (existsb _ l) eqn:E3.
  - split; [done|]. intros (_ & _ & Hall). exfalso.
    apply existsb_exists in E3 as (o & Ho & Hg).
    rewrite Forall_forall in Hall. apply list_elem_of_In in Ho.
    specialize (Hall o Ho). unfold gt in Hg. apply negb_true_iff in Hg.
    apply Qle_bool_iff in Hall. congruence.
  - split; [|done]. intros _. split; [lia|]. split; [lia|].
    apply Forall_forall. intros o Ho. apply gt_false.
    destruct (gt (urgencyScore o) criticalUrgencyScore) eqn:Hg; [|done].
    assert (existsb (λ o, gt (urgencyScore o) criticalUrgencyScore) l = true)
      as Hex; [|congruence].
    apply existsb_exists. exists o. split; [|done]. by apply list_elem_of_In.
Qed.

Lemma substring_take n l :
  String.substring 0 n (string_of_list_ascii l) = string_of_list_ascii (take n l).
Proof.
  revert l. induction n as [|n IH]; intros [|c l]; simpl; try done.
  by rewrite IH.
Qed.

Lemma substring_list n s :
  list_ascii_of_string (String.substring 0 n s)
    = take n (list_ascii_of_string s).
Proof.
  rewrite <- (string_of_list_ascii_of_string s) at 1.
  by rewrite substring_take, list_ascii_of_string_of_list_ascii.
Qed.

Lemma base64_take l : take 16 (base64 l) = take 16 (base64 (take 12 l)).
Proof.
  do 12 (destruct l as [|? l]; [reflexivity|]). reflexivity.
Qed.

Lemma btoa_prefix s s' :
  String.substring 0 12 s = String.substring 0 12 s' →
  String.substring 0 16 (btoa s) = String.substring 0 16 (btoa s').
Proof.
  intros Hp. unfold btoa. rewrite !substring_take. f_equal.
  rewrite base64_take, (base64_take (map _ (list_ascii_of_string s'))).
  rewrite !firstn_map, <- !substring_list. by rewrite Hp.
Qed.

Lemma generateCacheKey_prefix target pool target' pool' :
  String.substring 0 12 (joinedOrderNumbers target pool)
    = String.substring 0 12 (joinedOrderNumbers target' pool') →
  generateCacheKey target pool = generateCacheKey target' pool'.
Proof.
  intros Hp. unfold generateCacheKey. f_equal. by apply btoa_prefix.
Qed.

Section WithHost.
Context `{Host}.

(** X25: [executeBatch] starts a batch exactly when it has between two
    and eight orders, none above the critical urgency.  A started batch
    is counted once and adds its saving, 1.35 minutes per order less 1.8,
    to the total, which therefore grows; a refused batch is answered with
    "Batch validation failed: ..." and leaves the metrics as they were. *)
Theorem executeBatch_spec batchOrders perf t :
  ((2 ≤ length batchOrders)%nat ∧ (length batchOrders ≤ maxBatchSize)%nat ∧
   Forall (λ o, urgencyScore o <= criticalUrgencyScore) batchOrders →
   ∃ execution,
     (executeBatch batchOrders perf t).1.1 = Executed execution ∧
     exec_orders execution = map orderNumber batchOrders ∧
     batchesCreated (executeBatch batchOrders perf t).1.2
       = S (batchesCreated perf) ∧
     totalTimeSaved (executeBatch batchOrders perf t).1.2
       == totalTimeSaved perf + (1.35 * size_num batchOrders - 1.8) ∧
     totalTimeSaved perf < totalTimeSaved (executeBatch batchOrders perf t).1.2) ∧
  (¬ ((2 ≤ length batchOrders)%nat ∧ (length batchOrders ≤ maxBatchSize)%nat ∧
      Forall (λ o, urgencyScore o <= criticalUrgencyScore) batchOrders) →
   ∃ reason,
     validateBatchForExecution batchOrders = Some reason ∧
     (executeBatch batchOrders perf t).1
       = (Refused ("Batch validation failed: " +:+ reason), perf)).
Proof.
  split.
  - intros Hv. pose proof Hv as (Hlo & _).
    apply validateBatchForExecution_valid in Hv.
    unfold executeBatch. simpl. rewrite Hv. simpl.
    eexists. split; [reflexivity|]. split; [reflexivity|].
    split; [reflexivity|].
    assert (2 <= size_num batchOrders) as Hn.
    { unfold size_num. change 2 with (inject_Z 2). rewrite <- Zle_Qle. lia. }
    set (n := size_num batchOrders) in *.
    unfold basePicking, batchSetup, itemPickingReduction, packingEfficiency.
    assert (Qmax (n * 3.5 - (1.2 + n * 3.5 - (n - 1) * 0.6 * 1.0 - n * 0.75 * 1.0)) 0
            == 1.35 * n - 1.8) as ->.
    { rewrite Q.max_l; lra. }
    split; [reflexivity|]. lra.
  - intros Hn. destruct (validateBatchForExecution batchOrders) as [reason|] eqn:Hv.
    + exists reason. split; [done|]. unfold executeBatch. simpl. by rewrite Hv.
    + by apply validateBatchForExecution_valid in Hv.
Qed.

Lemma builtAround_valid target l :
  urgencyScore target <= criticalUrgencyScore → builtAround target l →
  validateBatchForExecution l = None.
Proof.
  intros Hcalm (rest & -> & Hne & Hlen & Hall).
  apply validateBatchForExecution_valid. split; [|split; [done|]].
  - destruct rest; [done|]. simpl. lia.
  - constructor; [done|]. eapply Forall_impl; [exact Hall|]. by intros o [_ Ho].
Qed.

(** X26: what is recommended for a target at or below the critical
    urgency can be executed: every freshly computed recommendation lists
    the orders of a batch that [executeBatch] starts. *)
Theorem recommendations_executable target pool opt perf t r :
  analysisCache opt !! generateCacheKey target pool = None →
  urgencyScore target <= criticalUrgencyScore →
  r ∈ batchOpportunities (findBatchOpportunities target pool opt).1 →
  ∃ batchOrders execution,
    rec_orders r = map summary batchOrders ∧
    (executeBatch batchOrders perf t).1.1 = Executed execution ∧
    exec_totalOrders execution = length (rec_orders r).
Proof.
  intros Hmiss Hcalm. unfold findBatchOpportunities.
  destruct (validateInputs target pool); simpl; [|by intros ?%elem_of_nil].
  rewrite Hmiss.
  pose proof (filterEligibleOrders_admissible target pool (ticks opt)) as Hall.
  destruct (filterEligibleOrders target pool (ticks opt)) as [l t'].
  simpl in Hall. destruct l as [|o l]; [by intros ?%elem_of_nil|].
  destruct (performComprehensiveBatchAnalysis target (o :: l)) as [ranked|] eqn:Hr;
    simpl; [|by intros ?%elem_of_nil].
  intros Hin. apply elem_of_lookup_imap_1 in Hin as (i & b & -> & Hb).
  pose proof (performComprehensiveBatchAnalysis_builtAround _ _ _ Hall Hr) as Hbs.
  rewrite Forall_forall in Hbs.
  assert (builtAround target (orders b)) as Hba
    by (apply Hbs; by eapply list_elem_of_lookup_2).
  exists (orders b). unfold executeBatch. simpl.
  rewrite (builtAround_valid target (orders b) Hcalm Hba). simpl.
  eexists. split; [reflexivity|]. split; [reflexivity|]. simpl.
  by rewrite length_map.
Qed.


Lemma rankBatchesByEfficiency_length l :
  (length (rankBatchesByEfficiency l) ≤ 10)%nat.
Proof. unfold rankBatchesByEfficiency. rewrite length_take. lia. Qed.

Lemma rankBatchesByEfficiency_savings l :
  Forall (λ b, minTimeSavings <= timeSavings (efficiency b))
         (rankBatchesByEfficiency l).
Proof.
  unfold rankBatchesByEfficiency. apply Forall_take.
  rewrite JSFacts.Array_sort_Permutation.
  apply Forall_forall. intros b Hb. apply list_elem_of_In in Hb.
  apply filter_In in Hb as [_ Hb]. by apply ge_spec in Hb.
Qed.

Lemma performComprehensiveBatchAnalysis_ranked target l ranked :
  performComprehensiveBatchAnalysis target l = Some ranked →
  (length ranked ≤ 10)%nat ∧
  Forall (λ b, minTimeSavings <= timeSavings (efficiency b)) ranked.
Proof.
  unfold performComprehensiveBatchAnalysis.
  destruct (analyzeSKUBatches target l); [|done].
  destruct (analyzeGeographicBatches target l); [|done].
  intros [= <-]. split;
    [apply rankBatchesByEfficiency_length|apply rankBatchesByEfficiency_savings].
Qed.

Lemma displayed_saving x :
  minTimeSavings <= x → minTimeSavings <= Math_round (x * 10) / 10.
Proof.
  unfold minTimeSavings. intros Hx.
  pose proof (DPSExtra.Math_round_monotone 15 (x * 10) ltac:(lra)) as Hm.
  change (Math_round 15) with (inject_Z 15) in Hm.
  change (inject_Z 15) with 15 in Hm. unfold Qdiv.
  change (/ 10) with (1 # 10). lra.
Qed.

Lemma createEmptyResult_wellShaped why : wellShaped (createEmptyResult why).
Proof.
  split; [simpl; lia|]. intros k rec Hl. simpl in Hl.
  by rewrite lookup_nil in Hl.
Qed.

(** A request answers with a well-shaped result and keeps the cache
    well shaped. *)
Lemma findBatchOpportunities_wellShaped target pool opt :
  (∀ key r, analysisCache opt !! key = Some r → wellShaped r) →
  wellShaped (findBatchOpportunities target pool opt).1 ∧
  (∀ key r, analysisCache (findBatchOpportunities target pool opt).2 !! key
              = Some r → wellShaped r).
Proof.
  intros Hcache. unfold findBatchOpportunities.
  destruct (validateInputs target pool); simpl;
    [|split; [apply createEmptyResult_wellShaped|done]].
  destruct (analysisCache opt !! generateCacheKey target pool) as [cached|] eqn:Hc.
  { split; [by apply (Hcache _ _ Hc)|done]. }
  pose proof (filterEligibleOrders_admissible target pool (ticks opt)) as Hall.
  destruct (filterEligibleOrders target pool (ticks opt)) as [l t'].
  simpl in Hall.
  destruct l as [|o l]; [split; [apply createEmptyResult_wellShaped|done]|].
  destruct (performComprehensiveBatchAnalysis target (o :: l)) as [ranked|] eqn:Hr;
    simpl.
  2:{ split; [|done]. split; [simpl; lia|].
      intros k rec Hl. simpl in Hl. by rewrite lookup_nil in Hl. }
  pose proof (performComprehensiveBatchAnalysis_builtAround _ _ _ Hall Hr) as Hbs.
  destruct (performComprehensiveBatchAnalysis_ranked _ _ _ Hr) as [Hlen Hsav].
  match goal with
  | |- wellShaped ?res ∧ _ => assert (wellShaped res) as Hres
  end.
  { split; [simpl; unfold generateBatchRecommendations;
            by rewrite length_imap|].
    simpl. intros k rec Hl. unfold generateBatchRecommendations in Hl.
    rewrite list_lookup_imap in Hl.
    destruct (ranked !! k) as [b|] eqn:Hb; [|done]. injection Hl as <-.
    rewrite Forall_forall in Hbs, Hsav.
    apply list_elem_of_lookup_2 in Hb.
    destruct (Hbs b Hb) as (rest & Ho & Hne & Hle & _).
    simpl. rewrite length_map. split; [done|]. split.
    { rewrite Ho. destruct rest; [done|]. simpl. lia. }
    split; [done|]. apply displayed_saving. by apply Hsav. }
  split; [done|]. intros key r Hl.
  apply lookup_insert_Some in Hl as [[_ <-]|[_ Hl]]; [done|by eapply Hcache].
Qed.

(** X27: every answer of an optimizer, computed or taken from the
    cache, holds at most ten recommendations, ranked 1, 2, ... in the
    order of the list; each has between two and eight orders and
    displays a saving of at least 1.5 minutes. *)
Theorem findBatchOpportunities_answer_shape target pool opt :
  reachable opt → wellShaped (findBatchOpportunities target pool opt).1.
Proof.
  intros Hr. apply findBatchOpportunities_wellShaped.
  induction Hr as [|target' pool' opt _ IH|key' opt _ IH].
  - intros key r Hl. simpl in Hl. by apply lookup_empty_Some in Hl.
  - by apply findBatchOpportunities_wellShaped.
  - intros key r Hl. simpl in Hl. apply lookup_delete_Some in Hl as [_ Hl].
    by eapply IH.
Qed.

(** X28: the result cache goes by the first twelve characters of the
    sorted, joined order numbers, and by nothing else: once a request has
    succeeded, the request that follows it directly, before the timer
    that drops the cached result after five minutes has run, is answered
    with that first result whenever its inputs are valid and its joined
    order numbers begin with the same twelve characters (the same
    request repeated, for one); the answer is counted as a cache hit and
    no clock is read. *)
Theorem findBatchOpportunities_replayed target pool target' pool' opt :
  success (findBatchOpportunities target pool opt).1 = true →
  validateInputs target' pool' = true →
  String.substring 0 12 (joinedOrderNumbers target' pool')
    = String.substring 0 12 (joinedOrderNumbers target pool) →
  (findBatchOpportunities target' pool'
     (findBatchOpportunities target pool opt).2).1
    = (findBatchOpportunities target pool opt).1 ∧
  cacheHits (findBatchOpportunities target' pool'
               (findBatchOpportunities target pool opt).2).2
    = S (cacheHits (findBatchOpportunities target pool opt).2) ∧
  ticks (findBatchOpportunities target' pool'
           (findBatchOpportunities target pool opt).2).2
    = ticks (findBatchOpportunities target pool opt).2.
Proof.
  intros Hs Hv' Hp.
  assert (analysisCache (findBatchOpportunities target pool opt).2
            !! generateCacheKey target pool
          = Some (findBatchOpportunities target pool opt).1) as Hl.
  { revert Hs. unfold findBatchOpportunities.
    destruct (validateInputs target pool); simpl; [|done].
    destruct (analysisCache opt !! generateCacheKey target pool)
      as [cached|] eqn:Hc; [done|].
    destruct (filterEligibleOrders target pool (ticks opt)) as [l t'].
    destruct l as [|o l]; [done|].
    destruct (performComprehensiveBatchAnalysis target (o :: l)); [|done].
    simpl. intros _. by rewrite lookup_insert_eq. }
  rewrite <- (generateCacheKey_prefix target' pool' target pool Hp) in Hl.
  set (r1 := (findBatchOpportunities target pool opt).1) in *.
  set (opt1 := (findBatchOpportunities target pool opt).2) in *.
  unfold findBatchOpportunities. rewrite Hv', Hl. simpl. done.
Qed.

End WithHost.

(** *** Pairs are never recommended *)

Lemma size_num_pair l :
  l ≠ [] → (length l ≤ 2)%nat → 1 <= size_num l ∧ size_num l <= 2.
Proof.
  intros Hne Hl. unfold size_num.
  change 1 with (inject_Z 1). change 2 with (inject_Z 2).
  rewrite <- !Zle_Qle. destruct l; [done|]. simpl in *. lia.
Qed.

Lemma sum_nonneg l : Forall (λ x, 0 <= x) l → 0 <= sum l.
Proof.
  unfold sum. induction 1 as [|x l Hx _ IH]; simpl; [done|]. lra.
Qed.

Lemma pair_sku l m :
  l ≠ [] → (length l ≤ 2)%nat → 0 <= m → m <= 1 →
  timeSavings (calculateSKUBatchEfficiency l m) < minTimeSavings.
Proof.
  intros Hne Hl Hm0 Hm1. destruct (size_num_pair l Hne Hl) as [Hlo Hhi].
  unfold calculateSKUBatchEfficiency. simpl.
  set (n := size_num l) in *.
  unfold basePicking, batchSetup, itemPickingReduction, packingEfficiency,
    minTimeSavings.
  apply Q.max_lub_lt; [|done]. nra.
Qed.

Lemma pair_geographic l same :
  l ≠ [] → (length l ≤ 2)%nat →
  timeSavings (calculateGeographicBatchEfficiency l same) < minTimeSavings.
Proof.
  intros Hne Hl. destruct (size_num_pair l Hne Hl) as [Hlo Hhi].
  unfold calculateGeographicBatchEfficiency, efficiencyOf. simpl.
  set (n := size_num l) in *.
  unfold basePicking, batchSetup, sameCountyBonus, adjacentCountyBonus,
    minTimeSavings.
  destruct same; (apply Q.max_lub_lt; [|done]); lra.
Qed.

Lemma pair_urgency l :
  l ≠ [] → (length l ≤ 2)%nat → Forall nonNegativeUrgency l →
  timeSavings (calculateUrgencyBatchEfficiency l) < minTimeSavings.
Proof.
  intros Hne Hl Hall. destruct (size_num_pair l Hne Hl) as [Hlo Hhi].
  unfold calculateUrgencyBatchEfficiency, efficiencyOf. simpl.
  assert (0 <= sum (map urgencyScore l) / size_num l) as Havg.
  { apply Qle_shift_div_l; [lra|]. rewrite Qmult_0_l. apply sum_nonneg.
    apply Forall_forall. intros x Hx. apply list_elem_of_In in Hx.
    apply in_map_iff in Hx as (o & <- & Ho). apply list_elem_of_In in Ho.
    rewrite Forall_forall in Hall. by apply Hall. }
  set (avg := sum (map urgencyScore l) / size_num l) in *.
  set (n := size_num l) in *.
  unfold basePicking, batchSetup, minTimeSavings.
  assert (avg / 100 * 0.2 == avg * (1 # 500)) as Hp
    by (unfold Qdiv; change (/ 100) with (1 # 100); lra).
  apply Q.max_lub_lt; [|done]. rewrite Hp. nra.
Qed.

Lemma proposeBatch_pairSavesLittle kind prio target matches eff threshold :
  ((length (batchOf target matches) ≤ 2)%nat →
   timeSavings (eff (batchOf target matches)) < minTimeSavings) →
  Forall pairSavesLittle (proposeBatch kind prio target matches eff threshold).
Proof.
  intros Hp. unfold proposeBatch.
  destruct matches as [|m matches]; [constructor|].
  destruct (ge _ _); [|constructor].
  constructor; [|constructor]. exact Hp.
Qed.

Lemma batchOf_nonempty target matches : batchOf target matches ≠ [].
Proof. done. Qed.

Lemma batchOf_nonNegative target matches :
  nonNegativeUrgency target → Forall nonNegativeUrgency matches →
  Forall nonNegativeUrgency (batchOf target matches).
Proof. intros Ht Hm. apply Forall_take. by constructor. Qed.

Lemma performComprehensiveBatchAnalysis_pairs target l ranked :
  nonNegativeUrgency target → Forall nonNegativeUrgency l →
  performComprehensiveBatchAnalysis target l = Some ranked →
  Forall pairSavesLittle ranked.
Proof.
  intros Ht Hall. unfold performComprehensiveBatchAnalysis.
  destruct (analyzeSKUBatches target l) as [sb|] eqn:Hsb; [|done].
  destruct (analyzeGeographicBatches target l) as [gb|] eqn:Hgb; [|done].
  intros [= <-]. apply rankBatchesByEfficiency_Forall.
  repeat (apply Forall_app; split).
  - revert Hsb. unfold analyzeSKUBatches. destruct (sku target); [|done].
    intros [= <-]. apply Forall_app.
    split; apply proposeBatch_pairSavesLittle; intros Hl;
      apply pair_sku; try done.
  - revert Hgb. unfold analyzeGeographicBatches.
    destruct (adjacentCountiesOf (county target)).
    + intros [= <-]. apply Forall_app.
      split; apply proposeBatch_pairSavesLittle; intros Hl;
        by apply pair_geographic.
    + destruct l; [|done]. intros [= <-]. constructor.
  - apply proposeBatch_pairSavesLittle. intros Hl.
    apply pair_urgency; [done|done|].
    apply batchOf_nonNegative; [done|]. by apply filter_Forall.
  - unfold analyzeValueBatches. destruct (ge _ _); [|constructor].
    apply proposeBatch_pairSavesLittle. intros _.
    apply value_saving_below_minimum.
  - apply Forall_forall. intros b Hb.
    apply list_elem_of_In in Hb. unfold createHybridBatches in Hb.
    apply in_flat_map in Hb as (s' & _ & Hb).
    apply in_flat_map in Hb as (g' & _ & Hb).
    case_bool_decide as Hthree; [|done].
    destruct (ge _ _); [|done]. destruct Hb as [<-|[]].
    intros Hl. simpl in Hl. lia.
Qed.

Section Pairs.
Context `{Host}.

Lemma filterFrom_Forall (P : Order → Prop) target l t :
  Forall P l → Forall P (filterFrom target l t).1.
Proof.
  intros Hall. revert t. induction Hall as [|o l Ho _ IH]; intros t; simpl;
    [constructor|].
  destruct (eligible target o t) as [keep t1].
  specialize (IH t1). destruct (filterFrom target l t1) as [rest t2].
  simpl in *. destruct keep; [by constructor|done].
Qed.

(** X29: the target is never paired with a single other order: when no
    urgency score is negative, every freshly computed recommendation has
    at least three orders, since no analysis finds a saving of 1.5
    minutes in a batch of two. *)
Theorem recommendations_at_least_three target pool opt r :
  analysisCache opt !! generateCacheKey target pool = None →
  0 <= urgencyScore target → Forall (λ o, 0 <= urgencyScore o) pool →
  r ∈ batchOpportunities (findBatchOpportunities target pool opt).1 →
  (3 ≤ length (rec_orders r))%nat.
Proof.
  intros Hmiss Ht Hpool. unfold findBatchOpportunities.
  destruct (validateInputs target pool); simpl; [|by intros ?%elem_of_nil].
  rewrite Hmiss.
  assert (Forall nonNegativeUrgency
            (filterEligibleOrders target pool (ticks opt)).1) as Hall.
  { unfold filterEligibleOrders. simpl. by apply filterFrom_Forall. }
  destruct (filterEligibleOrders target pool (ticks opt)) as [l t'].
  simpl in Hall. destruct l as [|o l]; [by intros ?%elem_of_nil|].
  destruct (performComprehensiveBatchAnalysis target (o :: l)) as [ranked|] eqn:Hr;
    simpl; [|by intros ?%elem_of_nil].
  intros Hin. apply elem_of_lookup_imap_1 in Hin as (i & b & -> & Hb).
  apply list_elem_of_lookup_2 in Hb. simpl. rewrite length_map.
  pose proof (performComprehensiveBatchAnalysis_pairs _ _ _ Ht Hall Hr) as Hp.
  destruct (performComprehensiveBatchAnalysis_ranked _ _ _ Hr) as [_ Hs].
  rewrite Forall_forall in Hp, Hs.
  specialize (Hp b Hb). specialize (Hs b Hb). unfold pairSavesLittle in Hp.
  destruct (decide (length (orders b) ≤ 2)%nat) as [Hl|Hl]; [|lia].
  specialize (Hp Hl). lra.
Qed.

End Pairs.


(** *** The properties above at the sample orders *)

Lemma executeBatch_spec_witness :
  ∃ execution,
    (@executeBatch sampleHost [orderA; orderC; orderD]
       {| batchesCreated := 0; totalTimeSaved := 0; efficiencyGains := [] |}
       0).1.1 = Executed execution ∧
    exec_orders execution = ["A"; "C"; "D"]%string.
Proof.
  destruct (@executeBatch_spec sampleHost [orderA; orderC; orderD]
              {| batchesCreated := 0; totalTimeSaved := 0;
                 efficiencyGains := [] |} 0) as [Hstart _].
  destruct Hstart as (execution & He & Ho & _).
  { split; [simpl; lia|]. split; [unfold maxBatchSize; simpl; lia|].
    repeat constructor; by vm_compute. }
  exists execution. split; [exact He|exact Ho].
Defined.

Lemma recommendations_executable_witness :
  ∃ r batchOrders execution,
    r ∈ batchOpportunities
          (@findBatchOpportunities sampleHost orderA [orderBb; orderC; orderD]
             newOptimizer).1 ∧
    rec_orders r = map summary batchOrders ∧
    (@executeBatch sampleHost batchOrders
       {| batchesCreated := 0; totalTimeSaved := 0; efficiencyGains := [] |}
       0).1.1 = Executed execution.
Proof.
  assert (∃ r, batchOpportunities
                 (@findBatchOpportunities sampleHost orderA
                    [orderBb; orderC; orderD] newOptimizer).1 !! 0%nat = Some r)
    as [r Hr] by (eexists; vm_compute; reflexivity).
  apply list_elem_of_lookup_2 in Hr.
  assert (urgencyScore orderA <= criticalUrgencyScore) as Hcalm by (by vm_compute).
  destruct (@recommendations_executable sampleHost orderA
              [orderBb; orderC; orderD] newOptimizer
              {| batchesCreated := 0; totalTimeSaved := 0;
                 efficiencyGains := [] |} 0 r eq_refl Hcalm Hr)
    as (batchOrders & execution & Ho & He & _).
  exists r, batchOrders, execution. split; [exact Hr|]. split; [exact Ho|exact He].
Defined.

Lemma findBatchOpportunities_answer_shape_witness :
  wellShaped
    (@findBatchOpportunities sampleHost orderBb [orderA; orderC; orderD]
       afterAskingForA).1.
Proof.
  apply (@findBatchOpportunities_answer_shape sampleHost orderBb
           [orderA; orderC; orderD] afterAskingForA).
  unfold afterAskingForA. apply reach_find, reach_new.
Defined.

Lemma findBatchOpportunities_replayed_witness :
  (@findBatchOpportunities sampleHost order1 [order7; order8]
     (@findBatchOpportunities sampleHost order1 [order2; order3]
        newOptimizer).2).1
    = (@findBatchOpportunities sampleHost order1 [order2; order3]
         newOptimizer).1.
Proof.
  destruct (@findBatchOpportunities_replayed sampleHost order1 [order2; order3]
              order1 [order7; order8] newOptimizer) as [Hsame _];
    [by vm_compute|by vm_compute|by vm_compute|].
  exact Hsame.
Defined.

Lemma recommendations_at_least_three_witness :
  ∃ r,
    r ∈ batchOpportunities
          (@findBatchOpportunities sampleHost orderA [orderBb; orderC; orderD]
             newOptimizer).1 ∧
    (3 ≤ length (rec_orders r))%nat.
Proof.
  assert (∃ r, batchOpportunities
                 (@findBatchOpportunities sampleHost orderA
                    [orderBb; orderC; orderD] newOptimizer).1 !! 0%nat = Some r)
    as [r Hr] by (eexists; vm_compute; reflexivity).
  apply list_elem_of_lookup_2 in Hr.
  exists r. split; [exact Hr|].
  apply (@recommendations_at_least_three sampleHost orderA
           [orderBb; orderC; orderD] newOptimizer r); try done.
  repeat constructor; by vm_compute.
Defined.

End BatchExtra.
